(** * discord.js-minesweeper: the board generator of [src/Minesweeper.ts]

    A shallow embedding of the [Minesweeper] class and the properties of
    its specification.

    - Cells are the strings the class stores ([string[][]]); a cell is
      tested the way the class tests it ([=== this.types.mine],
      [=== this.types.numbers[0]], [.includes("||")]).
    - Dimensions and counts are natural numbers.
    - A method is a function from the object to an [outcome]: it returns,
      throws a [TypeError] (a property of [undefined] is read), or is cut
      short by the fuel that bounds its loops and recursion.
    - [Math.random] is a sequence of draws of the unit interval and a
      cursor counting the calls made so far. *)

From Stdlib Require Import ZArith.
From stdpp Require Import base list strings sorting.

(** ** Strings *)

(** [s.includes(needle)] *)
Fixpoint includes (needle s : string) : bool :=
  String.prefix needle s ||
  match s with
  | EmptyString => false
  | String _ s' => includes needle s'
  end.

(** [s.slice(2, -2)]: the characters from index 2 up to two before the
    end, nothing when the string has four characters or fewer. *)
Definition slice_2_m2 (s : string) : string :=
  String.substring 2 (String.length s - 4) s.

(** [a.join(sep)] on an array of strings *)
Definition join (sep : string) (a : list string) : string :=
  String.concat sep a.

Definition newline : string := String (Ascii.ascii_of_nat 10) EmptyString.

(** ** Outcomes of a method call *)

Inductive outcome (A : Type) : Type :=
| Returns (a : A)   (* normal completion with a value *)
| Throws            (* TypeError: a property of [undefined] is read or set *)
| Sparse            (* an array element past the end is assigned: the
                       array would get holes, which [string[]] cannot hold *)
| OutOfFuel.        (* the loop or recursion bound is exhausted *)
Arguments Returns {A} a.
Arguments Throws {A}.
Arguments Sparse {A}.
Arguments OutOfFuel {A}.

Definition bind {A B} (c : outcome A) (k : A -> outcome B) : outcome B :=
  match c with
  | Returns a => k a
  | Throws => Throws
  | Sparse => Sparse
  | OutOfFuel => OutOfFuel
  end.

Notation "'let*' x ':=' c 'in' k" := (bind c (fun x => k))
  (at level 10, x pattern, c at level 100, k at level 200).

(** Sequencing over a list, threading the accumulator ([forEach], [for]). *)
Fixpoint foldM {A S} (f : S -> A -> outcome S) (s : S) (l : list A)
  : outcome S :=
  match l with
  | [] => Returns s
  | a :: l' => let* s' := f s a in foldM f s' l'
  end.

(** ** The random source *)

(** One value of [Math.random()]: the real [num / den]. *)
Record draw := Draw { num : nat; den : nat }.

(** The successive values of [Math.random()]. *)
Definition Random := nat -> draw.

(** [Math.random()] lies in [0, 1). *)
Definition unit_source (rng : Random) : Prop :=
  forall k, num (rng k) < den (rng k).

(** [Math.floor(r * n)] *)
Definition floor_scaled (r : draw) (n : nat) : nat := (num r * n) / den r.

(** ** Data model *)

Inductive ReturnType := emoji | code | matrix_type.

(** [MinesweeperOpts]: every property is optional.  [rng] is not declared
    by the interface; the test suite passes it, and a JavaScript object
    carries along whatever properties it is given. *)
Module Opts.
Record t := Make {
  rows : option nat;
  columns : option nat;
  mines : option nat;
  emote : option string;
  revealFirstCell : option bool;
  zeroFirstCell : option bool;
  spaces : option bool;
  returnType : option ReturnType;
  rng : option Random
}.
Definition empty : t :=
  Make None None None None None None None None None.
End Opts.

Record CellTypes := { mine : string; numbers : list string }.

Record SafeCell := { cell_x : nat; cell_y : nat }.

Record Minesweeper := {
  rows : nat;
  columns : nat;
  mines : nat;
  emote : string;
  spaces : bool;
  revealFirstCell : bool;
  zeroFirstCell : bool;
  safeCells : list SafeCell;
  returnType : ReturnType;
  types : CellTypes;
  matrix : list (list string)
}.

Definition set_matrix (this : Minesweeper) (m : list (list string))
  : Minesweeper :=
  {| rows := rows this; columns := columns this; mines := mines this;
     emote := emote this; spaces := spaces this;
     revealFirstCell := revealFirstCell this;
     zeroFirstCell := zeroFirstCell this; safeCells := safeCells this;
     returnType := returnType this; types := types this; matrix := m |}.

Definition set_safeCells (this : Minesweeper) (l : list SafeCell)
  : Minesweeper :=
  {| rows := rows this; columns := columns this; mines := mines this;
     emote := emote this; spaces := spaces this;
     revealFirstCell := revealFirstCell this;
     zeroFirstCell := zeroFirstCell this; safeCells := l;
     returnType := returnType this; types := types this;
     matrix := matrix this |}.

(** ** The class *)

(** [spoilerize]: [this.spaces ? `|| :${str}: ||` : `||:${str}:||`] *)
Definition spoilerize (spaces : bool) (str : string) : string :=
  if spaces then "|| :" +:+ str +:+ ": ||" else "||:" +:+ str +:+ ":||".

Definition number_names : list string :=
  ["zero"; "one"; "two"; "three"; "four"; "five"; "six"; "seven"; "eight"].

(** [(opts && opts.f) || d] on a number: [undefined] and [0] are falsy. *)
Definition or_number (v : option nat) (d : nat) : nat :=
  match v with
  | Some (S n) => S n
  | _ => d
  end.

(** [(opts && opts.f) || d] on a string: [undefined] and [""] are falsy. *)
Definition or_string (v : option string) (d : string) : string :=
  match v with
  | Some (String a s) => String a s
  | _ => d
  end.

(** [opts && opts.f !== undefined ? opts.f : d] *)
Definition or_undefined {A} (v : option A) (d : A) : A :=
  match v with
  | Some a => a
  | None => d
  end.

(** [opts && opts.f]: the property of an options object that may be absent *)
Definition prop {A} (opts : option Opts.t) (f : Opts.t -> option A)
  : option A :=
  match opts with
  | Some o => f o
  | None => None
  end.

Definition constructor (opts : option Opts.t) : Minesweeper :=
  let rows := or_number (prop opts Opts.rows) 9 in
  let columns := or_number (prop opts Opts.columns) 9 in
  let mines := or_number (prop opts Opts.mines) 10 in
  let emote := or_string (prop opts Opts.emote) "boom" in
  let revealFirstCell := or_undefined (prop opts Opts.revealFirstCell) false in
  let zeroFirstCell := or_undefined (prop opts Opts.zeroFirstCell) true in
  let spaces := or_undefined (prop opts Opts.spaces) true in
  let returnType := or_undefined (prop opts Opts.returnType) emoji in
  {| rows := rows; columns := columns; mines := mines; emote := emote;
     spaces := spaces; revealFirstCell := revealFirstCell;
     zeroFirstCell := zeroFirstCell; safeCells := [];
     returnType := returnType;
     types := {| mine := spoilerize spaces emote;
                 numbers := map (spoilerize spaces) number_names |};
     matrix := [] |}.

(** [this.types.numbers[k]]; the constructor stores nine entries and the
    class only reads indices up to eight. *)
Definition number (this : Minesweeper) (k : nat) : string :=
  default "" (numbers (types this) !! k).

(** [generateEmptyMatrix]: pushes [rows] rows of [columns] zero cells. *)
Definition generateEmptyMatrix (this : Minesweeper) : Minesweeper :=
  fold_left
    (fun this _ =>
       let arr := replicate (columns this) (number this 0) in
       set_matrix this (matrix this ++ [arr]))
    (seq 0 (rows this)) this.

(** [getTextRepresentation] *)
Definition getTextRepresentation (this : Minesweeper) : string :=
  let separator := if spaces this then " " else "" in
  join newline (map (join separator) (matrix this)).

(** ** Reading and writing cells *)

(** [this.matrix[x][y] === s]: reading a column of an undefined row
    throws; an undefined cell is equal to no string. *)
Definition cell_is (this : Minesweeper) (x y : nat) (s : string)
  : outcome bool :=
  match matrix this !! x with
  | None => Throws
  | Some row => Returns (bool_decide (row !! y = Some s))
  end.

(** [this.matrix[x][y]] where a string method is called on the result. *)
Definition cell (this : Minesweeper) (x y : nat) : outcome string :=
  match matrix this !! x with
  | None => Throws
  | Some row =>
      match row !! y with
      | None => Throws
      | Some s => Returns s
      end
  end.

(** [this.matrix[x][y] = s] *)
Definition assign (this : Minesweeper) (x y : nat) (s : string)
  : outcome Minesweeper :=
  match matrix this !! x with
  | None => Throws
  | Some row =>
      if bool_decide (y < length row) then
        Returns (set_matrix this (<[x := <[y := s]> row]> (matrix this)))
      else if bool_decide (y = length row) then
        Returns (set_matrix this (<[x := row ++ [s]]> (matrix this)))
      else Sparse
  end.

(** ** Mine placement *)

(** The loop of [plantMines], entered with counter [i] and [k] draws
    already made.  A draw that hits a mine runs [i--] and then the loop's
    [i++]: the counter is unchanged. *)
Fixpoint plantMines_from (fuel : nat) (rng : Random) (i : nat)
    (this : Minesweeper) (k : nat) : outcome (Minesweeper * nat) :=
  if bool_decide (i < mines this) then
    match fuel with
    | 0 => OutOfFuel
    | S fuel' =>
        let x := floor_scaled (rng k) (rows this) in
        let y := floor_scaled (rng (S k)) (columns this) in
        let* hit := cell_is this x y (mine (types this)) in
        if hit then plantMines_from fuel' rng i this (S (S k))
        else
          let* this' := assign this x y (mine (types this)) in
          plantMines_from fuel' rng (S i) this' (S (S k))
    end
  else Returns (this, k).

Definition plantMines (fuel : nat) (rng : Random) (this : Minesweeper)
    (k : nat) : outcome (Minesweeper * nat) :=
  plantMines_from fuel rng 0 this k.

(** ** Neighbor annotation *)

(** [+(guard && this.matrix[x][y] === this.types.mine)]; the cell is read
    only when the guard holds. *)
Definition mine_flag (this : Minesweeper) (guard : bool) (x y : nat)
  : outcome nat :=
  if guard then
    let* hit := cell_is this x y (mine (types this)) in
    Returns (if hit : bool then 1 else 0)
  else Returns 0.

Definition getNumberOfMines (x y : nat) (this : Minesweeper)
  : outcome (string * Minesweeper) :=
  let* hit := cell_is this x y (mine (types this)) in
  if hit then Returns (mine (types this), this)
  else
    let this := set_safeCells this
                  (safeCells this ++ [{| cell_x := x; cell_y := y |}]) in
    let hasLeft := bool_decide (0 < y) in
    let hasRight := bool_decide (y < columns this - 1) in
    let hasTop := bool_decide (0 < x) in
    let hasBottom := bool_decide (x < rows this - 1) in
    (* top left *)
    let* c1 := mine_flag this (hasTop && hasLeft) (x - 1) (y - 1) in
    (* top *)
    let* c2 := mine_flag this hasTop (x - 1) y in
    (* top right *)
    let* c3 := mine_flag this (hasTop && hasRight) (x - 1) (y + 1) in
    (* left *)
    let* c4 := mine_flag this hasLeft x (y - 1) in
    (* right *)
    let* c5 := mine_flag this hasRight x (y + 1) in
    (* bottom left *)
    let* c6 := mine_flag this (hasBottom && hasLeft) (x + 1) (y - 1) in
    (* bottom *)
    let* c7 := mine_flag this hasBottom (x + 1) y in
    (* bottom right *)
    let* c8 := mine_flag this (hasBottom && hasRight) (x + 1) (y + 1) in
    let counter := c1 + c2 + c3 + c4 + c5 + c6 + c7 + c8 in
    Returns (number this counter, this).

(** [row.map((col, y) => this.getNumberOfMines(x, y))], from column [y] on.
    [this.matrix] is the old grid until [populate] assigns the result. *)
Fixpoint populate_row (x y : nat) (row : list string) (this : Minesweeper)
  : outcome (list string * Minesweeper) :=
  match row with
  | [] => Returns ([], this)
  | _ :: row' =>
      let* (s, this) := getNumberOfMines x y this in
      let* (ss, this) := populate_row x (S y) row' this in
      Returns (s :: ss, this)
  end.

(** [this.matrix.map((row, x) => ...)], from row [x] on. *)
Fixpoint populate_rows (x : nat) (m : list (list string))
    (this : Minesweeper) : outcome (list (list string) * Minesweeper) :=
  match m with
  | [] => Returns ([], this)
  | row :: m' =>
      let* (r, this) := populate_row x 0 row this in
      let* (rs, this) := populate_rows (S x) m' this in
      Returns (r :: rs, this)
  end.

Definition populate (this : Minesweeper) : outcome Minesweeper :=
  let* (m, this) := populate_rows 0 (matrix this) this in
  Returns (set_matrix this m).

(** ** Initial reveal *)

(** The cells [(i, j)] visited by the two nested loops of
    [revealSurroundings], in the order visited: [i] from
    [max(0, x - 1)] to [min(rows - 1, x + 1)] and [j] from
    [max(0, y - 1)] to [min(columns - 1, y + 1)].  The inclusive upper
    bounds are written as the exclusive [min(rows, x + 2)] and
    [min(columns, y + 2)], which also gives no iteration when a
    dimension is zero. *)
Definition surroundings (this : Minesweeper) (c : SafeCell)
  : list (nat * nat) :=
  let xLower := cell_x c - 1 in
  let yLower := cell_y c - 1 in
  let xEnd := rows this `min` (cell_x c + 2) in
  let yEnd := columns this `min` (cell_y c + 2) in
  list_prod (seq xLower (xEnd - xLower)) (seq yLower (yEnd - yLower)).

(** The body of the inner loop. *)
Definition reveal_cell (st : Minesweeper * list SafeCell) (ij : nat * nat)
  : outcome (Minesweeper * list SafeCell) :=
  let '(this, zeroCells) := st in
  let '(i, j) := ij in
  let* s := cell this i j in
  if includes "||" s then
    let zeroCells :=
      if bool_decide (s = number this 0)
      then zeroCells ++ [{| cell_x := i; cell_y := j |}]
      else zeroCells in
    let* this := assign this i j (slice_2_m2 s) in
    Returns (this, zeroCells)
  else Returns (this, zeroCells).

(** [revealSurroundings]; the fuel bounds the depth of the recursion. *)
Fixpoint revealSurroundings (fuel : nat) (c : SafeCell) (recurse : bool)
    (this : Minesweeper) : outcome Minesweeper :=
  match fuel with
  | 0 => OutOfFuel
  | S fuel' =>
      let* (this, zeroCells) :=
        foldM reveal_cell (this, []) (surroundings this c) in
      if recurse then
        foldM (fun this c => revealSurroundings fuel' c true this)
              this zeroCells
      else Returns this
  end.

(** [a.filter(p)] for a predicate that may throw. *)
Fixpoint filterM {A} (p : A -> outcome bool) (l : list A)
  : outcome (list A) :=
  match l with
  | [] => Returns []
  | a :: l' =>
      let* keep := p a in
      let* rest := filterM p l' in
      Returns (if keep : bool then a :: rest else rest)
  end.

(** [a[Math.floor(Math.random() * a.length)]] followed by a property
    access on the result. *)
Definition pick {A} (rng : Random) (k : nat) (a : list A) : outcome A :=
  match a !! floor_scaled (rng k) (length a) with
  | None => Throws
  | Some v => Returns v
  end.

(** [revealFirst]: the coordinate returned (with [-1] for "none"), the
    object and the cursor of the random source. *)
Definition revealFirst (fuel : nat) (rng : Random) (this : Minesweeper)
    (k : nat) : outcome ((Z * Z) * Minesweeper * nat) :=
  if negb (revealFirstCell this) then Returns ((-1, -1)%Z, this, k)
  else
    let* zeroCells :=
      filterM (fun c => cell_is this (cell_x c) (cell_y c) (number this 0))
              (safeCells this) in
    if zeroFirstCell this && bool_decide (0 < length zeroCells) then
      let* safeCell := pick rng k zeroCells in
      let x := cell_x safeCell in
      let y := cell_y safeCell in
      let* s := cell this x y in
      let* this := assign this x y (slice_2_m2 s) in
      let* this := revealSurroundings fuel safeCell true this in
      Returns ((Z.of_nat x, Z.of_nat y), this, S k)
    else
      let* safeCell := pick rng k (safeCells this) in
      let x := cell_x safeCell in
      let y := cell_y safeCell in
      let* s := cell this x y in
      let* this := assign this x y (slice_2_m2 s) in
      Returns ((Z.of_nat x, Z.of_nat y), this, S k).

(** ** The entry point *)

(** What [start] returns: [null], a string, or the grid itself. *)
Inductive StartResult :=
| Null
| Text (s : string)
| Grid (m : list (list string)).

Definition start (fuel : nat) (rng : Random) (this : Minesweeper)
    (k : nat) : outcome (StartResult * Minesweeper * nat) :=
  if bool_decide (rows this * columns this <= mines this * 2) then
    Returns (Null, this, k)
  else
    let this := generateEmptyMatrix this in
    let* (this, k) := plantMines fuel rng this k in
    let* this := populate this in
    let* (_, this, k) := revealFirst fuel rng this k in
    match returnType this with
    | emoji => Returns (Text (getTextRepresentation this), this, k)
    | code =>
        Returns (Text ("```" +:+ getTextRepresentation this +:+ "```"),
                 this, k)
    | matrix_type => Returns (Grid (matrix this), this, k)
    end.

(** * Properties *)

(** ** Grids *)

(** The string at row [x], column [y], when there is one. *)
Definition cell_of (m : list (list string)) (x y : nat) : option string :=
  match m !! x with
  | Some row => row !! y
  | None => None
  end.

(** A grid of [R] rows of [C] cells each. *)
Definition rect (R C : nat) (m : list (list string)) : Prop :=
  length m = R /\ Forall (fun row => length row = C) m.

(** The grid after [m[x][y] = s] on an existing cell. *)
Definition grid_set (m : list (list string)) (x y : nat) (s : string)
  : list (list string) :=
  match m !! x with
  | Some row => <[x := <[y := s]> row]> m
  | None => m
  end.

Lemma rect_cell R C m x y :
  rect R C m -> x < R -> y < C -> is_Some (cell_of m x y).
Proof.
  intros [Hlen Hrows] Hx Hy. unfold cell_of.
  destruct (lookup_lt_is_Some_2 m x) as [row Hrow]; [lia|].
  rewrite Hrow. apply lookup_lt_is_Some_2.
  rewrite Forall_forall in Hrows.
  rewrite (Hrows row); [done|]. eapply list_elem_of_lookup_2, Hrow.
Qed.

Lemma cell_of_lt R C m x y s :
  rect R C m -> cell_of m x y = Some s -> x < R /\ y < C.
Proof.
  intros [Hlen Hrows] H. unfold cell_of in H.
  destruct (m !! x) as [row|] eqn:Hrow; [|done].
  split.
  - rewrite <- Hlen. eapply lookup_lt_Some, Hrow.
  - rewrite Forall_forall in Hrows.
    rewrite <- (Hrows row).
    + eapply lookup_lt_Some, H.
    + eapply list_elem_of_lookup_2, Hrow.
Qed.

Lemma cell_of_grid_set_eq m x y s s0 :
  cell_of m x y = Some s0 -> cell_of (grid_set m x y s) x y = Some s.
Proof.
  unfold grid_set, cell_of. intros H.
  destruct (m !! x) as [row|] eqn:Hrow; [|done].
  rewrite list_lookup_insert_eq by (eapply lookup_lt_Some, Hrow).
  apply list_lookup_insert_eq. eapply lookup_lt_Some, H.
Qed.

Lemma cell_of_grid_set_ne m x y s x' y' :
  (x', y') <> (x, y) -> cell_of (grid_set m x y s) x' y' = cell_of m x' y'.
Proof.
  unfold grid_set, cell_of. intros Hne.
  destruct (m !! x) as [row|] eqn:Hrow; [|done].
  destruct (decide (x' = x)) as [->|Hx].
  - rewrite list_lookup_insert_eq by (eapply lookup_lt_Some, Hrow).
    rewrite Hrow. apply list_lookup_insert_ne. congruence.
  - by rewrite list_lookup_insert_ne.
Qed.

Lemma rect_grid_set R C m x y s : rect R C m -> rect R C (grid_set m x y s).
Proof.
  intros [Hlen Hrows]. unfold grid_set.
  destruct (m !! x) as [row|] eqn:Hrow; [|done].
  split; [by rewrite length_insert|].
  apply Forall_insert; [done|].
  rewrite length_insert. rewrite Forall_forall in Hrows.
  apply Hrows. eapply list_elem_of_lookup_2, Hrow.
Qed.

(** ** Reads and writes that succeed *)

Lemma cell_Returns this x y s :
  cell_of (matrix this) x y = Some s -> cell this x y = Returns s.
Proof.
  unfold cell, cell_of. destruct (matrix this !! x); [|done].
  by intros ->.
Qed.

Lemma cell_is_Returns this x y s s0 :
  cell_of (matrix this) x y = Some s0 ->
  cell_is this x y s = Returns (bool_decide (s0 = s)).
Proof.
  unfold cell_is, cell_of. destruct (matrix this !! x); [|done].
  intros ->. f_equal. apply bool_decide_ext. split; congruence.
Qed.

Lemma assign_Returns this x y s s0 :
  cell_of (matrix this) x y = Some s0 ->
  assign this x y s
  = Returns (set_matrix this (grid_set (matrix this) x y s)).
Proof.
  unfold assign, grid_set, cell_of.
  destruct (matrix this !! x) as [row|]; [|done].
  intros H. apply lookup_lt_Some in H. by rewrite bool_decide_eq_true_2.
Qed.

(** ** The symbol table *)

(** What the rest of the class relies on: nine distinct number symbols,
    each a spoiler whose inside is no spoiler, and a mine symbol that is
    a spoiler. *)
Record types_ok (t : CellTypes) : Prop := {
  numbers_nine : length (numbers t) = 9;
  numbers_NoDup : NoDup (numbers t);
  numbers_masked : Forall (fun s => includes "||" s = true) (numbers t);
  numbers_revealed :
    Forall (fun s => includes "||" (slice_2_m2 s) = false) (numbers t);
  mine_masked : includes "||" (mine t) = true
}.

Lemma spoilerize_masked sp str : includes "||" (spoilerize sp str) = true.
Proof. by destruct sp. Qed.

Lemma constructor_types opts :
  types (constructor opts)
  = {| mine := spoilerize (spaces (constructor opts))
                 (emote (constructor opts));
       numbers := map (spoilerize (spaces (constructor opts)))
                    number_names |}.
Proof. reflexivity. Qed.

Lemma constructor_types_ok opts : types_ok (types (constructor opts)).
Proof.
  rewrite constructor_types.
  destruct (spaces (constructor opts)); split; simpl;
    try apply spoilerize_masked; try done;
    try (apply (bool_decide_unpack _); by vm_compute);
    repeat constructor.
Qed.

Lemma number_elem this k :
  types_ok (types this) -> k < 9 -> number this k ∈ numbers (types this).
Proof.
  intros Hok Hk. unfold number.
  destruct (lookup_lt_is_Some_2 (numbers (types this)) k) as [s Hs].
  { by rewrite (numbers_nine _ Hok). }
  rewrite Hs. eapply list_elem_of_lookup_2, Hs.
Qed.

Lemma number_inj this j k :
  types_ok (types this) -> j < 9 -> k < 9 ->
  number this j = number this k -> j = k.
Proof.
  intros Hok Hj Hk. unfold number.
  destruct (lookup_lt_is_Some_2 (numbers (types this)) j) as [s Hs].
  { by rewrite (numbers_nine _ Hok). }
  destruct (lookup_lt_is_Some_2 (numbers (types this)) k) as [s' Hs'].
  { by rewrite (numbers_nine _ Hok). }
  rewrite Hs, Hs'. simpl. intros <-.
  eapply NoDup_lookup; eauto using numbers_NoDup.
Qed.

Lemma number_masked this k :
  types_ok (types this) -> k < 9 -> includes "||" (number this k) = true.
Proof.
  intros Hok Hk. pose proof (numbers_masked _ Hok) as H.
  rewrite Forall_forall in H. by apply H, number_elem.
Qed.

Lemma number_revealed this k :
  types_ok (types this) -> k < 9 ->
  includes "||" (slice_2_m2 (number this k)) = false.
Proof.
  intros Hok Hk. pose proof (numbers_revealed _ Hok) as H.
  rewrite Forall_forall in H. by apply H, number_elem.
Qed.

(** ** Neighbor annotation *)

(** The specification's count, in its words: the up-to-8 orthogonal and
    diagonal neighbours, a neighbour outside [0,R) x [0,C) contributing
    nothing. *)
Definition neighbours (x y : nat) : list (Z * Z) :=
  let x := Z.of_nat x in
  let y := Z.of_nat y in
  [(x - 1, y - 1); (x - 1, y); (x - 1, y + 1);
   (x, y - 1); (x, y + 1);
   (x + 1, y - 1); (x + 1, y); (x + 1, y + 1)]%Z.

Definition mine_within (this : Minesweeper) (p : Z * Z) : bool :=
  bool_decide (0 <= p.1 < Z.of_nat (rows this))%Z
  && bool_decide (0 <= p.2 < Z.of_nat (columns this))%Z
  && bool_decide (cell_of (matrix this) (Z.to_nat p.1) (Z.to_nat p.2)
                  = Some (mine (types this))).

Definition spec_neighbour_mines (this : Minesweeper) (x y : nat) : nat :=
  length (List.filter (mine_within this) (neighbours x y)).

(** The cell [populate] computes for a cell holding [s]. *)
Definition populated (this : Minesweeper) (x y : nat) (s : string)
  : string :=
  if bool_decide (s = mine (types this)) then mine (types this)
  else number this (spec_neighbour_mines this x y).

Definition populated_grid (this : Minesweeper) : list (list string) :=
  imap (fun x row => imap (fun y s => populated this x y s) row)
       (matrix this).

(** The coordinates [populate] registers, in the order it visits them. *)
Fixpoint safe_in_row (mine : string) (x y : nat) (row : list string)
  : list SafeCell :=
  match row with
  | [] => []
  | s :: row' =>
      (if bool_decide (s = mine) then []
       else [{| cell_x := x; cell_y := y |}])
      ++ safe_in_row mine x (S y) row'
  end.

Fixpoint safe_in_rows (mine : string) (x : nat) (m : list (list string))
  : list SafeCell :=
  match m with
  | [] => []
  | row :: m' => safe_in_row mine x 0 row ++ safe_in_rows mine (S x) m'
  end.

Lemma spec_neighbour_mines_le this x y : spec_neighbour_mines this x y <= 8.
Proof.
  unfold spec_neighbour_mines.
  etransitivity; [apply List.filter_length_le|]. done.
Qed.

Lemma mine_flag_within this g x' y' p :
  rect (rows this) (columns this) (matrix this) ->
  g = bool_decide (0 <= p.1 < Z.of_nat (rows this))%Z
      && bool_decide (0 <= p.2 < Z.of_nat (columns this))%Z ->
  (g = true -> p = (Z.of_nat x', Z.of_nat y')) ->
  mine_flag this g x' y' = Returns (if mine_within this p then 1 else 0).
Proof.
  intros Hrect Hg Hp. unfold mine_flag, mine_within. rewrite <- Hg.
  destruct g; [|done]. rewrite (Hp eq_refl) in *. simpl in *.
  symmetry in Hg. apply andb_true_iff in Hg as [H1 H2].
  apply bool_decide_eq_true in H1, H2.
  destruct (rect_cell _ _ _ x' y' Hrect) as [s Hs]; [lia..|].
  rewrite (cell_is_Returns _ _ _ _ s Hs), !Nat2Z.id, Hs. simpl.
  f_equal.
  rewrite (bool_decide_ext (s = mine (types this))
             (Some s = Some (mine (types this)))); [done|].
  split; congruence.
Qed.

Lemma filter_length_cons {A} (f : A -> bool) a l :
  length (List.filter f (a :: l))
  = (if f a then 1 else 0) + length (List.filter f l).
Proof. simpl. by destruct (f a). Qed.

Lemma getNumberOfMines_spec this l x y s :
  rect (rows this) (columns this) (matrix this) ->
  cell_of (matrix this) x y = Some s ->
  getNumberOfMines x y (set_safeCells this l)
  = Returns (populated this x y s,
             set_safeCells this
               (l ++ safe_in_row (mine (types this)) x y [s])).
Proof.
  intros Hrect Hs. destruct (cell_of_lt _ _ _ _ _ _ Hrect Hs) as [Hx Hy].
  unfold getNumberOfMines, populated.
  rewrite (cell_is_Returns _ _ _ _ s) by done. simpl.
  case_bool_decide as Hmine; simpl.
  { by rewrite app_nil_r. }
  set (this' := set_safeCells (set_safeCells this l) _).
  assert (Hrect' : rect (rows this') (columns this') (matrix this')) by done.
  rewrite (mine_flag_within this' _ _ _ (Z.of_nat x - 1, Z.of_nat y - 1)%Z);
    [simpl|done|..].
  rewrite (mine_flag_within this' _ _ _ (Z.of_nat x - 1, Z.of_nat y)%Z);
    [simpl|done|..].
  rewrite (mine_flag_within this' _ _ _ (Z.of_nat x - 1, Z.of_nat y + 1)%Z);
    [simpl|done|..].
  rewrite (mine_flag_within this' _ _ _ (Z.of_nat x, Z.of_nat y - 1)%Z);
    [simpl|done|..].
  rewrite (mine_flag_within this' _ _ _ (Z.of_nat x, Z.of_nat y + 1)%Z);
    [simpl|done|..].
  rewrite (mine_flag_within this' _ _ _ (Z.of_nat x + 1, Z.of_nat y - 1)%Z);
    [simpl|done|..].
  rewrite (mine_flag_within this' _ _ _ (Z.of_nat x + 1, Z.of_nat y)%Z);
    [simpl|done|..].
  rewrite (mine_flag_within this' _ _ _ (Z.of_nat x + 1, Z.of_nat y + 1)%Z);
    [simpl|done|..].
  { do 2 f_equal. unfold number, spec_neighbour_mines, neighbours.
    rewrite !filter_length_cons. simpl.
    do 2 f_equal. unfold mine_within. simpl. lia. }
  all: simpl; try (intros Hg; f_equal;
    repeat (apply andb_true_iff in Hg as [Hg ?]);
    repeat match goal with
           | H : bool_decide _ = true |- _ => apply bool_decide_eq_true in H
           end; lia).
  all: apply eq_true_iff_eq;
    rewrite ?andb_true_iff, ?bool_decide_eq_true; lia.
Qed.

Lemma populate_row_spec this x row : forall y l,
  rect (rows this) (columns this) (matrix this) ->
  (forall j s, row !! j = Some s ->
               cell_of (matrix this) x (y + j) = Some s) ->
  populate_row x y row (set_safeCells this l)
  = Returns (imap (fun j s => populated this x (y + j) s) row,
             set_safeCells this
               (l ++ safe_in_row (mine (types this)) x y row)).
Proof.
  induction row as [|s row IH]; intros y l Hrect Hrow; simpl.
  { by rewrite app_nil_r. }
  rewrite (getNumberOfMines_spec this l x y s Hrect).
  2:{ rewrite <- (Nat.add_0_r y). by apply Hrow. }
  simpl. rewrite IH; [|done|].
  2:{ intros j s' Hj. rewrite Nat.add_succ_l, <- Nat.add_succ_r.
      by apply Hrow. }
  simpl. rewrite Nat.add_0_r, <- (assoc_L (++)), app_nil_r. do 3 f_equal.
  apply imap_ext. intros j s' _. simpl. f_equal. lia.
Qed.

Lemma populate_rows_spec this m : forall x l,
  rect (rows this) (columns this) (matrix this) ->
  (forall i row, m !! i = Some row -> matrix this !! (x + i) = Some row) ->
  populate_rows x m (set_safeCells this l)
  = Returns (imap (fun i row =>
                     imap (fun y s => populated this (x + i) y s) row) m,
             set_safeCells this
               (l ++ safe_in_rows (mine (types this)) x m)).
Proof.
  induction m as [|row m IH]; intros x l Hrect Hm; simpl.
  { by rewrite app_nil_r. }
  rewrite (populate_row_spec this x row 0 l Hrect).
  2:{ intros j s Hj. unfold cell_of.
      specialize (Hm 0 row eq_refl). rewrite Nat.add_0_r in Hm.
      by rewrite Hm. }
  simpl. rewrite IH; [|done|].
  2:{ intros i r Hi. rewrite Nat.add_succ_l, <- Nat.add_succ_r.
      by apply Hm. }
  simpl. rewrite Nat.add_0_r, <- (assoc_L (++)). do 3 f_equal.
  apply imap_ext. intros i r _. simpl. apply imap_ext. intros j s _.
  simpl. f_equal. lia.
Qed.

(** The object [populate] leaves behind. *)
Definition populated_board (this : Minesweeper) : Minesweeper :=
  set_matrix
    (set_safeCells this
       (safeCells this ++ safe_in_rows (mine (types this)) 0 (matrix this)))
    (populated_grid this).

Lemma populate_spec this :
  rect (rows this) (columns this) (matrix this) ->
  populate this = Returns (populated_board this).
Proof.
  intros Hrect. unfold populate.
  replace this with (set_safeCells this (safeCells this)) at 2
    by (by destruct this).
  rewrite (populate_rows_spec this (matrix this) 0 _ Hrect) by done.
  reflexivity.
Qed.

Lemma cell_of_populated_grid this x y :
  cell_of (populated_grid this) x y
  = populated this x y <$> cell_of (matrix this) x y.
Proof.
  unfold cell_of, populated_grid. rewrite list_lookup_imap.
  destruct (matrix this !! x) as [row|]; [|done]. simpl.
  by rewrite list_lookup_imap.
Qed.

Lemma rect_populated_grid R C this :
  rect R C (matrix this) -> rect R C (populated_grid this).
Proof.
  intros [Hlen Hrows]. unfold populated_grid. split.
  - by rewrite length_imap.
  - apply Forall_forall. intros r Hr.
    apply list_elem_of_lookup in Hr as [i Hi].
    rewrite list_lookup_imap in Hi.
    destruct (matrix this !! i) as [row|] eqn:Hrow; [|done].
    simpl in Hi. injection Hi as <-. rewrite length_imap.
    rewrite Forall_forall in Hrows. apply Hrows.
    eapply list_elem_of_lookup_2, Hrow.
Qed.

Lemma elem_of_safe_in_row mine x row : forall y c,
  c ∈ safe_in_row mine x y row <->
  cell_x c = x /\
  exists j s, cell_y c = y + j /\ row !! j = Some s /\ s <> mine.
Proof.
  induction row as [|s row IH]; intros y c; simpl.
  { split; [by intros ?%elem_of_nil|by intros (_ & j & s & _ & ? & _)]. }
  rewrite elem_of_app, IH. split.
  - intros [H|(Hx & j & s' & Hy & Hj & Hs)].
    + case_bool_decide; [by apply elem_of_nil in H|].
      apply list_elem_of_singleton in H as ->. simpl.
      split; [done|]. exists 0, s. by rewrite Nat.add_0_r.
    + split; [done|]. exists (S j), s'. split; [lia|done].
  - intros (Hx & [|j] & s' & Hy & Hj & Hs).
    + left. simpl in Hj. injection Hj as ->.
      rewrite bool_decide_eq_false_2 by done.
      apply list_elem_of_singleton. destruct c; simpl in *.
      f_equal; lia.
    + right. split; [done|]. exists j, s'. split; [lia|done].
Qed.

Lemma elem_of_safe_in_rows mine m : forall x c,
  c ∈ safe_in_rows mine x m <->
  exists i s, cell_x c = x + i /\ cell_of m i (cell_y c) = Some s
              /\ s <> mine.
Proof.
  induction m as [|row m IH]; intros x c; simpl.
  { split; [by intros ?%elem_of_nil|]. by intros (i & s & _ & ? & _). }
  rewrite elem_of_app, IH, elem_of_safe_in_row. split.
  - intros [(Hx & j & s & Hy & Hj & Hs)|(i & s & Hx & Hc & Hs)].
    + exists 0, s. rewrite Nat.add_0_r. split; [done|].
      split; [|done]. unfold cell_of. simpl. by rewrite Hy.
    + exists (S i), s. split; [lia|done].
  - intros ([|i] & s & Hx & Hc & Hs).
    + left. split; [lia|]. exists (cell_y c), s. done.
    + right. exists i, s. split; [lia|done].
Qed.

Lemma elem_of_safe_cells mine m c :
  c ∈ safe_in_rows mine 0 m <->
  exists s, cell_of m (cell_x c) (cell_y c) = Some s /\ s <> mine.
Proof.
  rewrite elem_of_safe_in_rows. split.
  - intros (i & s & Hx & Hc & Hs). exists s. simpl in Hx. by rewrite Hx.
  - intros (s & Hc & Hs). by exists (cell_x c), s.
Qed.

(** ** Reasoning about outcomes *)

(** The call neither throws nor leaves the model, and what it returns
    satisfies [P]; running out of fuel says nothing. *)
Definition outcome_sat {A} (P : A -> Prop) (o : outcome A) : Prop :=
  match o with
  | Returns a => P a
  | OutOfFuel => True
  | Throws | Sparse => False
  end.

Lemma outcome_sat_bind {A B} (Q : A -> Prop) (P : B -> Prop) c k :
  outcome_sat Q c ->
  (forall a, Q a -> outcome_sat P (k a)) ->
  outcome_sat P (bind c k).
Proof. destruct c; simpl; auto. Qed.

Lemma outcome_sat_mono {A} (P Q : A -> Prop) o :
  outcome_sat P o -> (forall a, P a -> Q a) -> outcome_sat Q o.
Proof. destruct o; simpl; auto. Qed.

Lemma foldM_sat {A S} (f : S -> A -> outcome S) (I : S -> Prop)
    (P : A -> Prop) l s :
  Forall P l -> I s ->
  (forall s a, P a -> I s -> outcome_sat I (f s a)) ->
  outcome_sat I (foldM f s l).
Proof.
  intros Hl Hs Hstep. revert s Hs.
  induction Hl as [|a l Ha _ IH]; intros s Hs; simpl; [done|].
  eapply outcome_sat_bind; [by apply Hstep|]. auto.
Qed.

Lemma foldM_Returns {A S} (f : S -> A -> outcome S) (I : S -> Prop)
    (P : A -> Prop) l s :
  Forall P l -> I s ->
  (forall s a, P a -> I s -> exists s', f s a = Returns s' /\ I s') ->
  exists s', foldM f s l = Returns s' /\ I s'.
Proof.
  intros Hl Hs Hstep. revert s Hs.
  induction Hl as [|a l Ha _ IH]; intros s Hs; simpl; [by exists s|].
  destruct (Hstep s a Ha Hs) as (s' & -> & Hs'). simpl. auto.
Qed.

(** ** Counting over a grid *)

(** The sum of [w] over the cells. *)
Definition weight (w : string -> nat) (m : list (list string)) : nat :=
  sum_list_with w (concat m).

(** The number of cells that satisfy [p]. *)
Definition count_cells (p : string -> bool) (m : list (list string))
  : nat :=
  weight (fun s => if p s then 1 else 0) m.

Lemma weight_insert_row w m x row row' :
  m !! x = Some row ->
  weight w (<[x := row']> m) + sum_list_with w row
  = weight w m + sum_list_with w row'.
Proof.
  intros Hrow. unfold weight.
  rewrite insert_take_drop by (eapply lookup_lt_Some, Hrow).
  rewrite <- (take_drop_middle m x row Hrow) at 3.
  rewrite !concat_app. simpl. rewrite !sum_list_with_app. lia.
Qed.

Lemma sum_list_with_insert w (row : list string) y s s0 :
  row !! y = Some s0 ->
  sum_list_with w (<[y := s]> row) + w s0 = sum_list_with w row + w s.
Proof.
  intros Hs. rewrite insert_take_drop by (eapply lookup_lt_Some, Hs).
  rewrite <- (take_drop_middle row y s0 Hs) at 3.
  rewrite !sum_list_with_app. simpl. lia.
Qed.

Lemma weight_grid_set w m x y s s0 :
  cell_of m x y = Some s0 ->
  weight w (grid_set m x y s) + w s0 = weight w m + w s.
Proof.
  unfold cell_of, grid_set. destruct (m !! x) as [row|] eqn:Hrow; [|done].
  intros Hs.
  pose proof (weight_insert_row w m x row (<[y := s]> row) Hrow).
  pose proof (sum_list_with_insert w row y s s0 Hs). lia.
Qed.

Lemma weight_pointwise w1 w2 m1 m2 :
  Forall2 (Forall2 (fun s1 s2 => w1 s1 = w2 s2)) m1 m2 ->
  weight w1 m1 = weight w2 m2.
Proof.
  unfold weight. induction 1 as [|r1 r2 m1 m2 Hr _ IH]; [done|].
  simpl. rewrite !sum_list_with_app, IH. f_equal.
  induction Hr as [|s1 s2 r1 r2 Hs _ IHr]; [done|]. simpl. lia.
Qed.

Lemma grids_pointwise R C (P : string -> string -> Prop) m1 m2 :
  rect R C m1 -> rect R C m2 ->
  (forall x y s1 s2,
      cell_of m1 x y = Some s1 -> cell_of m2 x y = Some s2 -> P s1 s2) ->
  Forall2 (Forall2 P) m1 m2.
Proof.
  intros [Hl1 Hr1] [Hl2 Hr2] H.
  apply Forall2_same_length_lookup. split; [lia|].
  intros x r1 r2 Hx1 Hx2.
  rewrite Forall_forall in Hr1, Hr2.
  apply Forall2_same_length_lookup. split.
  { rewrite (Hr1 r1), (Hr2 r2); eauto using list_elem_of_lookup_2. }
  intros y s1 s2 Hy1 Hy2. apply (H x y); unfold cell_of.
  - by rewrite Hx1.
  - by rewrite Hx2.
Qed.

Lemma weight_const R C m : rect R C m -> weight (fun _ => 1) m = R * C.
Proof.
  intros [<- Hrows]. unfold weight.
  induction Hrows as [|row m Hrow _ IH]; [done|].
  simpl. rewrite sum_list_with_app, IH. f_equal.
  rewrite <- Hrow. clear. induction row; simpl; lia.
Qed.

Lemma weight_plus w1 w2 m :
  weight (fun s => w1 s + w2 s) m = weight w1 m + weight w2 m.
Proof.
  unfold weight. induction (concat m) as [|s l IH]; simpl; lia.
Qed.

Lemma weight_ext w1 w2 m :
  (forall x y s, cell_of m x y = Some s -> w1 s = w2 s) ->
  weight w1 m = weight w2 m.
Proof.
  intros H. apply weight_pointwise.
  apply Forall2_same_length_lookup. split; [done|].
  intros x r1 r2 Hx1 Hx2. assert (r2 = r1) as -> by congruence.
  apply Forall2_same_length_lookup. split; [done|].
  intros y s1 s2 Hy1 Hy2. assert (s2 = s1) as -> by congruence.
  apply (H x y). unfold cell_of. by rewrite Hx1.
Qed.

(** A cell below the total exists when not every cell counts. *)
Lemma count_cells_lt_exists R C p m :
  rect R C m -> count_cells p m < R * C ->
  exists x y s, cell_of m x y = Some s /\ p s = false.
Proof.
  intros Hrect Hlt.
  destruct (decide (Forall (Forall (fun s => p s = true)) m)) as [Hall|Hex].
  - exfalso. rewrite <- (weight_const R C m Hrect) in Hlt.
    unfold count_cells in Hlt.
    rewrite (weight_ext _ (fun _ => 1) m) in Hlt; [lia|].
    intros x y s Hs. unfold cell_of in Hs.
    destruct (m !! x) as [row|] eqn:Hrow; [|done].
    rewrite Forall_forall in Hall.
    specialize (Hall row (list_elem_of_lookup_2 _ _ _ Hrow)).
    rewrite Forall_forall in Hall.
    by rewrite (Hall s (list_elem_of_lookup_2 _ _ _ Hs)).
  - apply not_Forall_Exists in Hex; [|apply _].
    apply Exists_exists in Hex as (row & Hrow & Hex).
    apply not_Forall_Exists in Hex; [|apply _].
    apply Exists_exists in Hex as (s & Hs & Hp).
    apply list_elem_of_lookup in Hrow as [x Hx].
    apply list_elem_of_lookup in Hs as [y Hy].
    exists x, y, s. unfold cell_of. rewrite Hx. split; [done|].
    by apply not_true_is_false.
Qed.

(** ** Objects that differ in their grid only *)

Definition same_config (this this' : Minesweeper) : Prop :=
  this' = set_matrix this (matrix this').

Lemma same_config_refl this : same_config this this.
Proof. by destruct this. Qed.

Lemma same_config_trans a b c :
  same_config a b -> same_config b c -> same_config a c.
Proof. unfold same_config. intros -> ->. done. Qed.

Lemma same_config_set_matrix this m : same_config this (set_matrix this m).
Proof. done. Qed.

Lemma same_config_fields a b :
  same_config a b ->
  rows b = rows a /\ columns b = columns a /\ mines b = mines a
  /\ types b = types a /\ safeCells b = safeCells a
  /\ spaces b = spaces a /\ returnType b = returnType a
  /\ revealFirstCell b = revealFirstCell a
  /\ zeroFirstCell b = zeroFirstCell a /\ emote b = emote a.
Proof. by intros ->. Qed.

Lemma same_config_number a b k :
  same_config a b -> number b k = number a k.
Proof. by intros ->. Qed.

(** ** Flood fill: termination *)

Lemma prefix_length a : forall s,
  String.prefix a s = true -> String.length a <= String.length s.
Proof.
  induction a as [|c a IH]; intros [|d s]; simpl; try done; try lia.
  destruct (Ascii.ascii_dec c d); [|done]. intros H%IH. lia.
Qed.

Lemma includes_length a s :
  includes a s = true -> String.length a <= String.length s.
Proof.
  induction s as [|d s IH]; cbn [includes].
  - rewrite orb_false_r. apply prefix_length.
  - intros [H%prefix_length|H%IH]%orb_true_iff; simpl in *; lia.
Qed.

Lemma substring_length_le s : forall n k,
  String.length (String.substring n k s) <= k.
Proof.
  induction s as [|c s IH]; intros [|n] [|k]; simpl; try lia.
  - specialize (IH 0 k). lia.
  - apply IH.
  - apply IH.
Qed.

Lemma slice_shorter s :
  includes "||" s = true ->
  String.length (slice_2_m2 s) < String.length s.
Proof.
  intros H%includes_length. simpl in H. unfold slice_2_m2.
  pose proof (substring_length_le s 2 (String.length s - 4)). lia.
Qed.

(** The characters left on the board. *)
Definition ink (m : list (list string)) : nat := weight String.length m.

Lemma elem_of_surroundings this c i j :
  In (i, j) (surroundings this c) <->
  cell_x c - 1 <= i /\ i < rows this `min` (cell_x c + 2) /\
  cell_y c - 1 <= j /\ j < columns this `min` (cell_y c + 2).
Proof. unfold surroundings. rewrite in_prod_iff, !in_seq. lia. Qed.

Lemma reveal_cell_spec this zs i j s :
  cell_of (matrix this) i j = Some s ->
  reveal_cell (this, zs) (i, j)
  = Returns
      (if includes "||" s
       then (set_matrix this (grid_set (matrix this) i j (slice_2_m2 s)),
             if bool_decide (s = number this 0)
             then zs ++ [{| cell_x := i; cell_y := j |}] else zs)
       else (this, zs)).
Proof.
  intros H. unfold reveal_cell. rewrite (cell_Returns _ _ _ _ H). simpl.
  destruct (includes "||" s); [|done].
  by rewrite (assign_Returns _ _ _ _ _ H).
Qed.

Lemma reveal_block_Returns this c :
  rect (rows this) (columns this) (matrix this) ->
  exists this1 zs,
    foldM reveal_cell (this, []) (surroundings this c)
    = Returns (this1, zs)
    /\ same_config this this1
    /\ rect (rows this) (columns this) (matrix this1)
    /\ ink (matrix this1) + length zs <= ink (matrix this).
Proof.
  intros Hrect.
  destruct (foldM_Returns reveal_cell
    (fun st => same_config this st.1
               /\ rect (rows this) (columns this) (matrix st.1)
               /\ ink (matrix st.1) + length st.2 <= ink (matrix this))
    (fun ij => ij.1 < rows this /\ ij.2 < columns this)
    (surroundings this c) (this, [])) as ([this1 zs] & Hrun & Hinv).
  - apply List.Forall_forall. intros [i j] Hij%elem_of_surroundings.
    simpl. lia.
  - simpl. split; [apply same_config_refl|]. split; [done|lia].
  - intros [th zs] [i j] [Hi Hj] (Hcfg & Hr & Hink).
    simpl in Hi, Hj, Hcfg, Hr, Hink.
    destruct (rect_cell _ _ _ i j Hr Hi Hj) as [s Hs].
    rewrite (reveal_cell_spec _ _ _ _ _ Hs).
    destruct (includes "||" s) eqn:Hmask; [|eauto].
    eexists. split; [done|]. simpl.
    split; [by eapply same_config_trans|].
    split; [by apply rect_grid_set|].
    pose proof (weight_grid_set String.length _ _ _ (slice_2_m2 s) _ Hs).
    pose proof (slice_shorter s Hmask). unfold ink in *.
    case_bool_decide; rewrite ?length_app; simpl; lia.
  - by exists this1, zs.
Qed.

Lemma revealSurroundings_Returns fuel : forall c recurse this,
  rect (rows this) (columns this) (matrix this) ->
  ink (matrix this) < fuel ->
  exists this',
    revealSurroundings fuel c recurse this = Returns this'
    /\ same_config this this'
    /\ rect (rows this) (columns this) (matrix this')
    /\ ink (matrix this') <= ink (matrix this).
Proof.
  induction fuel as [|fuel IH]; intros c recurse this Hrect Hink; [lia|].
  simpl.
  destruct (reveal_block_Returns this c Hrect)
    as (this1 & zs & -> & Hcfg1 & Hrect1 & Hink1).
  simpl. destruct recurse; [|exists this1; split_and!; [done..|lia]].
  assert (Hfold : forall zs th,
    same_config this th ->
    rect (rows this) (columns this) (matrix th) ->
    (zs <> [] -> ink (matrix th) < fuel) ->
    exists th',
      foldM (fun th c => revealSurroundings fuel c true th) th zs
      = Returns th'
      /\ same_config this th'
      /\ rect (rows this) (columns this) (matrix th')
      /\ ink (matrix th') <= ink (matrix th)).
  { clear zs Hink1. induction zs as [|z zs IHzs]; intros th Hcfg Hr Hlt.
    { exists th. simpl. split_and!; done. }
    simpl.
    destruct (same_config_fields _ _ Hcfg) as (HR & HC & _).
    destruct (IH z true th) as (th1 & -> & Hcfg' & Hr' & Hink');
      [by rewrite HR, HC|by apply Hlt|].
    rewrite HR, HC in Hr'. simpl.
    destruct (IHzs th1) as (th' & -> & ? & ? & ?);
      [by eapply same_config_trans|done| |].
    { intros _. specialize (Hlt ltac:(done)). lia. }
    exists th'. split_and!; [done..|lia]. }
  destruct (Hfold zs this1 Hcfg1 Hrect1) as (th' & -> & ? & ? & ?).
  { intros Hne. destruct zs; [done|]. simpl in Hink1. lia. }
  exists th'. split_and!; [done..|lia].
Qed.

(** ** Initial reveal *)

Lemma filterM_cell_is this z l :
  Forall (fun c => is_Some (cell_of (matrix this) (cell_x c) (cell_y c))) l ->
  filterM (fun c => cell_is this (cell_x c) (cell_y c) z) l
  = Returns
      (filter (fun c => cell_of (matrix this) (cell_x c) (cell_y c) = Some z)
              l).
Proof.
  induction 1 as [|c l [s Hs] _ IH]; simpl; [done|].
  rewrite (cell_is_Returns _ _ _ _ s Hs), IH. simpl.
  rewrite filter_cons, Hs.
  case_bool_decide; case_decide; (done || congruence).
Qed.

Lemma floor_scaled_lt r n : num r < den r -> 0 < n -> floor_scaled r n < n.
Proof.
  intros Hr Hn. unfold floor_scaled.
  apply Nat.Div0.div_lt_upper_bound. nia.
Qed.

Lemma pick_Returns {A} rng k (l : list A) :
  unit_source rng -> 0 < length l ->
  exists v, pick rng k l = Returns v /\ v ∈ l.
Proof.
  intros Hunit Hlen. unfold pick.
  destruct (lookup_lt_is_Some_2 l (floor_scaled (rng k) (length l)))
    as [v Hv]; [by apply floor_scaled_lt|].
  rewrite Hv. exists v. split; [done|]. eapply list_elem_of_lookup_2, Hv.
Qed.

(** ** Flood fill: what it unmasks *)

Lemma filter_length_0 {A} (f : A -> bool) l :
  length (List.filter f l) = 0 -> forall a, In a l -> f a = false.
Proof.
  induction l as [|a' l IH]; simpl; [done|].
  destruct (f a') eqn:Hf; simpl; [done|].
  intros H a [<-|Ha]; auto.
Qed.

Section FloodFill.
(** The board when [populate] ran: its mine cells are the mine layout. *)
Variable b : Minesweeper.
Hypothesis b_rect : rect (rows b) (columns b) (matrix b).
Hypothesis b_types : types_ok (types b).

(** A cell of the layout that is no mine. *)
Definition safe_at (x y : nat) : Prop :=
  exists s, cell_of (matrix b) x y = Some s /\ s <> mine (types b).

(** The symbol [populate] writes into the safe cell [(x, y)]. *)
Definition count_symbol (x y : nat) : string :=
  number b (spec_neighbour_mines b x y).

(** A safe cell with no mine around it. *)
Definition zero_cell (c : SafeCell) : Prop :=
  safe_at (cell_x c) (cell_y c)
  /\ spec_neighbour_mines b (cell_x c) (cell_y c) = 0.

(** [(i, j)] lies in the 3x3 neighbourhood centred on [c]. *)
Definition near (c : SafeCell) (i j : nat) : Prop :=
  i <= cell_x c + 1 /\ cell_x c <= i + 1
  /\ j <= cell_y c + 1 /\ cell_y c <= j + 1.

(** [chain c z]: from [c], a sequence of zero cells, each in the
    neighbourhood of the one before, leads to [z]. *)
Inductive chain : SafeCell -> SafeCell -> Prop :=
| chain_seed c : chain c c
| chain_next c z z' :
    near c (cell_x z) (cell_y z) -> zero_cell z -> chain z z' ->
    chain c z'.

(** From [this] to [this'] nothing but the grid changes, the grid keeps
    its shape, and a cell either stays as it is or is a safe cell
    within [Q] that held its masked count symbol and now holds it
    unmasked. *)
Definition unmasking (Q : nat -> nat -> Prop)
    (this this' : Minesweeper) : Prop :=
  same_config this this'
  /\ (forall R C, rect R C (matrix this) -> rect R C (matrix this'))
  /\ forall x y,
      cell_of (matrix this') x y = cell_of (matrix this) x y
      \/ (Q x y /\ safe_at x y
          /\ cell_of (matrix this) x y = Some (count_symbol x y)
          /\ cell_of (matrix this') x y
             = Some (slice_2_m2 (count_symbol x y))).

(** A board reached from the populated board by unmasking safe cells. *)
Definition partly_revealed (this : Minesweeper) : Prop :=
  unmasking (fun _ _ => True) (populated_board b) this.

Lemma unmasking_refl Q this : unmasking Q this this.
Proof. split; [apply same_config_refl|]. split; [done|]. by left. Qed.

Lemma unmasking_mono (Q Q' : nat -> nat -> Prop) this this' :
  (forall x y, Q x y -> Q' x y) ->
  unmasking Q this this' -> unmasking Q' this this'.
Proof.
  intros HQ (Hcfg & Hshape & H). split; [done|]. split; [done|].
  intros x y.
  destruct (H x y) as [?|(? & ? & ? & ?)]; [by left|right]. auto.
Qed.

Lemma count_symbol_masked x y : includes "||" (count_symbol x y) = true.
Proof.
  apply number_masked; [done|].
  pose proof (spec_neighbour_mines_le b x y). lia.
Qed.

Lemma count_symbol_revealed x y :
  includes "||" (slice_2_m2 (count_symbol x y)) = false.
Proof.
  apply number_revealed; [done|].
  pose proof (spec_neighbour_mines_le b x y). lia.
Qed.

Lemma unmasking_trans Q a c d :
  unmasking Q a c -> unmasking Q c d -> unmasking Q a d.
Proof.
  intros (Hcfg1 & Hs1 & H1) (Hcfg2 & Hs2 & H2).
  split; [by eapply same_config_trans|]. split; [by auto|]. intros x y.
  destruct (H2 x y) as [E2|(HQ & Hsafe & Hc & Hd)].
  - rewrite E2. apply H1.
  - destruct (H1 x y) as [E1|(_ & _ & _ & Hc')].
    + right. by rewrite <- E1.
    + exfalso. rewrite Hc in Hc'. injection Hc' as Hc'.
      pose proof (count_symbol_masked x y) as Hm.
      rewrite Hc', count_symbol_revealed in Hm. done.
Qed.

Lemma cell_of_populated_board x y :
  cell_of (matrix (populated_board b)) x y
  = populated b x y <$> cell_of (matrix b) x y.
Proof. apply cell_of_populated_grid. Qed.

(** A safe cell of a partly revealed board holds its count symbol,
    masked or not. *)
Lemma partly_revealed_safe this x y :
  partly_revealed this -> safe_at x y ->
  cell_of (matrix this) x y = Some (count_symbol x y)
  \/ cell_of (matrix this) x y = Some (slice_2_m2 (count_symbol x y)).
Proof.
  intros (_ & _ & H) (s & Hs & Hmine).
  destruct (H x y) as [E|(_ & _ & _ & E)]; [left|by right].
  rewrite E, cell_of_populated_board, Hs. simpl. unfold populated.
  by rewrite bool_decide_eq_false_2.
Qed.

(** A mine of the layout is still there, masked. *)
Lemma partly_revealed_mine this x y :
  partly_revealed this ->
  cell_of (matrix b) x y = Some (mine (types b)) ->
  cell_of (matrix this) x y = Some (mine (types b)).
Proof.
  intros (_ & _ & H) Hs.
  destruct (H x y) as [E|(_ & (s & Hs' & Hne) & _)]; [|congruence].
  rewrite E, cell_of_populated_board, Hs. simpl. unfold populated.
  by rewrite bool_decide_eq_true_2.
Qed.

Lemma partly_revealed_config this :
  partly_revealed this ->
  rows this = rows b /\ columns this = columns b
  /\ types this = types b /\ forall k, number this k = number b k.
Proof.
  intros (Hcfg & _).
  destruct (same_config_fields _ _ Hcfg) as (-> & -> & _ & -> & _).
  split_and!; try done. intros k.
  by rewrite (same_config_number _ _ k Hcfg).
Qed.

(** Around a zero cell every cell of the board is safe. *)
Lemma zero_cell_surroundings c i j :
  zero_cell c -> near c i j -> i < rows b -> j < columns b ->
  safe_at i j.
Proof.
  intros [Hsafe Hzero] (H1 & H2 & H3 & H4) Hi Hj.
  destruct (decide (i = cell_x c /\ j = cell_y c)) as [[-> ->]|Hne];
    [done|].
  destruct (rect_cell _ _ _ i j b_rect Hi Hj) as [s Hs].
  exists s. split; [done|]. intros ->.
  pose proof (filter_length_0 _ _ Hzero (Z.of_nat i, Z.of_nat j)) as Hf.
  unfold mine_within in Hf. simpl in Hf. rewrite !Nat2Z.id, Hs in Hf.
  rewrite !bool_decide_eq_true_2 in Hf by (done || lia).
  assert (true = false); [|done]. apply Hf.
  assert (Z.of_nat i = Z.of_nat (cell_x c) - 1
          \/ Z.of_nat i = Z.of_nat (cell_x c)
          \/ Z.of_nat i = Z.of_nat (cell_x c) + 1)%Z
    as Hi' by lia.
  assert (Z.of_nat j = Z.of_nat (cell_y c) - 1
          \/ Z.of_nat j = Z.of_nat (cell_y c)
          \/ Z.of_nat j = Z.of_nat (cell_y c) + 1)%Z
    as Hj' by lia.
  unfold neighbours.
  destruct Hi' as [Hi'|[Hi'|Hi']]; destruct Hj' as [Hj'|[Hj'|Hj']];
    try (exfalso; apply Hne; lia);
    rewrite Hi', Hj'; simpl; tauto.
Qed.

(** One step of the inner loop around a zero cell. *)
Lemma reveal_cell_zero this zs c i j :
  partly_revealed this -> zero_cell c ->
  Forall (fun z => zero_cell z /\ near c (cell_x z) (cell_y z)) zs ->
  In (i, j) (surroundings this c) ->
  exists this' zs',
    reveal_cell (this, zs) (i, j) = Returns (this', zs')
    /\ unmasking (near c) this this'
    /\ Forall (fun z => zero_cell z /\ near c (cell_x z) (cell_y z)) zs'.
Proof.
  intros Hpr Hzero Hzs Hij.
  destruct (partly_revealed_config _ Hpr) as (HR & HC & _ & Hnum).
  apply elem_of_surroundings in Hij. rewrite HR, HC in Hij.
  assert (Hnear : near c i j) by (unfold near; lia).
  assert (Hsafe : safe_at i j)
    by (apply (zero_cell_surroundings c); [done..|lia|lia]).
  destruct (partly_revealed_safe _ _ _ Hpr Hsafe) as [Hc|Hc];
    rewrite (reveal_cell_spec _ _ _ _ _ Hc).
  - rewrite count_symbol_masked. eexists _, _. split; [done|]. split.
    + split; [done|]. split; [by intros; apply rect_grid_set|].
      intros x y. simpl.
      destruct (decide ((x, y) = (i, j))) as [[= -> ->]|Hne].
      * right. split_and!; try done.
        by apply (cell_of_grid_set_eq _ _ _ _ _ Hc).
      * left. by apply cell_of_grid_set_ne.
    + case_bool_decide as Hz; [|done].
      apply Forall_app. split; [done|]. apply Forall_singleton.
      split; [|done]. split; [done|]. simpl.
      rewrite Hnum in Hz. unfold count_symbol in Hz.
      eapply number_inj; [done| |lia|done].
      pose proof (spec_neighbour_mines_le b i j). lia.
  - rewrite count_symbol_revealed. eexists _, _. split; [done|].
    split; [apply unmasking_refl|done].
Qed.

(** The two nested loops around a zero cell. *)
Lemma reveal_block_zero this c :
  partly_revealed this -> zero_cell c ->
  exists this1 zs,
    foldM reveal_cell (this, []) (surroundings this c)
    = Returns (this1, zs)
    /\ unmasking (near c) this this1
    /\ Forall (fun z => zero_cell z /\ near c (cell_x z) (cell_y z)) zs.
Proof.
  intros Hpr Hzero.
  destruct (foldM_Returns reveal_cell
    (fun st => unmasking (near c) this st.1
               /\ Forall (fun z => zero_cell z
                                   /\ near c (cell_x z) (cell_y z)) st.2)
    (fun ij => In ij (surroundings this c))
    (surroundings this c) (this, [])) as ([this1 zs] & Hrun & Hinv).
  - by apply List.Forall_forall.
  - split; [apply unmasking_refl|done].
  - intros [th zs] [i j] Hij [Hun Hzs]. simpl in Hun, Hzs.
    assert (Hpr' : partly_revealed th).
    { eapply unmasking_trans; [done|].
      eapply unmasking_mono; [|done]. done. }
    destruct (reveal_cell_zero th zs c i j) as (th' & zs' & E & Hun' & ?);
      [done..| |].
    { destruct Hun as (Hcfg & _).
      destruct (same_config_fields _ _ Hcfg) as (HR & HC & _).
      apply elem_of_surroundings. apply elem_of_surroundings in Hij.
      by rewrite HR, HC. }
    exists (th', zs'). split; [done|]. simpl.
    split; [by eapply unmasking_trans|done].
  - by exists this1, zs.
Qed.

(** The recursive flood fill from a zero cell, whatever the fuel: it
    does not throw, and it only unmasks safe cells in the neighbourhood
    of a zero cell chained to the seed. *)
Lemma flood_fill_unmasks fuel : forall c this,
  partly_revealed this -> zero_cell c ->
  outcome_sat
    (unmasking (fun x y => exists z, chain c z /\ near z x y) this)
    (revealSurroundings fuel c true this).
Proof.
  induction fuel as [|fuel IH]; intros c this Hpr Hzero; [done|].
  simpl.
  destruct (reveal_block_zero this c Hpr Hzero)
    as (this1 & zs & -> & Hun1 & Hzs).
  simpl.
  set (Qc := fun x y => exists z, chain c z /\ near z x y).
  assert (Hun1' : unmasking Qc this this1).
  { eapply unmasking_mono; [|done]. intros x y Hxy.
    exists c. split; [constructor|done]. }
  eapply outcome_sat_mono.
  - apply (foldM_sat _ (fun th => unmasking Qc this th)
             (fun z => zero_cell z /\ near c (cell_x z) (cell_y z)));
      [done|done|].
    intros th z [Hz Hnear] Hth.
    assert (Hpr' : partly_revealed th).
    { eapply unmasking_trans; [done|].
      eapply unmasking_mono; [|done]. done. }
    eapply outcome_sat_mono; [by apply IH|].
    intros th' Hth'. simpl in Hth'.
    eapply unmasking_trans; [done|].
    eapply unmasking_mono; [|done].
    intros x y (z' & Hchain & Hxy). exists z'. split; [|done].
    by eapply chain_next.
  - done.
Qed.
(** *** The first reveal on the populated board *)

Lemma partly_revealed_populated : partly_revealed (populated_board b).
Proof. apply unmasking_refl. Qed.

Lemma partly_revealed_rect this :
  partly_revealed this -> rect (rows b) (columns b) (matrix this).
Proof.
  intros (_ & Hshape & _). apply Hshape. by apply rect_populated_grid.
Qed.

(** The registry of a board populated with an empty registry holds the
    safe cells. *)
Lemma registry_safe c :
  safeCells b = [] ->
  c ∈ safeCells (populated_board b) <-> safe_at (cell_x c) (cell_y c).
Proof. intros Hnil. simpl. rewrite Hnil. apply elem_of_safe_cells. Qed.

Lemma populated_safe x y :
  safe_at x y ->
  cell_of (matrix (populated_board b)) x y = Some (count_symbol x y).
Proof.
  intros (s & Hs & Hmine).
  rewrite cell_of_populated_board, Hs. simpl. unfold populated.
  by rewrite bool_decide_eq_false_2.
Qed.

(** A safe cell shows the zero symbol exactly when it is a zero cell. *)
Lemma populated_zero c :
  safe_at (cell_x c) (cell_y c) ->
  cell_of (matrix (populated_board b)) (cell_x c) (cell_y c)
  = Some (number (populated_board b) 0)
  <-> zero_cell c.
Proof.
  intros Hsafe. rewrite (populated_safe _ _ Hsafe).
  change (number (populated_board b) 0) with (number b 0).
  unfold zero_cell, count_symbol. split.
  - intros [= H]. split; [done|].
    eapply number_inj; [done| |lia|done].
    pose proof (spec_neighbour_mines_le b (cell_x c) (cell_y c)). lia.
  - intros [_ ->]. done.
Qed.

(** The populated board with the one cell [c] unmasked. *)
Definition unmask_one (c : SafeCell) : Minesweeper :=
  set_matrix (populated_board b)
    (grid_set (matrix (populated_board b)) (cell_x c) (cell_y c)
       (slice_2_m2 (count_symbol (cell_x c) (cell_y c)))).

Lemma unmask_one_unmasking c :
  safe_at (cell_x c) (cell_y c) ->
  unmasking (fun x y => x = cell_x c /\ y = cell_y c)
    (populated_board b) (unmask_one c).
Proof.
  intros Hsafe. split; [done|].
  split; [by intros; apply rect_grid_set|]. intros x y.
  unfold unmask_one.
  destruct (decide ((x, y) = (cell_x c, cell_y c))) as [[= -> ->]|Hne].
  - right. split_and!; try done; [by apply populated_safe|].
    eapply cell_of_grid_set_eq. by apply populated_safe.
  - left. by apply cell_of_grid_set_ne.
Qed.

Lemma unmask_one_partly c :
  safe_at (cell_x c) (cell_y c) -> partly_revealed (unmask_one c).
Proof.
  intros Hsafe. eapply unmasking_mono; [|by apply unmask_one_unmasking].
  done.
Qed.

(** The three ways [revealFirst] runs on the populated board. *)
Lemma revealFirst_cases fuel rng k :
  safeCells b = [] -> unit_source rng ->
  (exists x y, safe_at x y) ->
  (revealFirstCell b = false
   /\ revealFirst fuel rng (populated_board b) k
      = Returns ((-1, -1)%Z, populated_board b, k))
  \/ (revealFirstCell b = true
      /\ (zeroFirstCell b = false \/ forall c, ~ zero_cell c)
      /\ exists c, c ∈ safeCells (populated_board b)
         /\ revealFirst fuel rng (populated_board b) k
            = Returns ((Z.of_nat (cell_x c), Z.of_nat (cell_y c)),
                       unmask_one c, S k))
  \/ (revealFirstCell b = true /\ zeroFirstCell b = true
      /\ exists c, c ∈ safeCells (populated_board b) /\ zero_cell c
         /\ revealFirst fuel rng (populated_board b) k
            = let* this := revealSurroundings fuel c true (unmask_one c)
              in Returns ((Z.of_nat (cell_x c), Z.of_nat (cell_y c)),
                          this, S k)).
Proof.
  intros Hnil Hunit (x0 & y0 & Hsafe0). unfold revealFirst.
  change (revealFirstCell (populated_board b)) with (revealFirstCell b).
  change (zeroFirstCell (populated_board b)) with (zeroFirstCell b).
  destruct (revealFirstCell b); [|by left]. right. simpl negb. cbv iota.
  rewrite filterM_cell_is.
  2:{ apply Forall_forall. intros c Hc%registry_safe; [|done].
      rewrite (populated_safe _ _ Hc). eauto. }
  cbn [bind].
  set (zeroCells := filter _ (safeCells (populated_board b))).
  assert (Hzero : forall c, c ∈ zeroCells <->
                            c ∈ safeCells (populated_board b)
                            /\ zero_cell c).
  { intros c. unfold zeroCells. rewrite list_elem_of_filter. split.
    - intros [Hz Hc]. split; [done|]. apply populated_zero; [|done].
      by apply registry_safe.
    - intros [Hc Hz]. split; [|done]. apply populated_zero; [|done].
      by apply registry_safe. }
  destruct (zeroFirstCell b && bool_decide (0 < length zeroCells))
    eqn:Hbranch.
  - right. apply andb_true_iff in Hbranch as [-> Hlen].
    apply bool_decide_eq_true in Hlen.
    destruct (pick_Returns rng k zeroCells Hunit Hlen) as (c & -> & Hc).
    apply Hzero in Hc as [Hc Hz]. split_and!; try done.
    exists c. split_and!; try done. cbn [bind].
    rewrite (cell_Returns _ _ _ _ (populated_safe _ _ (proj1 Hz))).
    cbn [bind].
    by rewrite (assign_Returns _ _ _ _ _ (populated_safe _ _ (proj1 Hz))).
  - left. split; [done|]. split.
    { apply andb_false_iff in Hbranch as [?|Hlen]; [by left|right].
      apply bool_decide_eq_false in Hlen. intros c Hz.
      assert (c ∈ zeroCells) as Hc.
      { apply Hzero. split; [|done]. apply registry_safe; [done|].
        apply Hz. }
      destruct zeroCells; [by apply elem_of_nil in Hc|simpl in Hlen; lia]. }
    destruct (pick_Returns rng k (safeCells (populated_board b)) Hunit)
      as (c & -> & Hc).
    { assert ({| cell_x := x0; cell_y := y0 |}
              ∈ safeCells (populated_board b)) as Hin
        by by apply registry_safe.
      destruct (safeCells (populated_board b));
        [by apply elem_of_nil in Hin|simpl; lia]. }
    exists c. split; [done|]. cbn [bind].
    assert (Hsafe : safe_at (cell_x c) (cell_y c)) by by apply registry_safe.
    rewrite (cell_Returns _ _ _ _ (populated_safe _ _ Hsafe)).
    cbn [bind].
    by rewrite (assign_Returns _ _ _ _ _ (populated_safe _ _ Hsafe)).
Qed.

(** Whatever the fuel, [revealFirst] does not throw, and it leaves a
    partly revealed board. *)
Lemma revealFirst_sat fuel rng k :
  safeCells b = [] -> unit_source rng -> (exists x y, safe_at x y) ->
  outcome_sat (fun r => partly_revealed r.1.2)
    (revealFirst fuel rng (populated_board b) k).
Proof.
  intros Hnil Hunit Hsafe.
  destruct (revealFirst_cases fuel rng k Hnil Hunit Hsafe)
    as [[_ ->]|[(_ & _ & c & Hc & ->)|(_ & _ & c & Hc & Hz & ->)]].
  - apply partly_revealed_populated.
  - simpl. apply unmask_one_partly. by apply registry_safe.
  - eapply outcome_sat_bind.
    + apply flood_fill_unmasks; [|done].
      apply unmask_one_partly, Hz.
    + simpl. intros this' Hun.
      eapply unmasking_trans; [apply unmask_one_partly, Hz|].
      eapply unmasking_mono; [|done]. done.
Qed.

(** With fuel beyond the characters on the board, it returns. *)
Lemma revealFirst_Returns fuel rng k :
  safeCells b = [] -> unit_source rng -> (exists x y, safe_at x y) ->
  ink (matrix (populated_board b)) < fuel ->
  exists r, revealFirst fuel rng (populated_board b) k = Returns r.
Proof.
  intros Hnil Hunit Hsafe Hfuel.
  destruct (revealFirst_cases fuel rng k Hnil Hunit Hsafe)
    as [[_ ->]|[(_ & _ & c & Hc & ->)|(_ & _ & c & Hc & Hz & ->)]];
    [eauto..|].
  destruct (revealSurroundings_Returns fuel c true (unmask_one c))
    as (this' & -> & _).
  - apply (partly_revealed_rect (unmask_one c)), unmask_one_partly, Hz.
  - pose proof (weight_grid_set String.length
      (matrix (populated_board b)) (cell_x c) (cell_y c)
      (slice_2_m2 (count_symbol (cell_x c) (cell_y c))) _
      (populated_safe _ _ (proj1 Hz))) as Hw.
    pose proof (slice_shorter _
      (count_symbol_masked (cell_x c) (cell_y c))).
    unfold ink, unmask_one in *. cbn [matrix set_matrix]. lia.
  - simpl. eauto.
Qed.
End FloodFill.

(** ** Grid initialization *)

Lemma generateEmptyMatrix_spec this :
  generateEmptyMatrix this
  = set_matrix this
      (matrix this
       ++ replicate (rows this) (replicate (columns this) (number this 0))).
Proof.
  unfold generateEmptyMatrix.
  assert (H : forall (l : list nat) this,
    fold_left
      (fun this _ =>
         set_matrix this
           (matrix this ++ [replicate (columns this) (number this 0)]))
      l this
    = set_matrix this
        (matrix this
         ++ replicate (length l)
              (replicate (columns this) (number this 0)))).
  { clear this. induction l as [|a l IH]; intros this; simpl.
    { rewrite app_nil_r. by destruct this. }
    rewrite IH. simpl. by rewrite <- (assoc_L (++)). }
  by rewrite H, length_seq.
Qed.

Lemma rect_replicate R C (s : string) : rect R C (replicate R (replicate C s)).
Proof.
  split; [apply length_replicate|].
  apply Forall_forall. intros row ->%elem_of_replicate_inv.
  apply length_replicate.
Qed.

Lemma cell_of_replicate R C (s s' : string) x y :
  cell_of (replicate R (replicate C s)) x y = Some s' -> s' = s.
Proof.
  unfold cell_of.
  destruct (replicate R (replicate C s) !! x) as [row|] eqn:Hrow; [|done].
  apply lookup_replicate in Hrow as [-> _].
  by intros [-> _]%lookup_replicate.
Qed.

(** ** Mine placement *)

(** [s === this.types.mine] *)
Definition is_mine (this : Minesweeper) (s : string) : bool :=
  bool_decide (s = mine (types this)).

(** The number of cells that hold the mine symbol. *)
Definition mine_count (this : Minesweeper) : nat :=
  count_cells (is_mine this) (matrix this).

(** One iteration of the loop of [plantMines], on a board that covers
    the range of the draws. *)
Lemma plantMines_step fuel rng i this k :
  unit_source rng ->
  rect (rows this) (columns this) (matrix this) ->
  0 < rows this -> 0 < columns this -> i < mines this ->
  let x := floor_scaled (rng k) (rows this) in
  let y := floor_scaled (rng (S k)) (columns this) in
  exists s, cell_of (matrix this) x y = Some s /\
    plantMines_from (S fuel) rng i this k
    = if is_mine this s
      then plantMines_from fuel rng i this (S (S k))
      else plantMines_from fuel rng (S i)
             (set_matrix this
                (grid_set (matrix this) x y (mine (types this))))
             (S (S k)).
Proof.
  intros Hunit Hrect HR HC Hi x y.
  destruct (rect_cell _ _ _ x y Hrect) as [s Hs].
  { by apply floor_scaled_lt. }
  { by apply floor_scaled_lt. }
  exists s. split; [done|]. simpl.
  rewrite bool_decide_eq_true_2 by done. fold x y.
  rewrite (cell_is_Returns _ _ _ _ s Hs). simpl. unfold is_mine.
  case_bool_decide; [done|].
  by rewrite (assign_Returns _ _ _ _ _ Hs).
Qed.

Lemma mine_count_planted this x y s :
  cell_of (matrix this) x y = Some s -> is_mine this s = false ->
  mine_count
    (set_matrix this (grid_set (matrix this) x y (mine (types this))))
  = S (mine_count this).
Proof.
  intros Hs Hmine. unfold mine_count, count_cells. simpl.
  pose proof (weight_grid_set
    (fun s => if is_mine this s then 1 else 0)
    (matrix this) x y (mine (types this)) s Hs) as H.
  cbv beta in H. rewrite Hmine in H.
  assert (is_mine this (mine (types this)) = true) as Hm
    by (by apply bool_decide_eq_true_2).
  rewrite Hm in H. unfold weight, is_mine in *. simpl. lia.
Qed.

(** Whatever the fuel, [plantMines] neither throws nor changes the
    shape of the grid, and when it returns the grid holds [mines]
    mines. *)
Lemma plantMines_from_sat rng fuel : forall i this k,
  unit_source rng ->
  rect (rows this) (columns this) (matrix this) ->
  0 < rows this -> 0 < columns this ->
  mine_count this = i -> i <= mines this ->
  outcome_sat
    (fun r => same_config this r.1
              /\ rect (rows this) (columns this) (matrix r.1)
              /\ mine_count r.1 = mines this)
    (plantMines_from fuel rng i this k).
Proof.
  induction fuel as [|fuel IH]; intros i this k Hunit Hrect HR HC Hcnt Hi.
  { simpl. case_bool_decide; simpl; [done|].
    split; [apply same_config_refl|]. split; [done|lia]. }
  destruct (decide (i < mines this)) as [Hlt|Hge].
  2:{ simpl. rewrite bool_decide_eq_false_2 by done. simpl.
      split; [apply same_config_refl|]. split; [done|lia]. }
  destruct (plantMines_step fuel rng i this k) as (s & Hs & ->); [done..|].
  destruct (is_mine this s) eqn:Hmine; [by apply IH|].
  eapply outcome_sat_mono.
  - apply IH; simpl; try done.
    + by apply rect_grid_set.
    + rewrite (mine_count_planted _ _ _ _ Hs Hmine). lia.
  - simpl. intros r (Hcfg & ? & ?). split; [|done].
    eapply same_config_trans; [|done]. done.
Qed.

(** On a grid that is all mines the loop never plants anything: it
    only ends by running out of fuel. *)
Lemma plantMines_stuck rng fuel : forall i this k,
  unit_source rng ->
  rect (rows this) (columns this) (matrix this) ->
  0 < rows this -> 0 < columns this -> i < mines this ->
  (forall x y s, cell_of (matrix this) x y = Some s ->
                 is_mine this s = true) ->
  plantMines_from fuel rng i this k = OutOfFuel.
Proof.
  induction fuel as [|fuel IH]; intros i this k Hunit Hrect HR HC Hi Hall.
  { simpl. by rewrite bool_decide_eq_true_2. }
  destruct (plantMines_step fuel rng i this k) as (s & Hs & ->); [done..|].
  rewrite (Hall _ _ _ Hs). by apply IH.
Qed.

(** The random source keeps reaching every cell: from the [k]-th draw
    on, taking the draws two by two as [plantMines] does, every cell of
    the [R] x [C] grid is drawn again and again. *)
Definition fair_source (rng : Random) (k R C : nat) : Prop :=
  forall n x y, x < R -> y < C ->
    exists m, n <= m
      /\ floor_scaled (rng (k + 2 * m)) R = x
      /\ floor_scaled (rng (S (k + 2 * m))) C = y.

Lemma fair_source_later rng k R C j :
  fair_source rng k R C -> fair_source rng (k + 2 * j) R C.
Proof.
  intros Hfair n x y Hx Hy.
  destruct (Hfair (n + j) x y Hx Hy) as (m & Hm & H1 & H2).
  exists (m - j). split; [lia|].
  by replace (k + 2 * j + 2 * (m - j)) with (k + 2 * m) by lia.
Qed.

(** When a later pair of draws hits a free cell, the loop plants its
    next mine after finitely many iterations. *)
Lemma plantMines_next rng m : forall i this k,
  unit_source rng ->
  rect (rows this) (columns this) (matrix this) ->
  0 < rows this -> 0 < columns this -> i < mines this ->
  (exists s,
      cell_of (matrix this)
        (floor_scaled (rng (k + 2 * m)) (rows this))
        (floor_scaled (rng (S (k + 2 * m))) (columns this)) = Some s
      /\ is_mine this s = false) ->
  exists j this',
    same_config this this'
    /\ rect (rows this) (columns this) (matrix this')
    /\ mine_count this' = S (mine_count this)
    /\ forall fuel,
        plantMines_from (S j + fuel) rng i this k
        = plantMines_from fuel rng (S i) this' (k + 2 * S j).
Proof.
  induction m as [|m IH]; intros i this k Hunit Hrect HR HC Hi Hfree.
  - destruct Hfree as (s & Hs & Hmine).
    rewrite Nat.mul_0_r, Nat.add_0_r in Hs.
    exists 0. eexists. split_and!; last first.
    + intros fuel. simpl "+".
      destruct (plantMines_step fuel rng i this k) as (s' & Hs' & ->);
        [done..|].
      assert (s' = s) as -> by congruence. rewrite Hmine.
      f_equal. lia.
    + by apply mine_count_planted with s.
    + by apply rect_grid_set.
    + done.
  - destruct (plantMines_step 0 rng i this k) as (s & Hs & _); [done..|].
    destruct (is_mine this s) eqn:Hmine.
    + destruct (IH i this (S (S k))) as (j & this' & ? & ? & ? & Hrun);
        [done..| |].
      { by replace (S (S k) + 2 * m) with (k + 2 * S m) by lia. }
      exists (S j), this'. split_and!; [done..|]. intros fuel.
      destruct (plantMines_step (S j + fuel) rng i this k)
        as (s' & Hs' & E); [done..|].
      assert (s' = s) as -> by congruence. rewrite Hmine in E.
      change (S (S j) + fuel) with (S (S j + fuel)). rewrite E, Hrun.
      f_equal. lia.
    + exists 0. eexists. split_and!; last first.
      * intros fuel. simpl "+".
        destruct (plantMines_step fuel rng i this k) as (s' & Hs' & ->);
          [done..|].
        assert (s' = s) as -> by congruence. rewrite Hmine.
        f_equal. lia.
      * by apply mine_count_planted with s.
      * by apply rect_grid_set.
      * done.
Qed.

(** With a fair source and room for the mines, [plantMines] returns. *)
Lemma plantMines_from_Returns rng d : forall i this k,
  d = mines this - i ->
  unit_source rng -> fair_source rng k (rows this) (columns this) ->
  rect (rows this) (columns this) (matrix this) ->
  mine_count this = i -> mines this < rows this * columns this ->
  exists n r, forall fuel,
    n <= fuel -> plantMines_from fuel rng i this k = Returns r.
Proof.
  induction d as [|d IH]; intros i this k Hd Hunit Hfair Hrect Hcnt Hroom.
  { exists 0, (this, k). intros fuel _.
    destruct fuel; simpl; by rewrite bool_decide_eq_false_2 by lia. }
  assert (HR : 0 < rows this) by nia.
  assert (HC : 0 < columns this) by nia.
  destruct (count_cells_lt_exists _ _ (is_mine this) _ Hrect)
    as (x & y & s & Hs & Hmine).
  { unfold mine_count in Hcnt. lia. }
  destruct (cell_of_lt _ _ _ _ _ _ Hrect Hs) as [Hx Hy].
  destruct (Hfair 0 x y Hx Hy) as (m & _ & Ex & Ey).
  destruct (plantMines_next rng m i this k)
    as (j & this' & Hcfg & Hrect' & Hcnt' & Hrun); [done..|lia| |].
  { exists s. by rewrite Ex, Ey. }
  destruct (same_config_fields _ _ Hcfg) as (HR' & HC' & HM' & _).
  destruct (IH (S i) this' (k + 2 * S j)) as (n & r & Hr).
  - lia.
  - done.
  - rewrite HR', HC'. by apply fair_source_later.
  - by rewrite HR', HC'.
  - lia.
  - by rewrite HR', HC', HM'.
  - exists (S j + n), r. intros fuel Hfuel.
    replace fuel with (S j + (fuel - S j)) by lia.
    rewrite Hrun. apply Hr. lia.
Qed.

(** ** Spoilers *)

Lemma length_append a b :
  String.length (a +:+ b) = String.length a + String.length b.
Proof. induction a as [|c a IH]; simpl; [done|]. by rewrite IH. Qed.

Lemma append_cancel_r c : forall a b, a +:+ c = b +:+ c -> a = b.
Proof.
  induction a as [|x a IH]; intros [|y b] H.
  - done.
  - apply (f_equal String.length) in H.
    rewrite !length_append in H. simpl in H. lia.
  - apply (f_equal String.length) in H.
    rewrite !length_append in H. simpl in H. lia.
  - change (String x (a +:+ c) = String y (b +:+ c)) in H.
    injection H as -> H. f_equal. by apply IH.
Qed.

Lemma append_assoc a b c : (a +:+ b) +:+ c = a +:+ (b +:+ c).
Proof.
  induction a as [|x a IH]; [done|].
  change (String x ((a +:+ b) +:+ c) = String x (a +:+ (b +:+ c))).
  by rewrite IH.
Qed.

Lemma substring_prefix a b :
  String.substring 0 (String.length a) (a +:+ b) = a.
Proof.
  induction a as [|x a IH]; simpl; [by destruct b|]. by rewrite IH.
Qed.

Lemma append_cancel_l c a b : c +:+ a = c +:+ b -> a = b.
Proof.
  induction c as [|x c IH]; [done|]. intros H.
  change (String x (c +:+ a) = String x (c +:+ b)) in H.
  injection H as H. by apply IH.
Qed.

Lemma spoilerize_inj sp a b : spoilerize sp a = spoilerize sp b -> a = b.
Proof.
  destruct sp; unfold spoilerize; intros H%append_cancel_l;
    by apply append_cancel_r in H.
Qed.

(** What [slice(2, -2)] leaves of a spoiler: the symbol between colons,
    and with spacing the two spaces that were inside the bars. *)
Definition unmasked (sp : bool) (str : string) : string :=
  if sp then " :" +:+ str +:+ ": " else ":" +:+ str +:+ ":".

Lemma slice_wrap mid : slice_2_m2 ("||" +:+ mid +:+ "||") = mid.
Proof.
  unfold slice_2_m2. rewrite !length_append.
  change (String.length "||") with 2.
  replace (2 + (String.length mid + 2) - 4) with (String.length mid) by lia.
  change (String.substring 2 (String.length mid) ("||" +:+ mid +:+ "||"))
    with (String.substring 0 (String.length mid) (mid +:+ "||")).
  apply substring_prefix.
Qed.

Lemma spoilerize_wrap sp str :
  spoilerize sp str = "||" +:+ unmasked sp str +:+ "||".
Proof.
  unfold spoilerize, unmasked.
  destruct sp; rewrite !append_assoc; reflexivity.
Qed.

Lemma slice_spoilerize sp str :
  slice_2_m2 (spoilerize sp str) = unmasked sp str.
Proof. rewrite spoilerize_wrap. apply slice_wrap. Qed.

(** ** A freshly constructed generator *)

Lemma constructor_fresh opts :
  matrix (constructor opts) = [] /\ safeCells (constructor opts) = []
  /\ 0 < rows (constructor opts) /\ 0 < columns (constructor opts)
  /\ 0 < mines (constructor opts).
Proof.
  split_and!; try done; simpl;
    match goal with
    | |- 0 < or_number ?v _ => by destruct v as [[|?]|]; simpl; lia
    end.
Qed.

Lemma constructor_mine_not_zero opts :
  emote (constructor opts) <> "zero" ->
  mine (types (constructor opts)) <> number (constructor opts) 0.
Proof.
  intros Hne. rewrite constructor_types. unfold number.
  rewrite constructor_types. simpl. intros H. by apply spoilerize_inj in H.
Qed.

Lemma constructor_mine_not_number opts :
  emote (constructor opts) ∉ number_names ->
  mine (types (constructor opts)) ∉ numbers (types (constructor opts)).
Proof.
  intros Hne. rewrite constructor_types. cbn [mine numbers].
  intros Hin%list_elem_of_In.
  apply in_map_iff in Hin as (n & Heq & Hn%list_elem_of_In).
  by apply spoilerize_inj in Heq as ->.
Qed.

(** ** The entry point *)

(** What [start] returns after the four stages. *)
Definition rendering (this : Minesweeper) : StartResult :=
  match returnType this with
  | emoji => Text (getTextRepresentation this)
  | code => Text ("```" +:+ getTextRepresentation this +:+ "```")
  | matrix_type => Grid (matrix this)
  end.

Lemma start_stages fuel rng this k :
  start fuel rng this k
  = if bool_decide (rows this * columns this <= mines this * 2)
    then Returns (Null, this, k)
    else
      let* r1 := plantMines fuel rng (generateEmptyMatrix this) k in
      let* this2 := populate r1.1 in
      let* r3 := revealFirst fuel rng this2 r1.2 in
      Returns (rendering r3.1.2, r3.1.2, r3.2).
Proof.
  unfold start. case_bool_decide; [done|].
  destruct (plantMines _ _ _ _) as [[this1 k1]| | |]; try done. simpl.
  destruct (populate this1) as [this2| | |]; try done. simpl.
  destruct (revealFirst _ _ _ _) as [[[xy this3] k3]| | |]; try done.
  simpl. unfold rendering. by destruct (returnType this3).
Qed.

(** The empty grid of a fresh generator. *)
Lemma generateEmptyMatrix_fresh this :
  matrix this = [] ->
  same_config this (generateEmptyMatrix this)
  /\ rect (rows this) (columns this) (matrix (generateEmptyMatrix this))
  /\ (mine (types this) <> number this 0 ->
      mine_count (generateEmptyMatrix this) = 0).
Proof.
  intros Hnil. rewrite generateEmptyMatrix_spec, Hnil. simpl.
  split; [done|]. split; [apply rect_replicate|]. intros Hne.
  unfold mine_count, count_cells. simpl.
  rewrite (weight_ext _ (fun _ => 0)).
  - unfold weight. induction (concat _); simpl; lia.
  - intros x y s ->%cell_of_replicate. unfold is_mine. simpl.
    by rewrite bool_decide_eq_false_2.
Qed.

(** The layout a run of [start] plants, and the board it ends with. *)
Definition run_of (this : Minesweeper) (b this' : Minesweeper) : Prop :=
  same_config (generateEmptyMatrix this) b
  /\ rect (rows this) (columns this) (matrix b)
  /\ mine_count b = mines this
  /\ partly_revealed b this'.

Lemma run_layout this b :
  matrix this = [] -> safeCells this = [] -> types_ok (types this) ->
  mines this < rows this * columns this ->
  same_config (generateEmptyMatrix this) b ->
  rect (rows this) (columns this) (matrix b) ->
  mine_count b = mines this ->
  rect (rows b) (columns b) (matrix b) /\ types_ok (types b)
  /\ safeCells b = [] /\ exists x y, safe_at b x y.
Proof.
  intros Hnil Hreg Hok Hroom Hcfg Hrect Hcnt.
  destruct (generateEmptyMatrix_fresh this Hnil) as (Hcfg0 & _).
  pose proof (same_config_trans _ _ _ Hcfg0 Hcfg) as Hcfg'.
  destruct (same_config_fields _ _ Hcfg')
    as (-> & -> & _ & -> & -> & _).
  split_and!; try done.
  destruct (count_cells_lt_exists _ _ (is_mine b) _ Hrect)
    as (x & y & s & Hs & Hmine).
  { unfold mine_count in Hcnt. lia. }
  exists x, y, s. split; [done|]. by apply bool_decide_eq_false in Hmine.
Qed.

(** Whatever the fuel, a run on a fresh generator past the gate neither
    throws nor returns [null]; what it returns is the rendering of a
    board reached by planting [mines] mines, populating and unmasking
    safe cells. *)
Lemma start_sat fuel rng this k :
  matrix this = [] -> safeCells this = [] -> types_ok (types this) ->
  unit_source rng -> 0 < mines this ->
  mines this * 2 < rows this * columns this ->
  outcome_sat
    (fun r => r.1.1 = rendering r.1.2
              /\ exists b, run_of this b r.1.2)
    (start fuel rng this k).
Proof.
  intros Hnil Hreg Hok Hunit Hmines Hgate. rewrite start_stages.
  rewrite bool_decide_eq_false_2 by lia.
  destruct (generateEmptyMatrix_fresh this Hnil) as (Hcfg0 & Hrect0 & Hcnt0).
  destruct (same_config_fields _ _ Hcfg0) as (HR & HC & HM & _).
  destruct (decide (mine (types this) = number this 0)) as [Heq|Hne].
  { unfold plantMines. rewrite plantMines_stuck; [done|done|..].
    - by rewrite HR, HC.
    - rewrite HR. nia.
    - rewrite HC. nia.
    - by rewrite HM.
    - rewrite generateEmptyMatrix_spec, Hnil. simpl.
      intros x y s ->%cell_of_replicate.
      by apply bool_decide_eq_true_2. }
  eapply outcome_sat_bind.
  { apply (plantMines_from_sat rng fuel 0 (generateEmptyMatrix this) k);
      rewrite ?HR, ?HC, ?HM; auto; nia. }
  intros [b k1] (Hcfg & Hrect & Hcnt). simpl in Hcfg, Hrect, Hcnt.
  rewrite HR, HC in Hrect. rewrite HM in Hcnt. simpl.
  destruct (run_layout this b) as (Hrectb & Hokb & Hregb & Hsafe);
    [done|done|done|nia|done|done|done|].
  rewrite (populate_spec b Hrectb). simpl.
  eapply outcome_sat_bind.
  { by apply (revealFirst_sat b Hrectb Hokb fuel rng k1). }
  intros [[xy this3] k3] Hpr. simpl in *. split; [done|].
  by exists b.
Qed.

(** With a fair source, the run returns once the fuel is large enough. *)
Lemma start_Returns rng this k :
  matrix this = [] -> safeCells this = [] -> types_ok (types this) ->
  unit_source rng -> fair_source rng k (rows this) (columns this) ->
  mine (types this) <> number this 0 ->
  mines this * 2 < rows this * columns this ->
  exists n, forall fuel, n <= fuel ->
    exists r, start fuel rng this k = Returns r.
Proof.
  intros Hnil Hreg Hok Hunit Hfair Hne Hgate.
  destruct (generateEmptyMatrix_fresh this Hnil) as (Hcfg0 & Hrect0 & Hcnt0).
  destruct (same_config_fields _ _ Hcfg0) as (HR & HC & HM & _).
  destruct (plantMines_from_Returns rng (mines this) 0
              (generateEmptyMatrix this) k) as (n & [b k1] & Hplant);
    rewrite ?HR, ?HC, ?HM; auto; [lia|nia|].
  pose proof (plantMines_from_sat rng n 0 (generateEmptyMatrix this) k)
    as Hsat.
  rewrite (Hplant n), HR, HC, HM in Hsat by done.
  destruct Hsat as (Hcfg & Hrect & Hcnt); auto; [nia..|].
  simpl in Hcfg, Hrect, Hcnt.
  destruct (run_layout this b) as (Hrectb & Hokb & Hregb & Hsafe);
    [done|done|done|nia|done|done|done|].
  exists (n `max` S (ink (matrix (populated_board b)))).
  intros fuel Hfuel. rewrite start_stages.
  rewrite bool_decide_eq_false_2 by lia.
  unfold plantMines. rewrite (Hplant fuel) by lia. simpl.
  rewrite (populate_spec b Hrectb). simpl.
  destruct (revealFirst_Returns b Hrectb Hokb fuel rng k1) as [r ->];
    [done..|lia|].
  simpl. eauto.
Qed.

(** * The specification's claims *)

(** ** Inputs used in the examples *)

(** [{ rows: r, columns: c, mines: m }] *)
Definition options (r c m : nat) : Opts.t :=
  Opts.Make (Some r) (Some c) (Some m) None None None None None None.

(** [Math.random()] returning 0 at every call. *)
Definition zero_source : Random := fun _ => Draw 0 1.

(** [Math.random()] returning 0, 0 and then 1/2 at every call. *)
Definition late_half_source : Random :=
  fun k => Draw (if bool_decide (k < 2) then 0 else 1) 2.

(** [Math.random()] returning 1/2 at every call. *)
Definition half_source : Random := fun _ => Draw 1 2.

Lemma zero_source_unit : unit_source zero_source.
Proof. intros k. simpl. lia. Qed.

Lemma late_half_source_unit : unit_source late_half_source.
Proof. intros k. simpl. case_bool_decide; lia. Qed.

(** ** Mine count zero *)

(** [{ rows: 2, columns: 2, mines: 0, spaces: true }] *)
Definition two_by_two_no_mines : Opts.t :=
  Opts.Make (Some 2) (Some 2) (Some 0) None None None (Some true) None None.

(** C8.  The specification's example has [start] accept rows=2, columns=2,
    mines=0 with spacing on and return the text of four masked zeros.
    The constructor reads the mine count with [(opts && opts.mines) || 10],
    which takes the given 0 for an absent value: the generator has 10
    mines, the gate [rows * columns <= mines * 2] is [4 <= 20], and
    [start] returns [null], for every random source and every fuel. *)
Theorem start_2x2_no_mines_returns_null fuel rng k :
  mines (constructor (Some two_by_two_no_mines)) = 10
  /\ start fuel rng (constructor (Some two_by_two_no_mines)) k
     = Returns (Null, constructor (Some two_by_two_no_mines), k).
Proof. split; reflexivity. Qed.

(** The text of the example is what the class renders for the empty
    2 x 2 grid, as the test of [getTextRepresentation] has it. *)
Lemma empty_2x2_text :
  getTextRepresentation
    (generateEmptyMatrix (constructor (Some two_by_two_no_mines)))
  = "|| :zero: || || :zero: ||" +:+ newline +:+ "|| :zero: || || :zero: ||".
Proof. reflexivity. Qed.

(** ** The random source *)

(** The options with their [rng] property replaced. *)
Definition with_rng (o : Opts.t) (r : option Random) : Opts.t :=
  Opts.Make (Opts.rows o) (Opts.columns o) (Opts.mines o) (Opts.emote o)
    (Opts.revealFirstCell o) (Opts.zeroFirstCell o) (Opts.spaces o)
    (Opts.returnType o) r.

(** C7.  The specification has the constructor accept an injectable
    random source that alone decides the board.  The class has no such
    option: the constructor builds the same generator whatever [rng] it
    is passed, and [plantMines] and [revealFirst] draw from the global
    [Math.random].  Two generators given the same configuration and the
    same injected source produce different boards when [Math.random]
    answers differently. *)
Theorem injected_rng_is_ignored :
  (forall o r r', constructor (Some (with_rng o r))
                  = constructor (Some (with_rng o r')))
  /\ exists t1 this1 k1 t2 this2 k2,
      let this := constructor
                    (Some (with_rng (options 2 2 1) (Some zero_source))) in
      start 2 zero_source this 0 = Returns (Text t1, this1, k1)
      /\ start 2 half_source this 0 = Returns (Text t2, this2, k2)
      /\ matrix this1 <> matrix this2.
Proof.
  split; [done|]. do 6 eexists. cbv zeta.
  split; [by vm_compute|]. split; [by vm_compute|].
  vm_compute. discriminate.
Qed.

(** In the draws of [Math.random] the run is a function: the same
    configuration and the same draws give the same board. *)
Lemma start_deterministic fuel rng rng' opts k :
  (forall i, rng i = rng' i) ->
  start fuel rng (constructor opts) k = start fuel rng' (constructor opts) k.
Proof.
  intros Hsame.
  assert (Hplant : forall fuel i this k,
    plantMines_from fuel rng i this k = plantMines_from fuel rng' i this k).
  { clear fuel k. induction fuel as [|fuel IH]; intros i this k; [done|].
    simpl. rewrite !Hsame.
    case_bool_decide; [|done].
    destruct (cell_is _ _ _ _) as [[]| | |]; simpl; try done.
    destruct (assign _ _ _ _); simpl; try done. }
  unfold start, plantMines. rewrite Hplant.
  case_bool_decide; [done|].
  destruct (plantMines_from _ _ _ _ _) as [[this1 k1]| | |]; try done.
  simpl. destruct (populate this1) as [this2| | |]; try done. simpl.
  unfold revealFirst, pick. by rewrite !Hsame.
Qed.

(** ** The cells of a generated board *)

(** [s] is a number symbol, masked or unmasked. *)
Definition is_number (this : Minesweeper) (s : string) : bool :=
  bool_decide
    (s ∈ numbers (types this) ++ (slice_2_m2 <$> numbers (types this))).

(** The census of the specification: a grid of [rows] x [columns] cells,
    [mines] of them holding the mine symbol and the others a number
    symbol. *)
Definition census (this : Minesweeper) : Prop :=
  rect (rows this) (columns this) (matrix this)
  /\ count_cells (is_mine this) (matrix this) = mines this
  /\ count_cells (is_number this) (matrix this)
     = rows this * columns this - mines this.

(** On the board a run ends with, a cell is the mine symbol where the
    layout has a mine, and elsewhere the cell's count symbol, masked or
    unmasked. *)
Lemma run_cells this b this' x y s :
  matrix this = [] -> safeCells this = [] -> types_ok (types this) ->
  mines this < rows this * columns this ->
  run_of this b this' ->
  cell_of (matrix this') x y = Some s ->
  (cell_of (matrix b) x y = Some (mine (types this))
   /\ s = mine (types this))
  \/ (safe_at b x y
      /\ (s = count_symbol b x y \/ s = slice_2_m2 (count_symbol b x y))).
Proof.
  intros Hnil Hreg Hok Hroom (Hcfg & Hrect & Hcnt & Hpr) Hs.
  destruct (run_layout this b) as (Hrectb & Hokb & Hregb & _); [done..|].
  destruct (generateEmptyMatrix_fresh this Hnil) as (Hcfg0 & _).
  destruct (same_config_fields _ _ (same_config_trans _ _ _ Hcfg0 Hcfg))
    as (HR & HC & _ & HT & _).
  pose proof (partly_revealed_rect b Hrectb _ Hpr) as Hrect'.
  destruct (cell_of_lt _ _ _ _ _ _ Hrect' Hs) as [Hx Hy].
  destruct (rect_cell _ _ _ x y Hrectb Hx Hy) as [s0 Hs0].
  rewrite <- HT. destruct (decide (s0 = mine (types b))) as [->|Hne].
  - left. split; [done|].
    pose proof (partly_revealed_mine b _ _ _ Hpr Hs0).
    congruence.
  - right. assert (Hsafe : safe_at b x y) by by exists s0.
    split; [done|].
    destruct (partly_revealed_safe b _ _ _ Hpr Hsafe);
      [left|right]; congruence.
Qed.

Lemma run_config this b this' :
  matrix this = [] -> run_of this b this' ->
  same_config
    (set_safeCells this
       (safeCells this ++ safe_in_rows (mine (types this)) 0 (matrix b)))
    this'
  /\ rect (rows this) (columns this) (matrix b).
Proof.
  intros Hnil (Hcfg & Hrect & Hcnt & Hcfg' & _). split; [|done].
  destruct (generateEmptyMatrix_fresh this Hnil) as (Hcfg0 & _).
  pose proof (same_config_trans _ _ _ Hcfg0 Hcfg) as Hb.
  unfold same_config in *. rewrite Hcfg'. unfold populated_board.
  rewrite Hb. done.
Qed.

Lemma census_of_run this b this' :
  matrix this = [] -> safeCells this = [] -> types_ok (types this) ->
  mines this < rows this * columns this ->
  mine (types this) ∉ numbers (types this) ->
  run_of this b this' -> census this'.
Proof.
  intros Hnil Hreg Hok Hroom Hdistinct Hrun.
  pose proof (fun x y s =>
    run_cells this b this' x y s Hnil Hreg Hok Hroom Hrun) as Hcells.
  destruct (run_config this b this' Hnil Hrun) as (Hcfg' & Hrect).
  destruct Hrun as (Hcfg & _ & Hcnt & Hpr).
  destruct (run_layout this b) as (Hrectb & Hokb & Hregb & _); [done..|].
  destruct (generateEmptyMatrix_fresh this Hnil) as (Hcfg0 & _).
  destruct (same_config_fields _ _ (same_config_trans _ _ _ Hcfg0 Hcfg))
    as (HR & HC & HM & HT & _).
  destruct (same_config_fields _ _ Hcfg') as (HR' & HC' & HM' & HT' & _).
  simpl in HR', HC', HM', HT'.
  pose proof (partly_revealed_rect b Hrectb _ Hpr) as Hrect'.
  rewrite HR, HC in Hrect'.
  assert (Hclass : forall x y s,
    cell_of (matrix this') x y = Some s ->
    (is_mine this' s = true /\ is_number this' s = false
     /\ cell_of (matrix b) x y = Some (mine (types b)))
    \/ (is_mine this' s = false /\ is_number this' s = true
        /\ safe_at b x y)).
  { intros x y s Hs. unfold is_mine, is_number. rewrite HT'.
    destruct (Hcells x y s Hs) as [[Hb ->]|[Hsafe Hsym]]; [left|right].
    - rewrite bool_decide_eq_true_2 by done.
      split_and!; [done| |by rewrite HT]. apply bool_decide_eq_false_2.
      intros [?|Hin]%elem_of_app; [done|].
      apply list_elem_of_fmap in Hin as (n & Heq & Hn).
      pose proof (mine_masked _ Hok) as Hm.
      pose proof (numbers_revealed _ Hok) as Hrev.
      rewrite Forall_forall in Hrev. rewrite Heq, (Hrev n Hn) in Hm. done.
    - assert (Hin : count_symbol b x y ∈ numbers (types this)).
      { rewrite <- HT. apply number_elem; [done|].
        pose proof (spec_neighbour_mines_le b x y). lia. }
      split_and!; [|apply bool_decide_eq_true_2|done].
      + apply bool_decide_eq_false_2. intros Heq.
        destruct Hsym as [->| ->]; [congruence|].
        pose proof (mine_masked _ Hok) as Hm.
        rewrite <- Heq, (count_symbol_revealed b Hokb) in Hm. done.
      + apply elem_of_app. destruct Hsym as [->| ->]; [by left|right].
        apply list_elem_of_fmap. eauto. }
  unfold census. rewrite HR', HC', HM'. split; [done|].
  assert (Hmines : count_cells (is_mine this') (matrix this') = mines this).
  { rewrite <- Hcnt. unfold mine_count, count_cells.
    apply weight_pointwise.
    eapply grids_pointwise; [done..|]. intros x y s1 s2 Hs1 Hs2.
    unfold is_mine at 2.
    destruct (Hclass x y s1 Hs1) as [(-> & _ & Hb)|(-> & _ & Hsafe)].
    - rewrite bool_decide_eq_true_2; [done|congruence].
    - destruct Hsafe as (s0 & Hs0 & Hne).
      rewrite bool_decide_eq_false_2; [done|congruence]. }
  split; [done|].
  pose proof (weight_const _ _ _ Hrect') as Htotal.
  rewrite (weight_ext _
    (fun s => (if is_mine this' s then 1 else 0)
              + (if is_number this' s then 1 else 0))) in Htotal.
  - rewrite weight_plus in Htotal. unfold count_cells in *. lia.
  - intros x y s Hs.
    by destruct (Hclass x y s Hs) as [(-> & -> & _)|(-> & -> & _)].
Qed.

(** C1's census is stated for the boards of a run that completes. *)
Lemma run_of_start opts rng fuel k r this' k' :
  unit_source rng ->
  start fuel rng (constructor opts) k = Returns (r, this', k') ->
  r <> Null ->
  mines (constructor opts) * 2
  < rows (constructor opts) * columns (constructor opts)
  /\ r = rendering this'
  /\ exists b, run_of (constructor opts) b this'.
Proof.
  intros Hunit Hrun Hr.
  destruct (constructor_fresh opts) as (Hnil & Hreg & HR & HC & HM).
  assert (Hgate : mines (constructor opts) * 2
                  < rows (constructor opts) * columns (constructor opts)).
  { rewrite start_stages in Hrun. case_bool_decide; [|lia].
    by injection Hrun as <- _ _. }
  split; [done|].
  pose proof (start_sat fuel rng (constructor opts) k Hnil Hreg
                (constructor_types_ok opts) Hunit HM Hgate) as Hsat.
  rewrite Hrun in Hsat. apply Hsat.
Qed.

(** ** The census of a generated board *)

(** [{ rows: 3, columns: 3, mines: 1, emote: "one" }] *)
Definition one_as_mine : Opts.t :=
  Opts.Make (Some 3) (Some 3) (Some 1) (Some "one") None None None None None.

(** C1 as stated, for every configuration, fails when the mine is given
    the name of a number: with [emote: "one"] the symbol of a count of
    one is the mine symbol, and the run that plants its one mine at
    (0,0) ends with four cells holding the mine symbol. *)
Lemma census_fails_for_emote_one :
  exists r this' k',
    start 1 zero_source (constructor (Some one_as_mine)) 0
    = Returns (r, this', k')
    /\ r <> Null /\ mines this' = 1
    /\ count_cells (is_mine this') (matrix this') = 4
    /\ ~ census this'.
Proof.
  do 3 eexists. split; [by vm_compute|]. split; [done|].
  assert (Hcount : forall n,
    count_cells (is_mine (set_matrix (constructor (Some one_as_mine)) [])) n
    = count_cells (fun s => bool_decide (s = "|| :one: ||")) n) by done.
  split; [done|]. split; [by vm_compute|].
  intros (_ & H & _). revert H. by vm_compute.
Qed.

(** C1, amended.  For every configuration whose mine symbol name is not
    one of the nine number names, and every run of [start] that returns
    a board: the final grid has [rows] x [columns] cells, exactly [mines]
    of them hold the mine symbol, and the remaining
    [rows * columns - mines] cells hold one of the nine number symbols,
    masked or unmasked. *)
Theorem generated_board_census opts rng fuel k r this' k' :
  unit_source rng ->
  emote (constructor opts) ∉ number_names ->
  start fuel rng (constructor opts) k = Returns (r, this', k') ->
  r <> Null ->
  census this'
  /\ rows this' = rows (constructor opts)
  /\ columns this' = columns (constructor opts)
  /\ mines this' = mines (constructor opts).
Proof.
  intros Hunit Hemote Hrun Hr.
  destruct (run_of_start opts rng fuel k r this' k' Hunit Hrun Hr)
    as (Hgate & _ & b & Hb).
  destruct (constructor_fresh opts) as (Hnil & Hreg & HR & HC & HM).
  split.
  - apply (census_of_run (constructor opts) b); try done.
    + apply constructor_types_ok.
    + nia.
    + by apply constructor_mine_not_number.
  - destruct (run_config _ _ _ Hnil Hb) as (Hcfg & _).
    by destruct (same_config_fields _ _ Hcfg) as (-> & -> & -> & _).
Qed.

(** [{ rows: 4, columns: 4, mines: 2, revealFirstCell: true }] *)
Definition reveal_4x4 : Opts.t :=
  Opts.Make (Some 4) (Some 4) (Some 2) None (Some true) None None None None.

Lemma generated_board_census_witness :
  unit_source late_half_source
  /\ exists r this' k',
      start 9 late_half_source (constructor (Some reveal_4x4)) 0
      = Returns (r, this', k')
      /\ r <> Null /\ census this'.
Proof.
  split; [apply late_half_source_unit|].
  do 3 eexists. split; [by vm_compute|]. split; [done|].
  eapply (generated_board_census (Some reveal_4x4) late_half_source 9 0).
  - apply late_half_source_unit.
  - apply (bool_decide_unpack _). by vm_compute.
  - by vm_compute.
  - done.
Defined.

(** ** The validity gate *)

(** [{ emote: "zero" }] *)
Definition zero_as_mine : Opts.t :=
  Opts.Make None None None (Some "zero") None None None None None.

(** C5 as stated, for every configuration, fails when the mine is named
    "zero": the configuration passes the gate (81 > 20), but every cell
    of the empty grid already equals the mine symbol, every draw of
    [plantMines] is rejected, and [start] returns nothing at all. *)
Lemma start_diverges_for_emote_zero :
  mines (constructor (Some zero_as_mine)) * 2
  < rows (constructor (Some zero_as_mine))
    * columns (constructor (Some zero_as_mine))
  /\ forall fuel,
      start fuel zero_source (constructor (Some zero_as_mine)) 0 = OutOfFuel.
Proof.
  split; [simpl; lia|]. intros fuel. rewrite start_stages.
  rewrite bool_decide_eq_false_2 by (simpl; lia).
  unfold plantMines. rewrite plantMines_stuck; [done|..].
  - apply zero_source_unit.
  - rewrite generateEmptyMatrix_spec. apply rect_replicate.
  - rewrite generateEmptyMatrix_spec. simpl. lia.
  - rewrite generateEmptyMatrix_spec. simpl. lia.
  - rewrite generateEmptyMatrix_spec. simpl. lia.
  - rewrite generateEmptyMatrix_spec. cbn [matrix set_matrix app].
    by intros x y s ->%cell_of_replicate.
Qed.

Lemma rendering_not_Null this : rendering this <> Null.
Proof. unfold rendering. by destruct (returnType this). Qed.

(** C5, amended.  For every configuration whose mine symbol name is not
    "zero", and a random source that keeps reaching every cell: when
    [rows * columns <= mines * 2], [start] returns [null], without
    throwing; when [rows * columns > mines * 2], [start] returns the
    board in the shape [returnType] selects, and whatever the fuel it
    neither throws nor returns [null]. *)
Theorem start_gate opts rng k :
  let this := constructor opts in
  unit_source rng ->
  fair_source rng k (rows this) (columns this) ->
  emote this <> "zero" ->
  (rows this * columns this <= mines this * 2 ->
   forall fuel, start fuel rng this k = Returns (Null, this, k))
  /\ (mines this * 2 < rows this * columns this ->
      (exists n, forall fuel, n <= fuel ->
         exists this' k',
           start fuel rng this k = Returns (rendering this', this', k')
           /\ rendering this' <> Null)
      /\ forall fuel,
           outcome_sat (fun r => r.1.1 <> Null) (start fuel rng this k)).
Proof.
  intros this Hunit Hfair Hemote.
  destruct (constructor_fresh opts) as (Hnil & Hreg & HR & HC & HM).
  pose proof (constructor_types_ok opts) as Hok.
  split.
  - intros Hgate fuel. rewrite start_stages.
    by rewrite bool_decide_eq_true_2.
  - intros Hgate.
    assert (Hsat : forall fuel,
      outcome_sat (fun r => r.1.1 = rendering r.1.2)
        (start fuel rng this k)).
    { intros fuel. eapply outcome_sat_mono; [by apply start_sat|].
      by intros r [? _]. }
    split.
    + destruct (start_Returns rng this k) as (n & Hn); try done.
      { by apply constructor_mine_not_zero. }
      exists n. intros fuel Hfuel. destruct (Hn fuel Hfuel) as [r Hr].
      specialize (Hsat fuel). rewrite Hr in Hsat. simpl in Hsat.
      destruct r as [[r this'] k']. simpl in Hsat. subst r.
      exists this', k'. split; [done|apply rendering_not_Null].
    + intros fuel. eapply outcome_sat_mono; [apply Hsat|].
      intros r ->. apply rendering_not_Null.
Qed.

(** [Math.random()] going round the cells of a 2 x 2 grid:
    (0,0), (0,1), (1,0), (1,1), and again. *)
Definition round_robin : Random :=
  fun k =>
    match k mod 8 with
    | 3 | 4 | 6 | 7 => Draw 1 2
    | _ => Draw 0 2
    end.

Lemma start_gate_witness :
  unit_source round_robin
  /\ fair_source round_robin 0 2 2
  /\ exists n, forall fuel, n <= fuel ->
       exists this' k',
         start fuel round_robin (constructor (Some (options 2 2 1))) 0
         = Returns (rendering this', this', k')
         /\ rendering this' <> Null.
Proof.
  assert (Hunit : unit_source round_robin).
  { intros k. unfold round_robin.
    destruct (k mod 8) as [|[|[|[|[|[|[|[|]]]]]]]]; simpl; lia. }
  assert (Hfair : fair_source round_robin 0 2 2).
  { intros n x y Hx Hy. exists (4 * n + 2 * x + y). split; [lia|].
    unfold round_robin.
    replace (0 + 2 * (4 * n + 2 * x + y)) with (4 * x + 2 * y + n * 8)
      by lia.
    replace (S (4 * x + 2 * y + n * 8)) with (4 * x + 2 * y + 1 + n * 8)
      by lia.
    rewrite !Nat.Div0.mod_add.
    destruct x as [|[|]]; destruct y as [|[|]]; try lia; done. }
  split; [exact Hunit|]. split; [exact Hfair|].
  destruct (start_gate (Some (options 2 2 1)) round_robin 0 Hunit Hfair)
    as [_ Hpass]; [done|].
  apply Hpass. simpl. lia.
Defined.

(** ** Rendering *)

(** [{ rows: 3, columns: 3, mines: 2, revealFirstCell: true }] *)
Definition reveal_3x3 : Opts.t :=
  Opts.Make (Some 3) (Some 3) (Some 2) None (Some true) None None None None.

(** C9 as stated, for both spacing settings, fails with spacing on: the
    cell the run unmasks at (1,2) is [" :one: "], the symbol token
    between the two spaces [spoilerize] put inside the bars, and the
    text shows it so. *)
Lemma unmasked_cell_keeps_its_spaces :
  exists r this' k',
    start 3 late_half_source (constructor (Some reveal_3x3)) 0
    = Returns (r, this', k')
    /\ spaces this' = true
    /\ cell_of (matrix this') 1 2 = Some " :one: "
    /\ " :one: " <> ":one:" /\ " :one: " <> "one"
    /\ r = Text ("|| :boom: || || :two: || || :one: ||" +:+ newline
                 +:+ "|| :two: || || :boom: ||  :one: " +:+ newline
                 +:+ "|| :one: || || :one: || || :one: ||").
Proof.
  do 3 eexists. split; [by vm_compute|]. split; [by vm_compute|].
  split; [by vm_compute|]. split; [discriminate|].
  split; [discriminate|]. by vm_compute.
Qed.

(** C9, amended.  For every generated grid and both spacing settings,
    the text is the rows joined by newlines, the cells of a row joined
    by the separator; a masked cell is the spoiler [spoilerize] makes of
    a symbol name, and an unmasked cell is that spoiler without its
    first two and last two characters, the bars: [":name:"] without
    spacing and [" :name: "] with it. *)
Theorem rendering_of_cells opts rng fuel k r this' k' :
  unit_source rng ->
  start fuel rng (constructor opts) k = Returns (r, this', k') ->
  r <> Null ->
  r = rendering this'
  /\ getTextRepresentation this'
     = join newline
         (map (join (if spaces this' then " " else "")) (matrix this'))
  /\ forall x y s,
      cell_of (matrix this') x y = Some s ->
      s = spoilerize (spaces this') (emote this')
      \/ exists n, n ∈ number_names
                   /\ (s = spoilerize (spaces this') n
                       \/ (s = slice_2_m2 (spoilerize (spaces this') n)
                           /\ s = unmasked (spaces this') n)).
Proof.
  intros Hunit Hrun Hr.
  destruct (run_of_start opts rng fuel k r this' k' Hunit Hrun Hr)
    as (Hgate & Hrender & b & Hb).
  destruct (constructor_fresh opts) as (Hnil & Hreg & HR & HC & HM).
  pose proof (constructor_types_ok opts) as Hok.
  split; [done|]. split; [done|]. intros x y s Hs.
  destruct (run_config _ _ _ Hnil Hb) as (Hcfg & _).
  destruct (same_config_fields _ _ Hcfg)
    as (_ & _ & _ & _ & _ & -> & _ & _ & _ & ->).
  cbn [spaces emote set_safeCells].
  destruct (run_cells (constructor opts) b this' x y s)
    as [[_ ->]|[_ Hsym]]; try done; [nia|by left|right].
  assert (exists n, n ∈ number_names
            /\ count_symbol b x y
               = spoilerize (spaces (constructor opts)) n) as (n & Hn & Hc).
  { assert (Hin : count_symbol b x y ∈ numbers (types (constructor opts))).
    { destruct Hb as (Hcfgb & _).
      destruct (generateEmptyMatrix_fresh _ Hnil) as (Hcfg0 & _).
      destruct (same_config_fields _ _
                  (same_config_trans _ _ _ Hcfg0 Hcfgb))
        as (_ & _ & _ & HT & _).
      rewrite <- HT. apply number_elem; [by rewrite HT|].
      pose proof (spec_neighbour_mines_le b x y). lia. }
    rewrite constructor_types in Hin. cbn [numbers] in Hin.
    apply list_elem_of_In, in_map_iff in Hin as (n & Heq & Hn).
    exists n. by rewrite list_elem_of_In. }
  exists n. split; [done|]. rewrite Hc in Hsym.
  destruct Hsym as [->| ->]; [by left|right].
  split; [done|apply slice_spoilerize].
Qed.

Lemma rendering_of_cells_witness :
  unit_source late_half_source
  /\ exists r this' k',
      start 3 late_half_source (constructor (Some reveal_3x3)) 0
      = Returns (r, this', k')
      /\ r = rendering this'
      /\ cell_of (matrix this') 1 2 = Some (unmasked true "one").
Proof.
  split; [apply late_half_source_unit|].
  do 3 eexists. split; [by vm_compute|].
  split; [|by vm_compute].
  eapply (rendering_of_cells (Some reveal_3x3) late_half_source 3 0).
  - apply late_half_source_unit.
  - by vm_compute.
  - done.
Defined.

(** ** Runs and generators *)

Lemma length_safe_in_row mine x row : forall y,
  length (safe_in_row mine x y row)
  + sum_list_with (fun s => if bool_decide (s = mine) then 1 else 0) row
  = length row.
Proof.
  induction row as [|s row IH]; intros y; simpl; [done|].
  rewrite length_app, <- (IH (S y)). case_bool_decide; simpl; lia.
Qed.

Lemma length_safe_in_rows mine m : forall x,
  length (safe_in_rows mine x m)
  + weight (fun s => if bool_decide (s = mine) then 1 else 0) m
  = weight (fun _ => 1) m.
Proof.
  unfold weight. induction m as [|row m IH]; intros x; simpl; [done|].
  rewrite length_app, !sum_list_with_app.
  pose proof (length_safe_in_row mine x row 0).
  specialize (IH (S x)).
  assert (sum_list_with (fun _ => 1) row = length row) as ->
    by (clear; induction row; simpl; lia).
  lia.
Qed.

(** C10 as stated fails for a second [start] on the same generator: the
    2 x 2 generator whose first run left 2 rows and 3 registered cells
    ends its second run with 4 rows and 9 registered cells. *)
Lemma second_start_continues_the_first :
  exists r1 this1 k1 r2 this2 k2,
    start 1 late_half_source (constructor (Some (options 2 2 1))) 0
    = Returns (r1, this1, k1)
    /\ length (matrix this1) = 2 /\ length (safeCells this1) = 3
    /\ start 1 late_half_source this1 k1 = Returns (r2, this2, k2)
    /\ rows this2 = 2
    /\ length (matrix this2) = 4 /\ length (safeCells this2) = 9.
Proof.
  do 6 eexists. split; [by vm_compute|].
  split; [by vm_compute|]. split; [by vm_compute|].
  split; [by vm_compute|]. split; [by vm_compute|].
  split; by vm_compute.
Qed.

(** C10, amended.  The grid and the registry belong to the generator:
    the constructor creates both, empty, and [start] allocates neither,
    it pushes [rows] rows onto the grid it finds.  So the first run of a
    generator works on a grid of exactly [rows] x [columns] cells and
    leaves a registry of the [rows * columns - mines] safe cells of
    that grid; nothing is promised for a later run on the same
    generator. *)
Theorem grid_and_registry_of_a_generator opts rng fuel k r this' k' :
  let this := constructor opts in
  unit_source rng ->
  start fuel rng this k = Returns (r, this', k') ->
  r <> Null ->
  matrix this = [] /\ safeCells this = []
  /\ rect (rows this) (columns this) (matrix this')
  /\ length (safeCells this') = rows this * columns this - mines this
  /\ (forall c, c ∈ safeCells this' ->
                cell_x c < rows this /\ cell_y c < columns this)
  /\ forall that,
      matrix (generateEmptyMatrix that)
      = matrix that
        ++ replicate (rows that)
             (replicate (columns that) (number that 0))
      /\ safeCells (generateEmptyMatrix that) = safeCells that.
Proof.
  intros this Hunit Hrun Hr. subst this.
  destruct (run_of_start opts rng fuel k r this' k' Hunit Hrun Hr)
    as (Hgate & _ & b & Hb).
  destruct (constructor_fresh opts) as (Hnil & Hreg & HR & HC & HM).
  destruct (run_config _ _ _ Hnil Hb) as (Hcfg & Hrectb).
  destruct (same_config_fields _ _ Hcfg) as (_ & _ & _ & _ & Hcells & _).
  cbn [safeCells set_safeCells] in Hcells.
  pose proof Hb as (Hcfgb & _ & Hcnt & Hpr).
  destruct (run_layout (constructor opts) b) as (Hrectb' & _);
    [done|done|apply constructor_types_ok|nia|done|done|done|].
  destruct (generateEmptyMatrix_fresh _ Hnil) as (Hcfg0 & _).
  destruct (same_config_fields _ _ (same_config_trans _ _ _ Hcfg0 Hcfgb))
    as (HRb & HCb & _ & HT & _).
  split_and!; try done.
  - rewrite <- HRb, <- HCb. by apply (partly_revealed_rect b).
  - rewrite Hcells, Hreg. cbn [app].
    pose proof (length_safe_in_rows (mine (types (constructor opts))) (matrix b) 0)
      as Hlen.
    rewrite (weight_const _ _ _ Hrectb) in Hlen.
    unfold mine_count, count_cells, is_mine in Hcnt. rewrite HT in Hcnt.
    lia.
  - intros c. rewrite Hcells, Hreg. cbn [app].
    intros (s & Hs & _)%elem_of_safe_cells.
    by apply (cell_of_lt _ _ _ _ _ _ Hrectb Hs).
  - intros that. by rewrite generateEmptyMatrix_spec.
Qed.

Lemma grid_and_registry_of_a_generator_witness :
  unit_source late_half_source
  /\ exists r this' k',
      start 1 late_half_source (constructor (Some (options 2 2 1))) 0
      = Returns (r, this', k')
      /\ rect 2 2 (matrix this') /\ length (safeCells this') = 3.
Proof.
  split; [apply late_half_source_unit|].
  edestruct (grid_and_registry_of_a_generator (Some (options 2 2 1))
               late_half_source 1 0) as (_ & _ & Hrect & Hlen & _);
    [apply late_half_source_unit|by vm_compute|done|].
  do 3 eexists. split; [by vm_compute|].
  split; [exact Hrect|exact Hlen].
Defined.

(** ** Neighbor annotation *)

(** A generator whose grid has been set to the layout [g0]. *)
Lemma layout_board opts g0 :
  let this := set_matrix (constructor opts) g0 in
  rect (rows this) (columns this) g0 ->
  rect (rows this) (columns this) (matrix this)
  /\ types_ok (types this) /\ safeCells this = []
  /\ populate this = Returns (populated_board this).
Proof.
  intros this Hrect. split_and!; try done.
  - apply constructor_types_ok.
  - by apply populate_spec.
Qed.

(** C2.  For every board size and every mine layout [g0], [populate]
    returns a grid of the same size in which a mine cell is still the
    mine symbol and every non-mine cell holds the number symbol whose
    index is the number of its in-bounds 8-neighbours that are mines,
    [spec_neighbour_mines], which is at most 8. *)
Theorem populate_counts_adjacent_mines opts g0 :
  let this := set_matrix (constructor opts) g0 in
  rect (rows this) (columns this) g0 ->
  exists p,
    populate this = Returns p
    /\ rect (rows this) (columns this) (matrix p)
    /\ forall x y s,
        cell_of g0 x y = Some s ->
        (s = mine (types this) ->
         cell_of (matrix p) x y = Some (mine (types this)))
        /\ (s <> mine (types this) ->
            spec_neighbour_mines this x y <= 8
            /\ cell_of (matrix p) x y
               = numbers (types this) !! spec_neighbour_mines this x y).
Proof.
  intros this Hrect. subst this.
  destruct (layout_board opts g0 Hrect) as (Hrect' & Hok & _ & Hpop).
  set (this := set_matrix (constructor opts) g0) in *.
  exists (populated_board this). split; [done|].
  split; [by apply rect_populated_grid|]. intros x y s Hs.
  rewrite cell_of_populated_board. change (matrix this) with g0.
  rewrite Hs. cbn [fmap option_fmap option_map]. unfold populated. split.
  - intros ->. by rewrite bool_decide_eq_true_2.
  - intros Hne. rewrite bool_decide_eq_false_2 by done.
    pose proof (spec_neighbour_mines_le this x y) as Hle.
    split; [done|]. unfold number.
    destruct (lookup_lt_is_Some_2 (numbers (types this))
                (spec_neighbour_mines this x y)) as [n Hn].
    { rewrite (numbers_nine _ Hok). lia. }
    by rewrite Hn.
Qed.

(** The grid of the test of [getNumberOfMines]: 9 x 9, mines at (2,3)
    and (1,1). *)
Definition test_layout : list (list string) :=
  Eval vm_compute in
    grid_set
      (grid_set (matrix (generateEmptyMatrix (constructor None)))
         2 3 "|| :boom: ||")
      1 1 "|| :boom: ||".

Lemma populate_counts_adjacent_mines_witness :
  rect 9 9 test_layout
  /\ exists p,
      populate (set_matrix (constructor None) test_layout) = Returns p
      /\ cell_of (matrix p) 2 2 = Some "|| :two: ||".
Proof.
  assert (Hrect : rect 9 9 test_layout)
    by (split; [reflexivity|repeat constructor]).
  split; [exact Hrect|].
  destruct (populate_counts_adjacent_mines None test_layout Hrect)
    as (p & Hp & _ & Hcells).
  exists p. split; [exact Hp|].
  destruct (Hcells 2 2 "|| :zero: ||" eq_refl) as [_ Hcount].
  destruct Hcount as [_ ->]; [discriminate|]. by vm_compute.
Defined.

(** ** Flood fill *)

(** A zero seed, the way [revealFirst] and the tests select it: a cell
    of the registry that shows the zero symbol. *)
Lemma zero_seed opts g0 c :
  let this := set_matrix (constructor opts) g0 in
  rect (rows this) (columns this) g0 ->
  c ∈ safeCells (populated_board this) ->
  cell_of (matrix (populated_board this)) (cell_x c) (cell_y c)
  = Some (number (populated_board this) 0) ->
  zero_cell this c.
Proof.
  intros this Hrect Hc Hzero. subst this.
  destruct (layout_board opts g0 Hrect) as (Hrect' & Hok & Hreg & _).
  apply populated_zero; [done| |done]. by apply registry_safe.
Qed.

(** C3.  On every populated grid, from every seed that holds the zero
    symbol, the recursive flood fill changes safe cells only, unmasking
    them: a changed cell is in the registry, is no mine of the layout,
    held a masked number symbol and now holds it unmasked, and lies in
    the 3 x 3 neighbourhood of a cell that a chain of zero cells, each
    in the neighbourhood of the one before, links to the seed. *)
Theorem flood_fill_unmasks_only_safe_cells opts g0 p c fuel this' :
  let this := set_matrix (constructor opts) g0 in
  rect (rows this) (columns this) g0 ->
  populate this = Returns p ->
  c ∈ safeCells p ->
  cell_of (matrix p) (cell_x c) (cell_y c) = Some (number p 0) ->
  revealSurroundings fuel c true p = Returns this' ->
  forall x y,
    cell_of (matrix this') x y <> cell_of (matrix p) x y ->
    {| cell_x := x; cell_y := y |} ∈ safeCells p
    /\ cell_of g0 x y <> Some (mine (types this))
    /\ (exists n, n <= 8
          /\ cell_of (matrix p) x y = Some (number p n)
          /\ cell_of (matrix this') x y = Some (slice_2_m2 (number p n)))
    /\ exists z, chain this c z /\ near z x y.
Proof.
  intros this Hrect Hpop Hc Hzero Hrun x y Hchanged. subst this.
  destruct (layout_board opts g0 Hrect) as (Hrect' & Hok & Hreg & Hpop').
  rewrite Hpop' in Hpop. injection Hpop as <-.
  pose proof (zero_seed opts g0 c Hrect Hc Hzero) as Hseed.
  set (this := set_matrix (constructor opts) g0) in *.
  pose proof (flood_fill_unmasks this Hrect' Hok fuel c
                (populated_board this)
                (partly_revealed_populated this) Hseed) as Hsat.
  rewrite Hrun in Hsat. destruct Hsat as (_ & _ & Hcells).
  destruct (Hcells x y) as [?|(Hnear & Hsafe & Hold & Hnew)]; [done|].
  split_and!.
  - by apply (registry_safe this).
  - destruct Hsafe as (s & Hs & Hne). change (matrix this) with g0 in Hs.
    congruence.
  - exists (spec_neighbour_mines this x y).
    split; [apply spec_neighbour_mines_le|]. done.
  - done.
Qed.

(** A 3 x 3 layout with its one mine at (0,0). *)
Definition corner_mine : list (list string) :=
  [["|| :boom: ||"; "|| :zero: ||"; "|| :zero: ||"];
   ["|| :zero: ||"; "|| :zero: ||"; "|| :zero: ||"];
   ["|| :zero: ||"; "|| :zero: ||"; "|| :zero: ||"]].

Definition corner_board : Minesweeper :=
  set_matrix (constructor (Some (options 3 3 1))) corner_mine.

Lemma flood_fill_unmasks_only_safe_cells_witness :
  rect 3 3 corner_mine
  /\ exists this',
      let c := {| cell_x := 2; cell_y := 2 |} in
      c ∈ safeCells (populated_board corner_board)
      /\ revealSurroundings 9 c true (populated_board corner_board)
         = Returns this'
      /\ cell_of (matrix this') 0 1 = Some " :one: "
      /\ {| cell_x := 0; cell_y := 1 |}
         ∈ safeCells (populated_board corner_board)
      /\ exists z, chain corner_board c z /\ near z 0 1.
Proof.
  assert (Hrect : rect 3 3 corner_mine)
    by (split; [reflexivity|repeat constructor]).
  split; [exact Hrect|].
  assert (Hpop : populate corner_board
                 = Returns (populated_board corner_board))
    by (vm_compute; reflexivity).
  assert (Hc : {| cell_x := 2; cell_y := 2 |}
               ∈ safeCells (populated_board corner_board))
    by (apply (list_elem_of_lookup_2 _ 7); vm_compute; reflexivity).
  assert (Hzero : cell_of (matrix (populated_board corner_board)) 2 2
                  = Some (number (populated_board corner_board) 0))
    by (vm_compute; reflexivity).
  eexists. cbv zeta. split; [exact Hc|].
  assert (Hrun : forall A B : Prop, (A -> B) -> A -> A /\ B) by tauto.
  apply Hrun; [|vm_compute; reflexivity]. clear Hrun. intros Hrun.
  split; [vm_compute; reflexivity|].
  destruct (flood_fill_unmasks_only_safe_cells (Some (options 3 3 1))
              corner_mine (populated_board corner_board)
              {| cell_x := 2; cell_y := 2 |} 9 _ Hrect
              Hpop Hc Hzero Hrun 0 1)
    as (Hsafe & _ & _ & Hchain).
  - vm_compute. discriminate.
  - split; [exact Hsafe|exact Hchain].
Defined.

(** C4.  On every populated grid, from every seed that holds the zero
    symbol, the recursive flood fill returns as soon as the fuel exceeds
    the number of characters on the board.  A cell ends either as it
    was, or unmasked once: its masked symbol without the bars, which is
    no spoiler any more, so the loop leaves it alone from then on, and
    which is not the zero symbol, so it is never taken as a seed
    again. *)
Theorem flood_fill_terminates opts g0 p c fuel :
  let this := set_matrix (constructor opts) g0 in
  rect (rows this) (columns this) g0 ->
  populate this = Returns p ->
  c ∈ safeCells p ->
  cell_of (matrix p) (cell_x c) (cell_y c) = Some (number p 0) ->
  ink (matrix p) < fuel ->
  exists this',
    revealSurroundings fuel c true p = Returns this'
    /\ forall x y s,
        cell_of (matrix p) x y = Some s ->
        cell_of (matrix this') x y = Some s
        \/ (includes "||" s = true
            /\ cell_of (matrix this') x y = Some (slice_2_m2 s)
            /\ includes "||" (slice_2_m2 s) = false
            /\ slice_2_m2 s <> number p 0).
Proof.
  intros this Hrect Hpop Hc Hzero Hfuel. subst this.
  destruct (layout_board opts g0 Hrect) as (Hrect' & Hok & Hreg & Hpop').
  rewrite Hpop' in Hpop. injection Hpop as <-.
  pose proof (zero_seed opts g0 c Hrect Hc Hzero) as Hseed.
  set (this := set_matrix (constructor opts) g0) in *.
  destruct (revealSurroundings_Returns fuel c true (populated_board this))
    as (this' & Hrun & _); [by apply rect_populated_grid|done|].
  exists this'. split; [done|]. intros x y s Hs.
  pose proof (flood_fill_unmasks this Hrect' Hok fuel c
                (populated_board this)
                (partly_revealed_populated this) Hseed) as Hsat.
  rewrite Hrun in Hsat. destruct Hsat as (_ & _ & Hcells).
  destruct (Hcells x y) as [E|(_ & _ & Hold & Hnew)].
  - left. by rewrite E.
  - right. assert (s = count_symbol this x y) as -> by congruence.
    pose proof (count_symbol_masked this Hok x y) as Hm.
    pose proof (count_symbol_revealed this Hok x y) as Hr.
    split_and!; try done. intros Heq.
    pose proof (number_masked (populated_board this) 0 Hok) as Hz.
    rewrite <- Heq, Hr in Hz. by specialize (Hz ltac:(lia)).
Qed.

Lemma flood_fill_terminates_witness :
  rect 3 3 corner_mine
  /\ exists this',
      revealSurroundings 200 {| cell_x := 2; cell_y := 2 |} true
        (populated_board corner_board)
      = Returns this'.
Proof.
  assert (Hrect : rect 3 3 corner_mine)
    by (split; [reflexivity|repeat constructor]).
  split; [exact Hrect|].
  assert (Hpop : populate corner_board
                 = Returns (populated_board corner_board))
    by (vm_compute; reflexivity).
  destruct (flood_fill_terminates (Some (options 3 3 1)) corner_mine
              (populated_board corner_board)
              {| cell_x := 2; cell_y := 2 |} 200 Hrect Hpop)
    as (this' & Hrun & _).
  - apply (list_elem_of_lookup_2 _ 7). vm_compute. reflexivity.
  - vm_compute. reflexivity.
  - vm_compute. lia.
  - exists this'. exact Hrun.
Defined.

(** ** The single first reveal *)

(** [!s.includes("||")], the test's count of revealed cells. *)
Definition is_unmasked (s : string) : bool := negb (includes "||" s).

(** [revealFirst] on the populated board [p] of the layout [g0]: it
    picks a registered cell, no mine of the layout, returns its
    coordinate after one draw, and leaves [p] with that one cell
    unmasked, whatever the fuel. *)
Definition reveals_one_cell (this p : Minesweeper)
    (o : outcome ((Z * Z) * Minesweeper * nat)) (k : nat) : Prop :=
  exists c s,
    c ∈ safeCells p
    /\ cell_of (matrix this) (cell_x c) (cell_y c)
       <> Some (mine (types this))
    /\ cell_of (matrix p) (cell_x c) (cell_y c) = Some s
    /\ o = Returns
             ((Z.of_nat (cell_x c), Z.of_nat (cell_y c)),
              set_matrix p
                (grid_set (matrix p) (cell_x c) (cell_y c) (slice_2_m2 s)),
              S k)
    /\ count_cells is_unmasked (matrix p) = 0
    /\ count_cells is_unmasked
         (grid_set (matrix p) (cell_x c) (cell_y c) (slice_2_m2 s)) = 1.

Lemma count_cells_pos_exists R C p m :
  rect R C m -> 0 < count_cells p m ->
  exists x y s, cell_of m x y = Some s /\ p s = true.
Proof.
  intros Hrect Hpos.
  destruct (count_cells_lt_exists R C (fun s => negb (p s)) m Hrect)
    as (x & y & s & Hs & Hp).
  - pose proof (weight_const R C m Hrect) as Htotal.
    rewrite (weight_ext _
      (fun s => (if p s then 1 else 0) + (if negb (p s) then 1 else 0)))
      in Htotal by (intros ? ? s _; by destruct (p s)).
    rewrite weight_plus in Htotal. unfold count_cells in *. lia.
  - exists x, y, s. split; [done|]. by destruct (p s).
Qed.

(** The populated board is all masked. *)
Lemma populated_board_masked this :
  types_ok (types this) ->
  count_cells is_unmasked (matrix (populated_board this)) = 0.
Proof.
  intros Hok. unfold count_cells.
  rewrite (weight_ext _ (fun _ => 0)).
  { unfold weight. induction (concat _); simpl; lia. }
  intros x y s. rewrite cell_of_populated_board.
  destruct (cell_of (matrix this) x y) as [s0|]; [|done]. simpl.
  intros [= <-]. unfold populated, is_unmasked. case_bool_decide.
  - by rewrite (mine_masked _ Hok).
  - rewrite number_masked; [done..|].
    pose proof (spec_neighbour_mines_le this x y). lia.
Qed.

(** On a 2 x 2 board with a mine no cell is a zero cell. *)
Lemma no_zero_cell_2x2 this :
  rect 2 2 (matrix this) -> rows this = 2 -> columns this = 2 ->
  0 < mine_count this -> forall c, ~ zero_cell this c.
Proof.
  intros Hrect HR HC Hmines c Hzero.
  destruct (count_cells_pos_exists 2 2 _ _ Hrect Hmines)
    as (mx & my & s & Hs & Hmine).
  apply bool_decide_eq_true in Hmine as ->.
  destruct (cell_of_lt _ _ _ _ _ _ Hrect Hs) as [Hmx Hmy].
  pose proof Hzero as [(s' & Hs' & _) _].
  destruct (cell_of_lt _ _ _ _ _ _ Hrect Hs') as [Hcx Hcy].
  destruct (zero_cell_surroundings this) with (c := c) (i := mx) (j := my)
    as (s'' & Hs'' & Hne); try done; try lia.
  - by rewrite HR, HC.
  - unfold near. lia.
  - congruence.
Qed.

(** C6.  On every populated board with a safe cell on which reveal-first
    is enabled, and either force-zero-start is disabled or no registered
    cell shows the zero symbol, [revealFirst] picks a cell of the
    registry, a safe cell, unmasks that one cell, runs no flood fill (it
    returns the same board whatever the fuel, even none) and returns the
    cell's coordinate; the board it leaves has exactly one unmasked
    cell.  In particular so on a 2 x 2 board with 1 mine, whatever
    force-zero-start is. *)
Theorem revealFirst_unmasks_one_safe_cell opts g0 p rng fuel k :
  let this := set_matrix (constructor opts) g0 in
  rect (rows this) (columns this) g0 ->
  unit_source rng ->
  populate this = Returns p ->
  revealFirstCell this = true ->
  (exists x y s, cell_of g0 x y = Some s /\ s <> mine (types this)) ->
  ((zeroFirstCell this = false
    \/ forall c, c ∈ safeCells p ->
                 cell_of (matrix p) (cell_x c) (cell_y c)
                 <> Some (number p 0)) ->
   reveals_one_cell this p (revealFirst fuel rng p k) k)
  /\ (rows this = 2 -> columns this = 2 -> mine_count this = 1 ->
      reveals_one_cell this p (revealFirst fuel rng p k) k).
Proof.
  intros this Hrect Hunit Hpop Hreveal Hsafe. subst this.
  destruct (layout_board opts g0 Hrect) as (Hrect' & Hok & Hreg & Hpop').
  rewrite Hpop' in Hpop. injection Hpop as <-.
  set (this := set_matrix (constructor opts) g0) in *.
  assert (Hsafe' : exists x y, safe_at this x y).
  { destruct Hsafe as (x & y & s & Hs & Hne). by exists x, y, s. }
  assert (Hone : (zeroFirstCell this = false
                  \/ forall c, ~ zero_cell this c) ->
    reveals_one_cell this (populated_board this)
      (revealFirst fuel rng (populated_board this) k) k).
  { intros Hbranch.
    destruct (revealFirst_cases this Hok fuel rng k Hreg Hunit Hsafe')
      as [[Hoff _]|[(_ & _ & c & Hc & ->)|(_ & Hon & c & _ & Hz & _)]].
    - congruence.
    - pose proof (proj1 (registry_safe this c Hreg) Hc) as Hsafe_c.
      exists c, (count_symbol this (cell_x c) (cell_y c)).
      split_and!; try done.
      + destruct Hsafe_c as (s & Hs & Hne). congruence.
      + by apply populated_safe.
      + by apply populated_board_masked.
      + pose proof (weight_grid_set
          (fun s => if is_unmasked s then 1 else 0)
          (matrix (populated_board this)) (cell_x c) (cell_y c)
          (slice_2_m2 (count_symbol this (cell_x c) (cell_y c))) _
          (populated_safe this _ _ Hsafe_c)) as Hw.
        cbv beta in Hw.
        assert (is_unmasked (count_symbol this (cell_x c) (cell_y c))
                = false) as Hm
          by (unfold is_unmasked; by rewrite count_symbol_masked).
        assert (is_unmasked
                  (slice_2_m2 (count_symbol this (cell_x c) (cell_y c)))
                = true) as Hr
          by (unfold is_unmasked; by rewrite count_symbol_revealed).
        rewrite Hm, Hr in Hw.
        pose proof (populated_board_masked this Hok) as Hzero.
        unfold count_cells in *. lia.
    - destruct Hbranch as [Hoff|Hnone]; [congruence|].
      by destruct (Hnone c). }
  split.
  - intros [Hoff|Hnone]; apply Hone; [by left|right].
    intros c Hz. apply (Hnone c).
    + apply registry_safe; [done|]. apply Hz.
    + apply populated_zero; [done| |done]. apply Hz.
  - intros HR HC Hmines. apply Hone. right.
    pose proof Hrect' as Hrect2. rewrite HR, HC in Hrect2.
    apply no_zero_cell_2x2; [done|done|done|lia].
Qed.

(** A 2 x 2 layout with its one mine at (0,0), reveal-first enabled and
    force-zero-start left enabled. *)
Definition reveal_2x2 : Opts.t :=
  Opts.Make (Some 2) (Some 2) (Some 1) None (Some true) None None None None.

Definition mine_2x2 : list (list string) :=
  [["|| :boom: ||"; "|| :zero: ||"]; ["|| :zero: ||"; "|| :zero: ||"]].

Lemma revealFirst_unmasks_one_safe_cell_witness :
  rect 2 2 mine_2x2 /\ unit_source half_source
  /\ let this := set_matrix (constructor (Some reveal_2x2)) mine_2x2 in
     exists p,
       populate this = Returns p
       /\ reveals_one_cell this p (revealFirst 0 half_source p 0) 0.
Proof.
  assert (Hrect : rect 2 2 mine_2x2)
    by (split; [reflexivity|repeat constructor]).
  assert (Hunit : unit_source half_source) by (intros k; simpl; lia).
  split; [exact Hrect|]. split; [exact Hunit|]. cbv zeta.
  assert (Hpop : populate (set_matrix (constructor (Some reveal_2x2))
                             mine_2x2)
                 = Returns
                     (populated_board
                        (set_matrix (constructor (Some reveal_2x2))
                           mine_2x2)))
    by (vm_compute; reflexivity).
  eexists. split; [exact Hpop|].
  apply (revealFirst_unmasks_one_safe_cell (Some reveal_2x2) mine_2x2
           _ half_source 0 0 Hrect Hunit Hpop eq_refl).
  - exists 0, 1, "|| :zero: ||".
    split; [reflexivity|vm_compute; discriminate].
  - reflexivity.
  - reflexivity.
  - vm_compute. reflexivity.
Defined.

(** * Further properties of the class *)

(** ** What [revealSurroundings] does on any board *)

Lemma foldM_inv {A S} (f : S -> A -> outcome S) (I : S -> Prop)
    (P : A -> Prop) l s s' :
  Forall P l -> foldM f s l = Returns s' -> I s ->
  (forall s a s1, P a -> f s a = Returns s1 -> I s -> I s1) ->
  I s'.
Proof.
  intros Hl Hrun Hs Hstep. revert s Hrun Hs.
  induction Hl as [|a l Ha _ IH]; intros s Hrun Hs; simpl in Hrun.
  { by injection Hrun as <-. }
  destruct (f s a) as [s1| | |] eqn:Hf; try done. simpl in Hrun.
  eapply IH; [done|]. by eapply Hstep.
Qed.

(** A step of the inner loop that returns has read an existing cell. *)
Lemma reveal_cell_inv this zs i j this' zs' :
  reveal_cell (this, zs) (i, j) = Returns (this', zs') ->
  exists s,
    cell_of (matrix this) i j = Some s
    /\ (this', zs')
       = if includes "||" s
         then (set_matrix this (grid_set (matrix this) i j (slice_2_m2 s)),
               if bool_decide (s = number this 0)
               then zs ++ [{| cell_x := i; cell_y := j |}] else zs)
         else (this, zs).
Proof.
  intros Hrun. destruct (cell_of (matrix this) i j) as [s|] eqn:Hs.
  - rewrite (reveal_cell_spec _ _ _ _ _ Hs) in Hrun.
    exists s. split; [done|]. by injection Hrun.
  - exfalso. unfold reveal_cell, cell, cell_of in *.
    destruct (matrix this !! i) as [row|]; [|done].
    by rewrite Hs in Hrun.
Qed.

(** The board is as [this] but for its grid, and every cell that was no
    spoiler in [this] still holds what it held. *)
Definition keeps_unmasked (this this' : Minesweeper) : Prop :=
  same_config this this'
  /\ length (matrix this') = length (matrix this)
  /\ forall x y s,
      cell_of (matrix this) x y = Some s -> includes "||" s = false ->
      cell_of (matrix this') x y = Some s.

Lemma keeps_unmasked_refl this : keeps_unmasked this this.
Proof. split; [apply same_config_refl|]. by split. Qed.

Lemma keeps_unmasked_trans a b c :
  keeps_unmasked a b -> keeps_unmasked b c -> keeps_unmasked a c.
Proof.
  intros (Hc1 & Hl1 & H1) (Hc2 & Hl2 & H2).
  split; [by eapply same_config_trans|]. split; [congruence|]. eauto.
Qed.

Lemma length_grid_set m x y s : length (grid_set m x y s) = length m.
Proof.
  unfold grid_set. destruct (m !! x); [|done]. by rewrite length_insert.
Qed.

Lemma reveal_cell_keeps_unmasked this zs i j this' zs' :
  reveal_cell (this, zs) (i, j) = Returns (this', zs') ->
  keeps_unmasked this this'.
Proof.
  intros (s & Hs & Heq)%reveal_cell_inv.
  destruct (includes "||" s) eqn:Hmask; injection Heq as -> _;
    [|apply keeps_unmasked_refl].
  split; [done|]. split; [apply length_grid_set|].
  intros x y s' Hs' Hplain. simpl.
  rewrite cell_of_grid_set_ne; [done|]. intros [= -> ->]. congruence.
Qed.

Lemma revealSurroundings_keeps_unmasked fuel : forall c recurse this this',
  revealSurroundings fuel c recurse this = Returns this' ->
  keeps_unmasked this this'.
Proof.
  induction fuel as [|fuel IH]; intros c recurse this this' Hrun; [done|].
  simpl in Hrun.
  destruct (foldM reveal_cell (this, []) (surroundings this c))
    as [[this1 zs]| | |] eqn:Hblock; try done.
  simpl in Hrun.
  assert (H1 : keeps_unmasked this this1).
  { apply (foldM_inv reveal_cell (fun st => keeps_unmasked this st.1)
             (fun _ => True) _ _ _ (Forall_true _ _ (fun _ => I)) Hblock).
    - apply keeps_unmasked_refl.
    - intros [th zs1] [i j] [th' zs'] _ Hstep Hth. simpl in *.
      eapply keeps_unmasked_trans; [done|].
      by eapply reveal_cell_keeps_unmasked. }
  destruct recurse; [|by injection Hrun as <-].
  eapply keeps_unmasked_trans; [done|].
  apply (foldM_inv _ (fun th => keeps_unmasked this1 th)
           (fun _ => True) _ _ _ (Forall_true _ _ (fun _ => I)) Hrun).
  - apply keeps_unmasked_refl.
  - intros th z th' _ Hstep Hth.
    eapply keeps_unmasked_trans; [done|]. by eapply IH.
Qed.

(** X1.  Revealing is monotonic on every board, from every seed, with or
    without recursion: when [revealSurroundings] returns, only the grid
    has changed, it has as many rows as before, and a cell that was
    unmasked (held no ["||"]) holds the very string it held. *)
Theorem revealSurroundings_never_remasks fuel c recurse this this' :
  revealSurroundings fuel c recurse this = Returns this' ->
  same_config this this'
  /\ length (matrix this') = length (matrix this)
  /\ forall x y s,
      cell_of (matrix this) x y = Some s -> is_unmasked s = true ->
      cell_of (matrix this') x y = Some s.
Proof.
  intros (Hcfg & Hlen & Hcells)%revealSurroundings_keeps_unmasked.
  split; [done|]. split; [done|]. intros x y s Hs Hplain.
  apply Hcells; [done|]. unfold is_unmasked in Hplain.
  by destruct (includes "||" s).
Qed.

(** The board of the example run of C9, whose cell (1,2) is unmasked. *)
Definition one_revealed : Minesweeper :=
  Eval vm_compute in
    match start 3 late_half_source (constructor (Some reveal_3x3)) 0 with
    | Returns (_, this, _) => this
    | _ => constructor None
    end.

Lemma revealSurroundings_never_remasks_witness :
  exists this',
    revealSurroundings 1 {| cell_x := 1; cell_y := 1 |} false one_revealed
    = Returns this'
    /\ cell_of (matrix this') 1 2 = Some " :one: ".
Proof.
  eexists.
  assert (Hrun : forall A B : Prop, (A -> B) -> A -> A /\ B) by tauto.
  apply Hrun; [|vm_compute; reflexivity]. clear Hrun. intros Hrun.
  destruct (revealSurroundings_never_remasks _ _ _ _ _ Hrun)
    as (_ & _ & Hcells).
  apply Hcells; vm_compute; reflexivity.
Defined.

(** ** One expansion step *)

Lemma NoDup_list_prod {A B} (l : list A) (k : list B) :
  NoDup l -> NoDup k -> NoDup (list_prod l k).
Proof.
  intros Hl Hk. induction Hl as [|a l Ha _ IH]; simpl; [constructor|].
  apply NoDup_app. split_and!; [|intros [a' b']|done].
  - apply (NoDup_fmap_2 _ _ Hk).
  - intros (b & [= -> ->] & _)%list_elem_of_fmap Hin.
    apply list_elem_of_In, in_prod_iff in Hin as [Hin _].
    by apply list_elem_of_In in Hin.
Qed.

Lemma NoDup_surroundings this c : NoDup (surroundings this c).
Proof. apply NoDup_list_prod; apply NoDup_seq. Qed.

(** What a cell holds after the loop has passed over it. *)
Definition slice_if_masked (s : string) : string :=
  if includes "||" s then slice_2_m2 s else s.

(** The inner loop over distinct existing cells: a cell of the list is
    sliced when it is a spoiler, every other cell is as it was. *)
Lemma reveal_cells_pointwise l : forall this zs,
  NoDup l ->
  Forall (fun ij => is_Some (cell_of (matrix this) ij.1 ij.2)) l ->
  exists this' zs',
    foldM reveal_cell (this, zs) l = Returns (this', zs')
    /\ same_config this this'
    /\ forall x y s,
        cell_of (matrix this) x y = Some s ->
        cell_of (matrix this') x y
        = Some (if bool_decide ((x, y) ∈ l) then slice_if_masked s else s).
Proof.
  induction l as [|[i j] l IH]; intros this zs Hnd Hall.
  { exists this, zs. split; [done|]. split; [apply same_config_refl|].
    intros x y s Hs. rewrite bool_decide_eq_false_2; [done|].
    apply not_elem_of_nil. }
  apply NoDup_cons in Hnd as [Hij Hnd].
  apply Forall_cons in Hall as [[s0 Hs0] Hall]. simpl in Hs0.
  cbn [foldM]. rewrite (reveal_cell_spec _ _ _ _ _ Hs0). cbn [bind].
  set (st := if includes "||" s0 then _ else _).
  assert (Hst : same_config this st.1
    /\ forall x y s,
        cell_of (matrix this) x y = Some s ->
        cell_of (matrix st.1) x y
        = Some (if bool_decide ((x, y) = (i, j))
                then slice_if_masked s else s)).
  { unfold st, slice_if_masked. destruct (includes "||" s0) eqn:Hm; simpl.
    - split; [done|]. intros x y s Hs. case_bool_decide as Heq.
      + injection Heq as -> ->. assert (s = s0) as -> by congruence.
        rewrite Hm. by apply (cell_of_grid_set_eq _ _ _ _ s0).
      + by rewrite cell_of_grid_set_ne.
    - split; [apply same_config_refl|]. intros x y s Hs.
      case_bool_decide as Heq; [|done].
      injection Heq as -> ->. assert (s = s0) as -> by congruence.
      by rewrite Hm. }
  destruct Hst as [Hcfg Hcells]. destruct st as [this1 zs1]. simpl in *.
  destruct (IH this1 zs1 Hnd) as (this' & zs' & Hrun & Hcfg' & Hcells').
  { eapply Forall_impl; [exact Hall|]. intros [x y] [s Hs]. simpl in *.
    rewrite (Hcells _ _ _ Hs). eauto. }
  exists this', zs'. split; [done|].
  split; [by eapply same_config_trans|]. intros x y s Hs.
  rewrite (Hcells' x y _ (Hcells x y s Hs)). f_equal.
  destruct (decide ((x, y) = (i, j))) as [Heq|Hne].
  - rewrite (bool_decide_eq_true_2 _ Heq).
    rewrite (bool_decide_eq_false_2 ((x, y) ∈ l)) by (by rewrite Heq).
    rewrite bool_decide_eq_true_2; [done|]. rewrite Heq. by left.
  - rewrite (bool_decide_eq_false_2 _ Hne).
    apply (f_equal (fun b : bool => if b then _ else _)).
    apply bool_decide_ext. rewrite elem_of_cons. tauto.
Qed.

(** X2.  One expansion step, [revealSurroundings(c, false)], on a grid
    of [rows] x [columns] cells needs no more fuel than one call and
    changes nothing but the grid: a cell in the 3 x 3 neighbourhood of
    [c] that is a spoiler loses its first two and last two characters,
    and every other cell, in the neighbourhood or not, is as it was. *)
Theorem reveal_step_exact fuel c this :
  rect (rows this) (columns this) (matrix this) ->
  exists this',
    revealSurroundings (S fuel) c false this = Returns this'
    /\ same_config this this'
    /\ forall x y s,
        cell_of (matrix this) x y = Some s ->
        cell_of (matrix this') x y
        = Some (if bool_decide (near c x y) then slice_if_masked s else s).
Proof.
  intros Hrect. cbn [revealSurroundings].
  destruct (reveal_cells_pointwise (surroundings this c) this [])
    as (this' & zs & -> & Hcfg & Hcells).
  { apply NoDup_surroundings. }
  { apply Forall_forall. intros [i j] Hij%list_elem_of_In.
    apply elem_of_surroundings in Hij. apply (rect_cell _ _ _ _ _ Hrect);
      simpl; lia. }
  exists this'. split; [done|]. split; [done|]. intros x y s Hs.
  rewrite (Hcells x y s Hs).
  apply (f_equal (fun b : bool => Some (if b then _ else _))).
  apply bool_decide_ext. rewrite list_elem_of_In, elem_of_surroundings.
  destruct (cell_of_lt _ _ _ _ _ _ Hrect Hs). unfold near. lia.
Qed.

(** A seed two or more rows below the grid, or two or more columns to
    its right, has an empty neighbourhood. *)
Lemma surroundings_outside this c :
  rows this + 1 <= cell_x c \/ columns this + 1 <= cell_y c ->
  surroundings this c = [].
Proof.
  intros Hout. unfold surroundings.
  destruct Hout as [Hx|Hy].
  - by replace (rows this `min` (cell_x c + 2) - (cell_x c - 1)) with 0
      by lia.
  - replace (columns this `min` (cell_y c + 2) - (cell_y c - 1)) with 0
      by lia.
    simpl. induction (seq _ _); [done|]. done.
Qed.

(** The grid of the test of [revealSurroundings]: 5 x 5, no mine. *)
Definition empty_5x5 : Minesweeper :=
  generateEmptyMatrix
    (constructor
       (Some (Opts.Make (Some 5) (Some 5) None None None None (Some false)
                None None))).

Lemma reveal_step_exact_witness :
  rect 5 5 (matrix empty_5x5)
  /\ exists this',
      revealSurroundings 1 {| cell_x := 2; cell_y := 2 |} false empty_5x5
      = Returns this'
      /\ cell_of (matrix this') 1 3 = Some ":zero:"
      /\ cell_of (matrix this') 0 4 = Some "||:zero:||"
      /\ count_cells is_unmasked (matrix this') = 9.
Proof.
  assert (Hrect : rect 5 5 (matrix empty_5x5))
    by (split; [vm_compute; reflexivity|vm_compute; repeat constructor]).
  split; [exact Hrect|].
  destruct (reveal_step_exact 0 {| cell_x := 2; cell_y := 2 |} empty_5x5
              Hrect) as (this' & Hrun & _ & Hcells).
  exists this'. split; [exact Hrun|].
  split; [|split].
  - rewrite (Hcells 1 3 "||:zero:||"); vm_compute; reflexivity.
  - rewrite (Hcells 0 4 "||:zero:||"); vm_compute; reflexivity.
  - revert Hrun. vm_compute. intros [= <-]. reflexivity.
Defined.

(** X3.  A seed that lies two or more rows below the last row, or two
    or more columns right of the last column, has no cell of the grid in
    its neighbourhood: [revealSurroundings] returns the object as it is,
    with or without recursion, whatever the grid holds. *)
Theorem reveal_far_outside fuel c recurse this :
  rows this + 1 <= cell_x c \/ columns this + 1 <= cell_y c ->
  revealSurroundings (S fuel) c recurse this = Returns this.
Proof.
  intros Hout. cbn [revealSurroundings].
  rewrite (surroundings_outside this c Hout). simpl. by destruct recurse.
Qed.

Lemma reveal_far_outside_witness :
  revealSurroundings 1 {| cell_x := 6; cell_y := 0 |} true empty_5x5
  = Returns empty_5x5.
Proof.
  apply (reveal_far_outside 0 {| cell_x := 6; cell_y := 0 |} true empty_5x5).
  left. vm_compute. lia.
Defined.

(** ** Flood fill: everything it must unmask *)

Section FloodFillComplete.
Variable b : Minesweeper.
Hypothesis b_rect : rect (rows b) (columns b) (matrix b).
Hypothesis b_types : types_ok (types b).

(** The safe cell [(x, y)] shows its count symbol unmasked. *)
Definition revealed_at (this : Minesweeper) (x y : nat) : Prop :=
  cell_of (matrix this) x y = Some (slice_2_m2 (count_symbol b x y)).

(** Every cell of the grid in the neighbourhood of [z] is unmasked. *)
Definition closed (this : Minesweeper) (z : SafeCell) : Prop :=
  forall i j, near z i j -> i < rows b -> j < columns b ->
              revealed_at this i j.

Lemma revealed_at_stays Q this this' x y :
  unmasking b Q this this' -> revealed_at this x y -> revealed_at this' x y.
Proof.
  intros (_ & _ & H) Hr. unfold revealed_at in *.
  destruct (H x y) as [->|(_ & _ & Hold & _)]; [done|].
  rewrite Hr in Hold. injection Hold as Hold.
  pose proof (count_symbol_masked b b_types x y) as Hm.
  rewrite <- Hold, (count_symbol_revealed b b_types) in Hm. done.
Qed.

Lemma closed_stays Q this this' z :
  unmasking b Q this this' -> closed this z -> closed this' z.
Proof. intros Hun Hc i j ???. eapply revealed_at_stays; eauto. Qed.

(** A cell that an unmasking within [Q] has newly unmasked lies in [Q]. *)
Lemma newly_revealed Q this this' x y :
  unmasking b Q this this' ->
  revealed_at this' x y -> revealed_at this x y \/ Q x y.
Proof.
  intros (_ & _ & H) Hr. unfold revealed_at in *.
  destruct (H x y) as [E|(HQ & _)]; [left; congruence|by right].
Qed.

(** One step of the inner loop around a zero cell unmasks the cell, and
    queues it when it is a zero cell that was masked. *)
Lemma reveal_cell_zero_done this zs c i j :
  partly_revealed b this -> zero_cell b c ->
  In (i, j) (surroundings this c) ->
  exists this' zs',
    reveal_cell (this, zs) (i, j) = Returns (this', zs')
    /\ unmasking b (near c) this this'
    /\ revealed_at this' i j
    /\ (forall x y, (x, y) <> (i, j) ->
                    cell_of (matrix this') x y = cell_of (matrix this) x y)
    /\ (forall z, z ∈ zs -> z ∈ zs')
    /\ (forall z, z ∈ zs' -> z ∈ zs \/ zero_cell b z)
    /\ (zero_cell b {| cell_x := i; cell_y := j |} ->
        ~ revealed_at this i j ->
        {| cell_x := i; cell_y := j |} ∈ zs').
Proof.
  intros Hpr Hzero Hij.
  destruct (partly_revealed_config _ _ Hpr) as (HR & HC & _ & Hnum).
  apply elem_of_surroundings in Hij. rewrite HR, HC in Hij.
  assert (Hnear : near c i j) by (unfold near; lia).
  assert (Hsafe : safe_at b i j)
    by (apply (zero_cell_surroundings b b_rect c); [done..|lia|lia]).
  destruct (partly_revealed_safe _ _ _ _ Hpr Hsafe) as [Hc|Hc];
    rewrite (reveal_cell_spec _ _ _ _ _ Hc).
  - rewrite (count_symbol_masked b b_types). eexists _, _.
    split; [done|]. split_and!.
    + split; [done|]. split; [by intros; apply rect_grid_set|].
      intros x y. simpl.
      destruct (decide ((x, y) = (i, j))) as [[= -> ->]|Hne].
      * right. split_and!; try done.
        by apply (cell_of_grid_set_eq _ _ _ _ _ Hc).
      * left. by apply cell_of_grid_set_ne.
    + unfold revealed_at. simpl. by apply (cell_of_grid_set_eq _ _ _ _ _ Hc).
    + intros x y Hne. simpl. by apply cell_of_grid_set_ne.
    + intros z Hz. case_bool_decide; [|done]. apply elem_of_app. by left.
    + intros z Hz. case_bool_decide as Hsym; [|by left].
      apply elem_of_app in Hz as [?|Hz%list_elem_of_singleton];
        [by left|right].
      subst z. split; [done|]. simpl.
      rewrite Hnum in Hsym. unfold count_symbol in Hsym.
      eapply number_inj; [done| |lia|done].
      pose proof (spec_neighbour_mines_le b i j). lia.
    + intros [_ Hz] _. simpl in Hz.
      rewrite bool_decide_eq_true_2.
      * apply elem_of_app. right. by apply list_elem_of_singleton.
      * rewrite Hnum. unfold count_symbol. by rewrite Hz.
  - rewrite (count_symbol_revealed b b_types). eexists _, _.
    split; [done|]. split_and!; try done.
    + apply unmasking_refl.
    + by left.
Qed.

(** The inner loop over cells of the neighbourhood of a zero cell. *)
Lemma reveal_cells_zero_done c l : forall this zs,
  partly_revealed b this -> zero_cell b c ->
  (forall ij, In ij l -> In ij (surroundings this c)) ->
  exists this' zs',
    foldM reveal_cell (this, zs) l = Returns (this', zs')
    /\ unmasking b (near c) this this'
    /\ (forall i j, In (i, j) l -> revealed_at this' i j)
    /\ (forall z, z ∈ zs -> z ∈ zs')
    /\ (forall z, z ∈ zs' -> z ∈ zs \/ zero_cell b z)
    /\ (forall i j, In (i, j) l ->
          zero_cell b {| cell_x := i; cell_y := j |} ->
          ~ revealed_at this i j ->
          {| cell_x := i; cell_y := j |} ∈ zs').
Proof.
  induction l as [|[i j] l IH]; intros this zs Hpr Hzero Hsub.
  { exists this, zs. split; [done|]. split; [apply unmasking_refl|].
    split_and!; try done. by intros; left. }
  destruct (reveal_cell_zero_done this zs c i j Hpr Hzero)
    as (th1 & zs1 & Hstep & Hun1 & Hrev1 & Hsame1 & Hkeep1 & Hnew1 & Hq1).
  { apply Hsub. by left. }
  assert (Hpr1 : partly_revealed b th1).
  { eapply unmasking_trans; [done|done|].
    eapply unmasking_mono; [|done]. done. }
  destruct (IH th1 zs1 Hpr1 Hzero)
    as (th' & zs' & Hrun & Hun' & Hrev & Hkeep & Hnew & Hq).
  { intros ij Hin. destruct Hun1 as (Hcfg & _).
    destruct (same_config_fields _ _ Hcfg) as (HR' & HC' & _).
    destruct ij as [x y]. apply elem_of_surroundings.
    specialize (Hsub (x, y) (or_intror Hin)).
    apply elem_of_surroundings in Hsub. by rewrite HR', HC'. }
  exists th', zs'. cbn [foldM]. rewrite Hstep. cbn [bind].
  split; [done|]. split; [by eapply unmasking_trans|]. split_and!.
  - intros x y [[= -> ->]|Hin]; [|by apply Hrev].
    by eapply revealed_at_stays.
  - intros z Hz. by apply Hkeep, Hkeep1.
  - intros z Hz. destruct (Hnew z Hz) as [Hz1|?]; [|by right].
    apply (Hnew1 z Hz1).
  - intros x y Hin Hz Hnr.
    destruct (decide ((x, y) = (i, j))) as [[= -> ->]|Hne].
    + by apply Hkeep, Hq1.
    + destruct Hin as [[= -> ->]|Hin]; [done|].
      apply Hq; [done|done|]. unfold revealed_at in *.
      by rewrite (Hsame1 x y Hne).
Qed.

(** The two nested loops around a zero cell unmask its whole
    neighbourhood and queue the zero cells of it that were masked. *)
Lemma reveal_block_zero_done this c :
  partly_revealed b this -> zero_cell b c ->
  exists this1 zs,
    foldM reveal_cell (this, []) (surroundings this c)
    = Returns (this1, zs)
    /\ unmasking b (near c) this this1
    /\ closed this1 c
    /\ Forall (zero_cell b) zs
    /\ forall z, zero_cell b z -> near c (cell_x z) (cell_y z) ->
                 ~ revealed_at this (cell_x z) (cell_y z) -> z ∈ zs.
Proof.
  intros Hpr Hzero.
  destruct (partly_revealed_config _ _ Hpr) as (HR & HC & _).
  destruct (reveal_cells_zero_done c (surroundings this c) this []
              Hpr Hzero)
    as (this1 & zs & Hrun & Hun & Hrev & _ & Hnew & Hq); [done|].
  exists this1, zs. split; [done|]. split; [done|]. split_and!.
  - intros i j (H1 & H2 & H3 & H4) Hi Hj. apply Hrev.
    apply elem_of_surroundings. rewrite HR, HC. lia.
  - apply Forall_forall. intros z Hz.
    destruct (Hnew z Hz) as [?%elem_of_nil|?]; done.
  - intros [zx zy] Hz (H1 & H2 & H3 & H4) Hnr. simpl in *.
    apply (Hq zx zy); [|done|done].
    apply elem_of_surroundings. rewrite HR, HC.
    destruct Hz as [(s & Hs & _) _]. simpl in Hs.
    destruct (cell_of_lt _ _ _ _ _ _ b_rect Hs). lia.
Qed.
(** The flood fill leaves no unmasked zero cell with a masked
    neighbour, beyond those [P] that were already pending. *)
Lemma flood_fill_settles fuel : forall c this this' (P : SafeCell -> Prop),
  partly_revealed b this -> zero_cell b c ->
  (forall z, zero_cell b z -> revealed_at this (cell_x z) (cell_y z) ->
             z = c \/ P z \/ closed this z) ->
  revealSurroundings fuel c true this = Returns this' ->
  partly_revealed b this'
  /\ closed this' c
  /\ forall z, zero_cell b z -> revealed_at this' (cell_x z) (cell_y z) ->
               P z \/ closed this' z.
Proof.
  induction fuel as [|fuel IH]; intros c this this' P Hpr Hzero Hpre Hrun;
    [done|].
  cbn [revealSurroundings] in Hrun.
  destruct (reveal_block_zero_done this c Hpr Hzero)
    as (this1 & zs & Hblock & Hun1 & Hclosed1 & Hzs & Hq).
  rewrite Hblock in Hrun. cbn [bind] in Hrun.
  assert (Hpr1 : partly_revealed b this1).
  { eapply unmasking_trans; [done|done|].
    eapply unmasking_mono; [|done]. done. }
  assert (Hpre1 : forall z, zero_cell b z ->
    revealed_at this1 (cell_x z) (cell_y z) ->
    z ∈ zs \/ (z = c \/ P z) \/ closed this1 z).
  { intros z Hz Hr1.
    destruct (decide (cell_of (matrix this) (cell_x z) (cell_y z)
                      = Some (slice_2_m2
                                (count_symbol b (cell_x z) (cell_y z)))))
      as [Hr|Hnr].
    - destruct (Hpre z Hz Hr) as [->|[?|Hcl]]; [tauto|tauto|].
      right. right. by apply (closed_stays _ _ _ _ Hun1).
    - left. apply Hq; [done| |done].
      destruct (newly_revealed _ _ _ _ _ Hun1 Hr1); done. }
  assert (Hfold : forall zs th th' (P' : SafeCell -> Prop),
    partly_revealed b th -> Forall (zero_cell b) zs ->
    (forall z, zero_cell b z -> revealed_at th (cell_x z) (cell_y z) ->
               z ∈ zs \/ P' z \/ closed th z) ->
    foldM (fun th z => revealSurroundings fuel z true th) th zs
    = Returns th' ->
    unmasking b (fun _ _ => True) th th'
    /\ forall z, zero_cell b z -> revealed_at th' (cell_x z) (cell_y z) ->
                 P' z \/ closed th' z).
  { clear dependent zs. clear Hpre.
    induction zs as [|z zs IHzs]; intros th th' P' Hth Hzs Hpre Hrun.
    { injection Hrun as <-. split; [apply unmasking_refl|].
      intros z Hz Hr. destruct (Hpre z Hz Hr) as [?%elem_of_nil|?]; done. }
    cbn [foldM] in Hrun.
    destruct (revealSurroundings fuel z true th) as [th1| | |] eqn:Hz1;
      try done.
    cbn [bind] in Hrun.
    apply Forall_cons in Hzs as [Hz Hzs].
    destruct (IH z th th1 (fun w => w ∈ zs \/ P' w) Hth Hz)
      as (Hth1 & _ & Hpost); [|done|].
    { intros w Hw Hr.
      destruct (Hpre w Hw Hr) as [[->|?]%elem_of_cons|[?|?]]; tauto. }
    pose proof (flood_fill_unmasks b b_rect b_types fuel z th Hth Hz)
      as Hun. rewrite Hz1 in Hun. simpl in Hun.
    destruct (IHzs th1 th' P' Hth1 Hzs) as (Hun' & Hpost'); [|done|].
    { intros w Hw Hr. destruct (Hpost w Hw Hr) as [[?|?]|?]; tauto. }
    split; [|done].
    eapply unmasking_trans; [done| |done].
    eapply unmasking_mono; [|done]. done. }
  destruct (Hfold zs this1 this' (fun z => z = c \/ P z) Hpr1 Hzs Hpre1 Hrun)
    as (Hun' & Hpost).
  split; [by eapply unmasking_trans|].
  split; [by apply (closed_stays _ _ _ _ Hun')|].
  intros z Hz Hr. destruct (Hpost z Hz Hr) as [[->|?]|?]; [|tauto|tauto].
  right. by apply (closed_stays _ _ _ _ Hun').
Qed.

(** Cells in the neighbourhood of a cell of the grid that a settled
    board shows around the zero cells chained to a closed seed. *)
Lemma settled_chain this c z :
  (forall w, zero_cell b w -> revealed_at this (cell_x w) (cell_y w) ->
             closed this w) ->
  chain b c z -> closed this c -> closed this z.
Proof.
  intros Hsettled. induction 1 as [c|c z z' Hnear Hz _ IH]; [done|].
  intros Hc. apply IH, Hsettled; [done|]. apply Hc; [done|..].
  - destruct Hz as [(s & Hs & _) _].
    by destruct (cell_of_lt _ _ _ _ _ _ b_rect Hs).
  - destruct Hz as [(s & Hs & _) _].
    by destruct (cell_of_lt _ _ _ _ _ _ b_rect Hs).
Qed.

End FloodFillComplete.

(** On the populated board no safe cell is unmasked. *)
Lemma populated_not_revealed b x y :
  types_ok (types b) -> safe_at b x y ->
  ~ revealed_at b (populated_board b) x y.
Proof.
  intros Htypes Hsafe Hr. unfold revealed_at in Hr.
  rewrite (populated_safe b _ _ Hsafe) in Hr. injection Hr as Hr.
  pose proof (count_symbol_masked b Htypes x y) as Hm.
  by rewrite Hr, (count_symbol_revealed b Htypes) in Hm.
Qed.

(** After the seed alone was unmasked, no other safe cell is. *)
Lemma unmask_one_revealed b c x y :
  types_ok (types b) -> safe_at b x y ->
  revealed_at b (unmask_one b c) x y -> (x, y) = (cell_x c, cell_y c).
Proof.
  intros Htypes Hsafe Hr.
  destruct (decide ((x, y) = (cell_x c, cell_y c))) as [|Hne]; [done|].
  unfold revealed_at, unmask_one in Hr. cbn [matrix set_matrix] in Hr.
  rewrite cell_of_grid_set_ne in Hr by done.
  by destruct (populated_not_revealed b x y Htypes Hsafe).
Qed.

(** X4.  Started at a zero cell [c] of the populated board, or of that
    board with the one cell [c] unmasked as [revealFirst] leaves it, a
    recursive flood fill that returns has unmasked every cell of the
    grid in the neighbourhood of [c] and of every zero cell that a
    sequence of neighbouring zero cells links to [c]: each such cell
    shows its count symbol without the bars. *)
Theorem flood_fill_reaches_chained_cells b fuel c this this' :
  rect (rows b) (columns b) (matrix b) -> types_ok (types b) ->
  zero_cell b c ->
  this = populated_board b \/ this = unmask_one b c ->
  revealSurroundings fuel c true this = Returns this' ->
  forall z x y,
    chain b c z -> near z x y -> x < rows b -> y < columns b ->
    cell_of (matrix this') x y = Some (slice_2_m2 (count_symbol b x y)).
Proof.
  intros Hrect Htypes Hzero Hstart Hrun z x y Hchain Hnear Hx Hy.
  assert (Hpr : partly_revealed b this).
  { destruct Hstart as [->| ->];
      [apply partly_revealed_populated|apply unmask_one_partly, Hzero]. }
  destruct (flood_fill_settles b Hrect Htypes fuel c this this'
              (fun _ => False) Hpr Hzero) as (_ & Hclosed & Hsettled);
    [|done|].
  { intros w Hw Hr. left. destruct Hstart as [->| ->].
    - by destruct (populated_not_revealed b _ _ Htypes (proj1 Hw)).
    - apply (unmask_one_revealed b c _ _ Htypes (proj1 Hw)) in Hr.
      destruct w, c. simpl in Hr. congruence. }
  apply (settled_chain b Hrect this' c z); [|done|done|done|done|done].
  intros w Hw Hr. by destruct (Hsettled w Hw Hr).
Qed.

Lemma flood_fill_reaches_chained_cells_witness :
  rect (rows corner_board) (columns corner_board) (matrix corner_board)
  /\ exists this',
      let c := {| cell_x := 2; cell_y := 2 |} in
      let z := {| cell_x := 1; cell_y := 2 |} in
      revealSurroundings 9 c true (unmask_one corner_board c)
      = Returns this'
      /\ chain corner_board c z /\ near z 0 1
      /\ cell_of (matrix this') 0 1 = Some " :one: ".
Proof.
  assert (Hrect : rect (rows corner_board) (columns corner_board)
                       (matrix corner_board))
    by (split; [reflexivity|repeat constructor]).
  split; [exact Hrect|].
  assert (Hzero : forall x y,
    (x, y) = (2, 2) \/ (x, y) = (1, 2) ->
    zero_cell corner_board {| cell_x := x; cell_y := y |}).
  { intros x y [[= -> ->]|[= -> ->]];
      (split; [eexists; split;
                 [vm_compute; reflexivity|vm_compute; discriminate]
              |vm_compute; reflexivity]). }
  assert (Hchain : chain corner_board {| cell_x := 2; cell_y := 2 |}
                         {| cell_x := 1; cell_y := 2 |}).
  { apply chain_next with {| cell_x := 1; cell_y := 2 |}.
    - unfold near. simpl. lia.
    - apply Hzero; auto.
    - apply chain_seed. }
  assert (Hnear : near {| cell_x := 1; cell_y := 2 |} 0 1)
    by (unfold near; simpl; lia).
  eexists. cbv zeta.
  assert (Hrun : forall A B : Prop, (A -> B) -> A -> A /\ B) by tauto.
  apply Hrun; [|vm_compute; reflexivity]. clear Hrun. intros Hrun.
  split; [exact Hchain|]. split; [exact Hnear|].
  rewrite (flood_fill_reaches_chained_cells corner_board 9
             {| cell_x := 2; cell_y := 2 |} _ _ Hrect
             (constructor_types_ok _) (Hzero 2 2 (or_introl eq_refl))
             (or_intror eq_refl) Hrun
             {| cell_x := 1; cell_y := 2 |} 0 1 Hchain Hnear).
  - vm_compute. reflexivity.
  - vm_compute. lia.
  - vm_compute. lia.
Defined.

(** ** Flood fill on a layout without mines *)

Lemma mine_count_0 b x y s :
  types_ok (types b) -> mine_count b = 0 ->
  cell_of (matrix b) x y = Some s -> s <> mine (types b).
Proof.
  intros Htypes Hcount Hs ->.
  pose proof (weight_grid_set
    (fun s => if is_mine b s then 1 else 0) (matrix b) x y "" _ Hs) as H.
  cbv beta in H. unfold mine_count, count_cells in Hcount.
  rewrite Hcount in H. unfold is_mine at 2 3 in H.
  rewrite bool_decide_eq_true_2 in H by done.
  rewrite bool_decide_eq_false_2 in H; [lia|].
  intros E. pose proof (mine_masked _ Htypes) as Hm.
  by rewrite <- E in Hm.
Qed.

Lemma mine_free_zero_cell b c :
  rect (rows b) (columns b) (matrix b) -> types_ok (types b) ->
  mine_count b = 0 ->
  cell_x c < rows b -> cell_y c < columns b -> zero_cell b c.
Proof.
  intros Hrect Htypes Hcount Hx Hy.
  destruct (rect_cell _ _ _ _ _ Hrect Hx Hy) as [s Hs]. split.
  - exists s. split; [done|]. by eapply mine_count_0.
  - unfold spec_neighbour_mines.
    assert (H : forall l, List.filter (mine_within b) l = []);
      [|by rewrite H].
    induction l as [|p l IH]; [done|]. simpl.
    destruct (mine_within b p) eqn:Hp; [exfalso|done].
    unfold mine_within in Hp.
    apply andb_true_iff in Hp as [_ Hp%bool_decide_eq_true].
    by eapply mine_count_0.
Qed.

(** Without mines, zero cells link any two cells of the grid. *)
Lemma mine_free_chain b n : forall c z,
  rect (rows b) (columns b) (matrix b) -> types_ok (types b) ->
  mine_count b = 0 ->
  cell_x c < rows b -> cell_y c < columns b ->
  cell_x z < rows b -> cell_y z < columns b ->
  (cell_x z - cell_x c) + (cell_x c - cell_x z)
  + (cell_y z - cell_y c) + (cell_y c - cell_y z) <= n ->
  chain b c z.
Proof.
  induction n as [|n IH]; intros [cx cy] [zx zy] Hrect Htypes Hcount;
    simpl; intros Hcx Hcy Hzx Hzy Hn.
  { assert (cx = zx) as -> by lia. assert (cy = zy) as -> by lia.
    apply chain_seed. }
  destruct (decide ((cx, cy) = (zx, zy))) as [[= -> ->]|Hne];
    [apply chain_seed|].
  set (x := if decide (cx < zx) then S cx
            else if decide (zx < cx) then cx - 1 else cx).
  set (y := if decide (cy < zy) then S cy
            else if decide (zy < cy) then cy - 1 else cy).
  assert (Hx : x < rows b /\ x <= cx + 1 /\ cx <= x + 1
               /\ (zx - x) + (x - zx) <= (zx - cx) + (cx - zx)
               /\ (cx <> zx -> (zx - x) + (x - zx) < (zx - cx) + (cx - zx)))
    by (unfold x; repeat case_decide; lia).
  assert (Hy : y < columns b /\ y <= cy + 1 /\ cy <= y + 1
               /\ (zy - y) + (y - zy) <= (zy - cy) + (cy - zy)
               /\ (cy <> zy -> (zy - y) + (y - zy) < (zy - cy) + (cy - zy)))
    by (unfold y; repeat case_decide; lia).
  clearbody x y.
  apply chain_next with {| cell_x := x; cell_y := y |}.
  - unfold near. simpl. lia.
  - apply mine_free_zero_cell; simpl; tauto.
  - apply IH; simpl; try tauto.
    destruct (decide (cx = zx)) as [->|?];
      [assert (cy <> zy) by congruence|]; lia.
Qed.

(** X5.  On the populated board of a layout that holds no mine, the
    recursive flood fill from any cell of the grid returns once the
    fuel exceeds the characters on the board, and it has then unmasked
    the whole grid: every cell shows the zero symbol without its
    bars. *)
Theorem flood_fill_mine_free b fuel c :
  rect (rows b) (columns b) (matrix b) -> types_ok (types b) ->
  mine_count b = 0 ->
  cell_x c < rows b -> cell_y c < columns b ->
  ink (matrix (populated_board b)) < fuel ->
  exists this',
    revealSurroundings fuel c true (populated_board b) = Returns this'
    /\ forall x y, x < rows b -> y < columns b ->
         cell_of (matrix this') x y = Some (slice_2_m2 (number b 0)).
Proof.
  intros Hrect Htypes Hcount Hcx Hcy Hfuel.
  assert (Hzero : forall z, cell_x z < rows b -> cell_y z < columns b ->
                            zero_cell b z)
    by (intros; by apply mine_free_zero_cell).
  destruct (revealSurroundings_Returns fuel c true (populated_board b))
    as (this' & Hrun & _); [by apply rect_populated_grid|done|].
  exists this'. split; [done|]. intros x y Hx Hy.
  set (z := {| cell_x := x; cell_y := y |}).
  destruct (flood_fill_settles b Hrect Htypes fuel c (populated_board b)
              this' (fun _ => False)) as (_ & Hclosed & Hsettled);
    [apply partly_revealed_populated|by apply Hzero| |done|].
  { intros w Hw Hr.
    by destruct (populated_not_revealed b _ _ Htypes (proj1 Hw)). }
  assert (Hr : revealed_at b this' x y).
  { apply (settled_chain b Hrect this' c z); [|
      by eapply (mine_free_chain b _ c z) |done| |done|done].
    - intros w Hw Hr. by destruct (Hsettled w Hw Hr).
    - unfold near. simpl. lia. }
  pose proof (proj2 (Hzero z Hx Hy)) as H0. simpl in H0.
  unfold revealed_at, count_symbol in Hr. by rewrite H0 in Hr.
Qed.

Lemma flood_fill_mine_free_witness :
  rect 5 5 (matrix empty_5x5)
  /\ exists this',
      revealSurroundings 301 {| cell_x := 2; cell_y := 2 |} true
        (populated_board empty_5x5) = Returns this'
      /\ cell_of (matrix this') 4 0 = Some ":zero:"
      /\ count_cells is_unmasked (matrix this') = 25.
Proof.
  assert (Hrect : rect 5 5 (matrix empty_5x5))
    by (split; [vm_compute; reflexivity|vm_compute; repeat constructor]).
  split; [exact Hrect|].
  destruct (flood_fill_mine_free empty_5x5 301
              {| cell_x := 2; cell_y := 2 |} Hrect (constructor_types_ok _))
    as (this' & Hrun & Hcells).
  - vm_compute. reflexivity.
  - vm_compute. lia.
  - vm_compute. lia.
  - vm_compute. lia.
  - exists this'. split; [exact Hrun|]. split.
    + rewrite (Hcells 4 0); [vm_compute; reflexivity|vm_compute; lia..].
    + revert Hrun. vm_compute. intros [= <-]. reflexivity.
Defined.

(** ** The first reveal with a zero start *)

Lemma count_cells_two p m x1 y1 x2 y2 s1 s2 s0 :
  p s0 = false -> (x2, y2) <> (x1, y1) ->
  cell_of m x1 y1 = Some s1 -> p s1 = true ->
  cell_of m x2 y2 = Some s2 -> p s2 = true ->
  2 <= count_cells p m.
Proof.
  intros H0 Hne Hs1 Hp1 Hs2 Hp2. unfold count_cells.
  pose proof (weight_grid_set (fun s => if p s then 1 else 0)
                m x1 y1 s0 s1 Hs1) as E1.
  rewrite <- (cell_of_grid_set_ne m x1 y1 s0 x2 y2 Hne) in Hs2.
  pose proof (weight_grid_set (fun s => if p s then 1 else 0)
                _ x2 y2 s0 s2 Hs2) as E2.
  cbv beta in E1, E2. rewrite H0, ?Hp1, ?Hp2 in *. lia.
Qed.

(** X6.  With reveal-first and force-zero-start enabled, on the
    populated board of a layout that has a zero cell, [revealFirst]
    returns once the fuel exceeds the characters on the board.  It
    takes one draw, the coordinate it returns is a zero cell, that cell
    ends as the zero symbol without its bars, the flood fill from it has
    unmasked the neighbourhood of every zero cell linked to it, and on a
    grid of more than one cell at least two cells end unmasked. *)
Theorem revealFirst_zero_start b fuel rng k :
  rect (rows b) (columns b) (matrix b) -> types_ok (types b) ->
  safeCells b = [] -> unit_source rng ->
  revealFirstCell b = true -> zeroFirstCell b = true ->
  (exists c0, zero_cell b c0) ->
  ink (matrix (populated_board b)) < fuel ->
  exists c this',
    revealFirst fuel rng (populated_board b) k
    = Returns ((Z.of_nat (cell_x c), Z.of_nat (cell_y c)), this', S k)
    /\ zero_cell b c
    /\ cell_of (matrix this') (cell_x c) (cell_y c)
       = Some (slice_2_m2 (number b 0))
    /\ (forall z x y,
          chain b c z -> near z x y -> x < rows b -> y < columns b ->
          cell_of (matrix this') x y
          = Some (slice_2_m2 (count_symbol b x y)))
    /\ (1 < rows b * columns b ->
        2 <= count_cells is_unmasked (matrix this')).
Proof.
  intros Hrect Htypes Hnil Hunit Hreveal Hforce (c0 & Hc0) Hfuel.
  destruct (revealFirst_cases b Htypes fuel rng k Hnil Hunit)
    as [[E _]|[(_ & [E|Hno] & _)|(_ & _ & c & _ & Hz & Hfirst)]];
    [by exists (cell_x c0), (cell_y c0); apply Hc0|congruence|congruence
    |by destruct (Hno c0)|].
  destruct (revealSurroundings_Returns fuel c true (unmask_one b c))
    as (this' & Hrun & _).
  { apply (partly_revealed_rect b Hrect), unmask_one_partly, Hz. }
  { pose proof (weight_grid_set String.length
      (matrix (populated_board b)) (cell_x c) (cell_y c)
      (slice_2_m2 (count_symbol b (cell_x c) (cell_y c))) _
      (populated_safe b _ _ (proj1 Hz))) as Hw.
    pose proof (slice_shorter _
      (count_symbol_masked b Htypes (cell_x c) (cell_y c))).
    unfold ink, unmask_one in *. cbn [matrix set_matrix]. lia. }
  rewrite Hrun in Hfirst. cbn [bind] in Hfirst.
  exists c, this'. split; [done|]. split; [done|].
  destruct (flood_fill_settles b Hrect Htypes fuel c (unmask_one b c)
              this' (fun _ => False)) as (_ & Hclosed & Hsettled);
    [by apply unmask_one_partly, Hz|done| |done|].
  { intros w Hw Hr. left.
    apply (unmask_one_revealed b c _ _ Htypes (proj1 Hw)) in Hr.
    destruct w, c. simpl in Hr. congruence. }
  destruct Hz as [(s & Hs & Hsafe) Hcount].
  destruct (cell_of_lt _ _ _ _ _ _ Hrect Hs) as [Hcx Hcy].
  assert (Hself : near c (cell_x c) (cell_y c)) by (unfold near; lia).
  split_and!.
  - pose proof (Hclosed _ _ Hself Hcx Hcy) as Hr.
    unfold revealed_at, count_symbol in Hr. by rewrite Hcount in Hr.
  - intros z x y Hchain Hnear Hx Hy.
    apply (settled_chain b Hrect this' c z); [|done..].
    intros w Hw Hr. by destruct (Hsettled w Hw Hr).
  - intros Hsize.
    assert (exists x y, (x, y) <> (cell_x c, cell_y c) /\ near c x y
                        /\ x < rows b /\ y < columns b)
      as (x & y & Hne & Hnear & Hx & Hy).
    { destruct (decide (1 < rows b)).
      - exists (if decide (cell_x c = 0) then 1 else cell_x c - 1),
               (cell_y c).
        unfold near. case_decide; (split; [intros [=]|]); lia.
      - exists (cell_x c),
               (if decide (cell_y c = 0) then 1 else cell_y c - 1).
        unfold near. case_decide; (split; [intros [=]|]); nia. }
    eapply (count_cells_two is_unmasked _ (cell_x c) (cell_y c) x y
              _ _ "||"); [done|done| | | |].
    + apply (Hclosed _ _ Hself Hcx Hcy).
    + unfold is_unmasked. by rewrite (count_symbol_revealed b Htypes).
    + apply (Hclosed _ _ Hnear Hx Hy).
    + unfold is_unmasked. by rewrite (count_symbol_revealed b Htypes).
Qed.

(** The corner layout with reveal-first enabled. *)
Definition corner_reveal : Minesweeper :=
  set_matrix (constructor (Some reveal_3x3)) corner_mine.

(** The board [revealFirst] leaves of it when every draw is 0. *)
Definition corner_revealed : Minesweeper :=
  Eval vm_compute in
    match revealFirst 109 zero_source (populated_board corner_reveal) 0 with
    | Returns r => r.1.2
    | _ => corner_reveal
    end.

Lemma revealFirst_zero_start_witness :
  rect 3 3 corner_mine /\ unit_source zero_source
  /\ exists this',
      revealFirst 109 zero_source (populated_board corner_reveal) 0
      = Returns ((0, 2)%Z, this', 1)
      /\ cell_of (matrix this') 0 2 = Some " :zero: "
      /\ cell_of (matrix this') 0 0 = Some "|| :boom: ||"
      /\ 2 <= count_cells is_unmasked (matrix this').
Proof.
  assert (Hrect : rect 3 3 corner_mine)
    by (split; [reflexivity|repeat constructor]).
  split; [exact Hrect|]. split; [exact zero_source_unit|].
  destruct (revealFirst_zero_start corner_reveal 109 zero_source 0 Hrect
              (constructor_types_ok _) eq_refl zero_source_unit
              eq_refl eq_refl)
    as (c & this' & Hrun & _ & Hseed & _ & Htwo).
  - exists {| cell_x := 2; cell_y := 2 |}.
    split; [eexists; split;
              [vm_compute; reflexivity|vm_compute; discriminate]
           |vm_compute; reflexivity].
  - vm_compute. lia.
  - assert (Hval : revealFirst 109 zero_source
                     (populated_board corner_reveal) 0
                   = Returns ((0, 2)%Z, corner_revealed, 1))
      by (vm_compute; reflexivity).
    rewrite Hval in Hrun. injection Hrun as Hx Hy Hthis.
    eexists. split; [exact Hval|]. rewrite Hthis.
    split; [|split].
    + assert (c = {| cell_x := 0; cell_y := 2 |}) as ->
        by (destruct c; simpl in *; f_equal; lia).
      exact Hseed.
    + rewrite <- Hthis. vm_compute. reflexivity.
    + apply Htwo. vm_compute. lia.
Defined.

(** ** What [plantMines] does to any grid *)

Lemma count_cells_le R C p m : rect R C m -> count_cells p m <= R * C.
Proof.
  intros Hrect. rewrite <- (weight_const R C m Hrect).
  unfold count_cells, weight.
  induction (concat m) as [|s l IH]; simpl; [done|].
  destruct (p s); lia.
Qed.

(** The loop of [plantMines] from counter [i]: what a run that returns
    has done. *)
Lemma plantMines_from_effect rng fuel : forall i this k r,
  unit_source rng ->
  rect (rows this) (columns this) (matrix this) ->
  0 < rows this -> 0 < columns this ->
  plantMines_from fuel rng i this k = Returns r ->
  same_config this r.1
  /\ rect (rows this) (columns this) (matrix r.1)
  /\ mine_count r.1 = mine_count this + (mines this - i)
  /\ (forall x y s, cell_of (matrix this) x y = Some s ->
        cell_of (matrix r.1) x y = Some s
        \/ cell_of (matrix r.1) x y = Some (mine (types this)))
  /\ exists n, r.2 = k + 2 * n /\ mines this - i <= n <= fuel.
Proof.
  induction fuel as [|fuel IH]; intros i this k r Hunit Hrect HR HC Hrun.
  { simpl in Hrun. case_bool_decide; [done|]. injection Hrun as <-.
    simpl. split; [apply same_config_refl|]. split; [done|].
    split; [lia|]. split; [by left|]. exists 0. lia. }
  destruct (decide (i < mines this)) as [Hlt|Hge].
  2:{ simpl in Hrun. rewrite bool_decide_eq_false_2 in Hrun by done.
      injection Hrun as <-. simpl.
      split; [apply same_config_refl|]. split; [done|].
      split; [lia|]. split; [by left|]. exists 0. lia. }
  destruct (plantMines_step fuel rng i this k) as (s & Hs & E); [done..|].
  rewrite E in Hrun. clear E.
  destruct (is_mine this s) eqn:Hmine.
  - destruct (IH i this (S (S k)) r) as (? & ? & ? & ? & n & -> & ?);
      [done..|].
    split_and!; [done..|]. exists (S n). lia.
  - set (x0 := floor_scaled (rng k) (rows this)) in *.
    set (y0 := floor_scaled (rng (S k)) (columns this)) in *.
    destruct (IH (S i)
                (set_matrix this
                   (grid_set (matrix this) x0 y0 (mine (types this))))
                (S (S k)) r)
      as (Hcfg & Hrect' & Hcount & Hcells & n & -> & ?);
      [done|by apply rect_grid_set|done|done|done|].
    cbn [rows columns mines types set_matrix matrix] in *.
    split_and!.
    + eapply same_config_trans; [|done]. done.
    + done.
    + rewrite Hcount, (mine_count_planted _ _ _ _ Hs Hmine). lia.
    + intros x y s' Hs'.
      destruct (decide ((x, y) = (x0, y0))) as [[= -> ->]|Hne].
      * right.
        destruct (Hcells x0 y0 (mine (types this))) as [?|?]; [|done..].
        by apply (cell_of_grid_set_eq _ _ _ _ _ Hs).
      * apply Hcells. by rewrite cell_of_grid_set_ne.
    + exists (S n). lia.
Qed.

(** X7.  On a grid of [rows] x [columns] cells, whatever it holds, a
    call of [plantMines] that returns has changed nothing but the grid,
    kept its shape, written nothing but the mine symbol, and added
    exactly [mines] mine cells to those the grid already held; it has
    drawn an even number of random values, two for each iteration, of
    which there were at least [mines]. *)
Theorem plantMines_adds_mines fuel rng this k this' k' :
  unit_source rng ->
  rect (rows this) (columns this) (matrix this) ->
  0 < rows this -> 0 < columns this ->
  plantMines fuel rng this k = Returns (this', k') ->
  same_config this this'
  /\ rect (rows this) (columns this) (matrix this')
  /\ mine_count this' = mine_count this + mines this
  /\ (forall x y s, cell_of (matrix this) x y = Some s ->
        cell_of (matrix this') x y = Some s
        \/ cell_of (matrix this') x y = Some (mine (types this)))
  /\ exists n, k' = k + 2 * n /\ mines this <= n.
Proof.
  intros Hunit Hrect HR HC Hrun.
  destruct (plantMines_from_effect rng fuel 0 this k (this', k')
              Hunit Hrect HR HC Hrun)
    as (? & ? & Hcount & ? & n & ? & ?).
  simpl in *. split_and!; [done|done|lia|done|]. exists n. lia.
Qed.

(** A 2 x 2 grid with one mine at (0,0), asked for one more. *)
Definition second_mine : Minesweeper :=
  set_matrix (constructor (Some (options 2 2 1))) mine_2x2.

Lemma plantMines_adds_mines_witness :
  unit_source late_half_source
  /\ exists this',
      plantMines 2 late_half_source second_mine 0 = Returns (this', 4)
      /\ mine_count second_mine = 1 /\ mine_count this' = 2
      /\ cell_of (matrix this') 1 1 = Some "|| :boom: ||".
Proof.
  split; [exact late_half_source_unit|].
  assert (Hrect : rect 2 2 mine_2x2)
    by (split; [reflexivity|repeat constructor]).
  eexists.
  assert (Hrun : forall A B : Prop, (A -> B) -> A -> A /\ B) by tauto.
  apply Hrun; [|vm_compute; reflexivity]. clear Hrun. intros Hrun.
  assert (HR : 0 < rows second_mine) by (vm_compute; lia).
  assert (HC : 0 < columns second_mine) by (vm_compute; lia).
  destruct (plantMines_adds_mines 2 late_half_source second_mine 0 _ 4
              late_half_source_unit Hrect HR HC Hrun)
    as (_ & _ & Hcount & _).
  assert (Hone : mine_count second_mine = 1) by (vm_compute; reflexivity).
  split; [exact Hone|]. split.
  - rewrite Hcount, Hone. reflexivity.
  - vm_compute. reflexivity.
Defined.

(** On such a grid the loop neither throws nor writes outside it. *)
Lemma plantMines_from_safe rng fuel : forall i this k,
  unit_source rng ->
  rect (rows this) (columns this) (matrix this) ->
  0 < rows this -> 0 < columns this ->
  outcome_sat (fun _ => True) (plantMines_from fuel rng i this k).
Proof.
  induction fuel as [|fuel IH]; intros i this k Hunit Hrect HR HC.
  { simpl. by case_bool_decide. }
  destruct (decide (i < mines this)) as [Hlt|Hge].
  2:{ simpl. by rewrite bool_decide_eq_false_2. }
  destruct (plantMines_step fuel rng i this k) as (s & Hs & ->); [done..|].
  destruct (is_mine this s); [by apply IH|].
  apply IH; [done|by apply rect_grid_set|done|done].
Qed.

(** X8.  Asked for more mines than the grid has cells without one,
    [plantMines] does not return: its loop keeps drawing until the fuel
    is gone, whatever the fuel and the random source. *)
Theorem plantMines_overfull fuel rng this k :
  unit_source rng ->
  rect (rows this) (columns this) (matrix this) ->
  0 < rows this -> 0 < columns this ->
  rows this * columns this < mine_count this + mines this ->
  plantMines fuel rng this k = OutOfFuel.
Proof.
  intros Hunit Hrect HR HC Hfull.
  pose proof (plantMines_from_safe rng fuel 0 this k Hunit Hrect HR HC)
    as Hsafe.
  fold (plantMines fuel rng this k) in Hsafe.
  destruct (plantMines fuel rng this k) as [r| | |] eqn:Hrun; try done.
  destruct (plantMines_from_effect rng fuel 0 this k r
              Hunit Hrect HR HC Hrun) as (_ & Hrect' & Hcount & _).
  pose proof (count_cells_le _ _ (is_mine r.1) _ Hrect') as Hle.
  unfold mine_count in Hcount at 1. lia.
Qed.

(** A 2 x 2 grid that is all mines but one cell, asked for two more. *)
Definition crowded : Minesweeper :=
  set_matrix (constructor (Some (options 2 2 2)))
    [["|| :boom: ||"; "|| :boom: ||"]; ["|| :boom: ||"; "|| :zero: ||"]].

Lemma plantMines_overfull_witness :
  unit_source half_source
  /\ plantMines 50 half_source crowded 0 = OutOfFuel.
Proof.
  assert (Hunit : unit_source half_source) by (intros k; simpl; lia).
  split; [exact Hunit|].
  apply (plantMines_overfull 50 half_source crowded 0 Hunit).
  - split; [reflexivity|repeat constructor].
  - vm_compute. lia.
  - vm_compute. lia.
  - vm_compute. lia.
Defined.

(** ** The registry [populate] builds *)

(** The order in which [populate] visits the grid: by rows, and by
    columns within a row. *)
Definition row_major (c d : SafeCell) : Prop :=
  cell_x c < cell_x d \/ (cell_x c = cell_x d /\ cell_y c < cell_y d).

Lemma safe_in_row_sorted mine x row : forall y,
  StronglySorted row_major (safe_in_row mine x y row).
Proof.
  induction row as [|s row IH]; intros y; simpl; [constructor|].
  apply StronglySorted_app_2; [|case_bool_decide; repeat constructor|done].
  intros c d Hc Hd. case_bool_decide; [by apply elem_of_nil in Hc|].
  apply list_elem_of_singleton in Hc as ->.
  apply elem_of_safe_in_row in Hd as (Hx & j & _ & Hy & _).
  right. simpl. lia.
Qed.

Lemma safe_in_rows_sorted mine m : forall x,
  StronglySorted row_major (safe_in_rows mine x m).
Proof.
  induction m as [|row m IH]; intros x; simpl; [constructor|].
  apply StronglySorted_app_2; [|apply safe_in_row_sorted|done].
  intros c d (Hc & _)%elem_of_safe_in_row
         (i & _ & Hd & _)%elem_of_safe_in_rows.
  left. lia.
Qed.

Lemma row_major_NoDup l : StronglySorted row_major l -> NoDup l.
Proof.
  induction 1 as [|c l _ IH Hc]; constructor; [|done].
  intros Hin. rewrite List.Forall_forall in Hc.
  apply list_elem_of_In in Hin. specialize (Hc c Hin).
  unfold row_major in Hc. lia.
Qed.

(** X9.  On a grid of [rows] x [columns] cells, whatever the registry
    holds, [populate] returns; it keeps the entries of the registry and
    appends to them the coordinates of the cells that do not hold the
    mine symbol, each exactly once, in the order of the rows and of the
    columns within a row; with the mine cells they make up the grid. *)
Theorem populate_registers_safe_cells this :
  rect (rows this) (columns this) (matrix this) ->
  exists p new,
    populate this = Returns p
    /\ safeCells p = safeCells this ++ new
    /\ StronglySorted row_major new /\ NoDup new
    /\ (forall c, c ∈ new <->
          exists s, cell_of (matrix this) (cell_x c) (cell_y c) = Some s
                    /\ s <> mine (types this))
    /\ length new + mine_count this = rows this * columns this.
Proof.
  intros Hrect.
  exists (populated_board this),
         (safe_in_rows (mine (types this)) 0 (matrix this)).
  split; [by apply populate_spec|]. split; [done|].
  split; [apply safe_in_rows_sorted|].
  split; [apply row_major_NoDup, safe_in_rows_sorted|].
  split; [apply elem_of_safe_cells|].
  rewrite <- (weight_const _ _ _ Hrect).
  apply (length_safe_in_rows (mine (types this)) (matrix this) 0).
Qed.

Lemma populate_registers_safe_cells_witness :
  rect 2 2 mine_2x2
  /\ exists p,
      populate second_mine = Returns p
      /\ safeCells p = [{| cell_x := 0; cell_y := 1 |};
                        {| cell_x := 1; cell_y := 0 |};
                        {| cell_x := 1; cell_y := 1 |}].
Proof.
  assert (Hrect : rect 2 2 mine_2x2)
    by (split; [reflexivity|repeat constructor]).
  split; [exact Hrect|].
  destruct (populate_registers_safe_cells second_mine Hrect)
    as (p & new & Hrun & _).
  exists p. split; [exact Hrun|].
  revert Hrun. vm_compute. intros [= <-]. reflexivity.
Defined.

Lemma safe_in_row_pattern mine x r1 r2 :
  Forall2 (fun s t : string => s = mine <-> t = mine) r1 r2 ->
  forall y, safe_in_row mine x y r1 = safe_in_row mine x y r2.
Proof.
  induction 1 as [|s t r1 r2 Hst _ IH]; intros y; simpl; [done|].
  rewrite IH. f_equal. by rewrite (bool_decide_ext _ _ Hst).
Qed.

Lemma safe_in_rows_pattern mine m1 m2 :
  Forall2 (Forall2 (fun s t : string => s = mine <-> t = mine)) m1 m2 ->
  forall x, safe_in_rows mine x m1 = safe_in_rows mine x m2.
Proof.
  induction 1 as [|r1 r2 m1 m2 Hr _ IH]; intros x; simpl; [done|].
  by rewrite IH, (safe_in_row_pattern mine x r1 r2 Hr).
Qed.

Lemma grids_eq R C (m1 m2 : list (list string)) :
  rect R C m1 -> rect R C m2 ->
  (forall x y, cell_of m1 x y = cell_of m2 x y) -> m1 = m2.
Proof.
  intros H1 H2 Hcells.
  assert (H : Forall2 (Forall2 eq) m1 m2).
  { apply (grids_pointwise R C); [done..|].
    intros x y s1 s2 E1 E2. rewrite Hcells in E1. congruence. }
  clear -H. induction H as [|r1 r2 m1 m2 Hr _ IH]; [done|].
  f_equal; [|done]. clear -Hr.
  induction Hr as [|? ? ? ? -> _ IH]; [done|]. by f_equal.
Qed.

(** [populate] neither adds nor removes a mine. *)
Lemma populated_mine_iff this x y :
  types_ok (types this) -> mine (types this) ∉ numbers (types this) ->
  cell_of (populated_grid this) x y = Some (mine (types this))
  <-> cell_of (matrix this) x y = Some (mine (types this)).
Proof.
  intros Hok Hne. rewrite cell_of_populated_grid.
  destruct (cell_of (matrix this) x y) as [s|]; [|done]. simpl.
  unfold populated. case_bool_decide as Hs; [by subst|].
  split; intros [= E]; [|done]. destruct Hne. rewrite <- E.
  apply number_elem; [done|].
  pose proof (spec_neighbour_mines_le this x y). lia.
Qed.

(** X10.  When the mine symbol is none of the number symbols,
    [populate] run a second time leaves the grid of the first run as it
    is, and registers every safe cell a second time. *)
Theorem populate_twice this :
  rect (rows this) (columns this) (matrix this) ->
  types_ok (types this) ->
  mine (types this) ∉ numbers (types this) ->
  exists p q new,
    populate this = Returns p /\ populate p = Returns q
    /\ matrix q = matrix p
    /\ safeCells p = safeCells this ++ new
    /\ safeCells q = safeCells this ++ new ++ new.
Proof.
  intros Hrect Hok Hne.
  set (p := populated_board this).
  assert (Hrectp : rect (rows p) (columns p) (matrix p))
    by by apply rect_populated_grid.
  assert (Hmine : forall x y,
    cell_of (matrix p) x y = Some (mine (types this))
    <-> cell_of (matrix this) x y = Some (mine (types this)))
    by (intros; by apply populated_mine_iff).
  exists p, (populated_board p),
         (safe_in_rows (mine (types this)) 0 (matrix this)).
  split; [by apply populate_spec|]. split; [by apply populate_spec|].
  split_and!.
  - apply (grids_eq (rows this) (columns this));
      [by apply (rect_populated_grid _ _ p)|done|].
    intros x y. cbn [matrix populated_board set_matrix].
    rewrite (cell_of_populated_grid p). fold p.
    change (matrix p) with (populated_grid this).
    rewrite (cell_of_populated_grid this).
    destruct (cell_of (matrix this) x y) as [s|] eqn:Hs; [|done]. simpl.
    f_equal. unfold populated. change (types p) with (types this).
    destruct (decide (s = mine (types this))) as [->|Hs1].
    { rewrite (bool_decide_eq_true_2 (mine _ = mine _)) by done.
      by rewrite bool_decide_eq_true_2. }
    rewrite (bool_decide_eq_false_2 (s = _)) by done.
    rewrite bool_decide_eq_false_2.
    2:{ intros E. destruct Hne. rewrite <- E. apply number_elem; [done|].
        pose proof (spec_neighbour_mines_le this x y). lia. }
    change (number p) with (number this). f_equal.
    unfold spec_neighbour_mines. f_equal.
    apply List.filter_ext. intros q. unfold mine_within.
    change (rows p) with (rows this).
    change (columns p) with (columns this).
    change (types p) with (types this).
    f_equal. apply bool_decide_ext, Hmine.
  - done.
  - cbn [safeCells populated_board set_matrix set_safeCells].
    change (safeCells p)
      with (safeCells this
            ++ safe_in_rows (mine (types this)) 0 (matrix this)).
    change (types p) with (types this).
    rewrite <- (assoc_L (++)). do 2 f_equal.
    apply safe_in_rows_pattern.
    apply (grids_pointwise (rows this) (columns this)); [done..|].
    intros x y s1 s2 E1 E2. split; intros ->.
    + apply (inj Some). rewrite <- E2. by apply Hmine.
    + apply (inj Some). rewrite <- E1. by apply Hmine.
Qed.

Lemma populate_twice_witness :
  rect 2 2 mine_2x2
  /\ exists p q,
      populate second_mine = Returns p /\ populate p = Returns q
      /\ matrix q = [["|| :boom: ||"; "|| :one: ||"];
                     ["|| :one: ||"; "|| :one: ||"]]
      /\ length (safeCells q) = 6.
Proof.
  assert (Hrect : rect 2 2 mine_2x2)
    by (split; [reflexivity|repeat constructor]).
  split; [exact Hrect|].
  destruct (populate_twice second_mine Hrect (constructor_types_ok _))
    as (p & q & new & Hp & Hq & Hgrid & _).
  - vm_compute. intros Hin. repeat (apply elem_of_cons in Hin as [?|Hin];
      [discriminate|]). by apply elem_of_nil in Hin.
  - exists p, q. split; [exact Hp|]. split; [exact Hq|].
    revert Hp Hq. vm_compute. intros [= <-]. vm_compute.
    intros [= <-]. split; reflexivity.
Defined.

(** ** The random values a run takes *)

(** The stages of a run of [start] on a fresh generator that returns a
    board: the layout [b] that [plantMines] left after [n] iterations,
    and the call of [revealFirst] on its populated board. *)
Lemma start_run opts rng fuel k r this' k' :
  unit_source rng ->
  start fuel rng (constructor opts) k = Returns (r, this', k') ->
  r <> Null ->
  exists b n xy,
    rect (rows b) (columns b) (matrix b) /\ types_ok (types b)
    /\ safeCells b = [] /\ (exists x y, safe_at b x y)
    /\ revealFirstCell b = revealFirstCell (constructor opts)
    /\ mines (constructor opts) <= n
    /\ revealFirst fuel rng (populated_board b) (k + 2 * n)
       = Returns (xy, this', k').
Proof.
  intros Hunit Hrun Hr.
  destruct (constructor_fresh opts) as (Hnil & Hreg & HR & HC & HM).
  pose proof (constructor_types_ok opts) as Hok.
  set (this := constructor opts) in *.
  rewrite start_stages in Hrun.
  case_bool_decide as Hgate; [by injection Hrun as <-|].
  destruct (generateEmptyMatrix_fresh this Hnil) as (Hcfg0 & Hrect0 & Hcnt0).
  destruct (same_config_fields _ _ Hcfg0)
    as (HR0 & HC0 & HM0 & HT0 & HS0 & _ & _ & HF0 & _).
  set (g := generateEmptyMatrix this) in *.
  destruct (plantMines fuel rng g k) as [[b k1]| | |] eqn:Hplant;
    try done.
  cbn [bind fst snd] in Hrun.
  destruct (plantMines_from_effect rng fuel 0 g k (b, k1))
    as (Hcfg & Hrect & Hcount & _ & n & Hk1 & Hn);
    [done|by rewrite HR0, HC0|lia|lia|done|].
  cbn [fst snd] in *.
  destruct (same_config_fields _ _ Hcfg)
    as (HRb & HCb & HMb & HTb & HSb & _ & _ & HFb & _).
  rewrite HR0, HC0 in Hrect.
  assert (Hrectb : rect (rows b) (columns b) (matrix b))
    by (by rewrite HRb, HCb, HR0, HC0).
  rewrite (populate_spec b Hrectb) in Hrun. cbn [bind] in Hrun.
  assert (Htypes : types_ok (types b)) by (by rewrite HTb, HT0).
  assert (Hsafe : exists x y, safe_at b x y).
  { assert (mine_count g = 0) as Hg0.
    { destruct (decide (mine (types this) = number this 0)) as [E|Hne];
        [exfalso|by apply Hcnt0].
      assert (mine_count g = rows this * columns this) as Hall.
      { rewrite <- (weight_const _ _ _ Hrect0).
        unfold mine_count, count_cells. apply weight_ext.
        intros x y s Hs. unfold g in Hs.
        rewrite generateEmptyMatrix_spec, Hnil in Hs.
        apply cell_of_replicate in Hs as ->.
        unfold is_mine. rewrite HT0, E.
        by rewrite bool_decide_eq_true_2. }
      pose proof (count_cells_le _ _ (is_mine b) _ Hrect) as Hle.
      unfold mine_count in Hcount at 1. lia. }
    destruct (count_cells_lt_exists _ _ (is_mine b) _ Hrect)
      as (x & y & s & Hs & Hmine).
    { rewrite Hg0 in Hcount. unfold mine_count in Hcount. lia. }
    exists x, y, s. split; [done|].
    by apply bool_decide_eq_false in Hmine. }
  assert (Hregb : safeCells b = []) by (by rewrite HSb, HS0).
  destruct (revealFirst fuel rng (populated_board b) k1)
    as [[[xy this3] k3]| | |] eqn:Hfirst; try done.
  cbn [bind fst snd] in Hrun. injection Hrun as _ <- <-.
  exists b, n, xy. subst k1.
  split_and!; [done|done|done|done|by rewrite HFb, HF0|lia|done].
Qed.

(** X11.  A run of [start] on a fresh generator that returns a board
    has called the random source an even number of times for the mines,
    twice for each iteration of the planting loop, of which there were
    at least [mines], and once more exactly when reveal-first is
    enabled. *)
Theorem start_draws opts rng fuel k r this' k' :
  unit_source rng ->
  start fuel rng (constructor opts) k = Returns (r, this', k') ->
  r <> Null ->
  exists n,
    mines (constructor opts) <= n
    /\ k' = k + 2 * n
            + (if revealFirstCell (constructor opts) then 1 else 0).
Proof.
  intros Hunit Hrun Hr.
  destruct (start_run opts rng fuel k r this' k' Hunit Hrun Hr)
    as (b & n & xy & Hrect & Htypes & Hreg & Hsafe & HF & Hn & Hfirst).
  exists n. split; [done|]. rewrite <- HF.
  destruct (revealFirst_cases b Htypes fuel rng (k + 2 * n) Hreg Hunit
              Hsafe)
    as [[-> E]|[(-> & _ & c & _ & E)|(-> & _ & c & _ & _ & E)]];
    rewrite E in Hfirst.
  - injection Hfirst as _ _ <-. lia.
  - injection Hfirst as _ _ <-. lia.
  - destruct (revealSurroundings fuel c true (unmask_one b c));
      try done.
    injection Hfirst as _ _ <-. lia.
Qed.

Lemma start_draws_witness :
  unit_source late_half_source
  /\ exists r this',
      start 9 late_half_source (constructor (Some reveal_4x4)) 0
      = Returns (r, this', 5)
      /\ r <> Null
      /\ exists n, 2 <= n /\ 5 = 0 + 2 * n + 1.
Proof.
  split; [exact late_half_source_unit|]. do 2 eexists.
  assert (Hrun : forall A B : Prop, (A -> B) -> A -> A /\ B) by tauto.
  apply Hrun; [|vm_compute; reflexivity]. clear Hrun. intros Hrun.
  split; [discriminate|].
  apply (start_draws (Some reveal_4x4) late_half_source 9 0 _ _ 5
           late_half_source_unit Hrun).
  discriminate.
Defined.

(** ** Methods called before the grid exists *)

(** X12.  On a generator as the constructor leaves it, with no grid
    yet: [plantMines] throws at its first draw, [revealSurroundings]
    throws at the first cell it visits, for every seed on the grid the
    options describe or next to it, and [revealFirst] throws when
    reveal-first is enabled, for the registry is empty, and otherwise
    returns (-1,-1) without a draw; [populate] returns and leaves the
    object as it is, and the text of the board is empty. *)
Theorem methods_before_the_grid opts fuel rng k c recurse :
  let this := constructor opts in
  cell_x c <= rows this -> cell_y c <= columns this ->
  plantMines (S fuel) rng this k = Throws
  /\ revealSurroundings (S fuel) c recurse this = Throws
  /\ revealFirst fuel rng this k
     = (if revealFirstCell this then Throws
        else Returns ((-1, -1)%Z, this, k))
  /\ populate this = Returns this
  /\ getTextRepresentation this = "".
Proof.
  intros this Hx Hy.
  destruct (constructor_fresh opts) as (Hnil & Hreg & HR & HC & HM).
  fold this in Hnil, Hreg, HR, HC, HM. split_and!.
  - unfold plantMines. cbn [plantMines_from].
    rewrite bool_decide_eq_true_2 by done.
    unfold cell_is. by rewrite Hnil.
  - cbn [revealSurroundings]. unfold surroundings.
    destruct (rows this `min` (cell_x c + 2) - (cell_x c - 1))
      as [|nx] eqn:Ex; [lia|].
    destruct (columns this `min` (cell_y c + 2) - (cell_y c - 1))
      as [|ny] eqn:Ey; [lia|].
    cbn [seq list_prod map app foldM]. unfold reveal_cell at 1.
    unfold cell. by rewrite Hnil.
  - unfold revealFirst. destruct (revealFirstCell this); [|done].
    cbn [negb]. rewrite Hreg. cbn [filterM bind length].
    rewrite andb_false_r. unfold pick. done.
  - unfold populate. rewrite Hnil. cbn [populate_rows bind].
    by rewrite <- Hnil.
  - unfold getTextRepresentation. by rewrite Hnil.
Qed.

Lemma methods_before_the_grid_witness :
  plantMines 1 zero_source (constructor None) 0 = Throws
  /\ revealSurroundings 1 {| cell_x := 9; cell_y := 0 |} true
       (constructor None) = Throws
  /\ revealFirst 0 zero_source (constructor None) 0
     = Returns ((-1, -1)%Z, constructor None, 0)
  /\ populate (constructor None) = Returns (constructor None)
  /\ getTextRepresentation (constructor None) = "".
Proof.
  apply (methods_before_the_grid None 0 zero_source 0
           {| cell_x := 9; cell_y := 0 |} true).
  - vm_compute. lia.
  - vm_compute. lia.
Defined.

(** ** The constructor *)



(** ** Spoilers *)

(** X14.  A spoiler is its argument between fixed marks: it contains
    the bars, putting the bars back around what [slice(2, -2)] leaves of
    it gives the spoiler again, it is eight characters longer than the
    name with spacing and six without, and two names have the same
    spoiler only when they are the same name. *)
Theorem spoilerize_round_trip sp a b :
  includes "||" (spoilerize sp a) = true
  /\ "||" +:+ slice_2_m2 (spoilerize sp a) +:+ "||" = spoilerize sp a
  /\ String.length (spoilerize sp a)
     = String.length a + (if sp then 8 else 6)
  /\ (spoilerize sp a = spoilerize sp b <-> a = b).
Proof.
  split; [apply spoilerize_masked|].
  split; [by rewrite slice_spoilerize, <- spoilerize_wrap|].
  split.
  - unfold spoilerize. destruct sp; rewrite !length_append; simpl; lia.
  - split; [apply spoilerize_inj|by intros ->].
Qed.

(** ** The length of the text *)

Lemma length_join sep l :
  String.length (join sep l)
  = sum_list_with String.length l + (length l - 1) * String.length sep.
Proof.
  unfold join. induction l as [|s l IH]; [done|].
  destruct l as [|s' l]; [simpl; lia|].
  change (String.concat sep (s :: s' :: l))
    with (s +:+ sep +:+ String.concat sep (s' :: l)).
  rewrite !length_append, IH. simpl. lia.
Qed.

(** X15.  The text of a grid of [rows] x [columns] cells, neither zero,
    has the characters of the cells, one separator between two cells of
    a row when spacing is on, and one newline between two rows. *)
Theorem text_length this :
  rect (rows this) (columns this) (matrix this) ->
  0 < rows this -> 0 < columns this ->
  String.length (getTextRepresentation this)
  = ink (matrix this)
    + rows this * (columns this - 1) * (if spaces this then 1 else 0)
    + (rows this - 1).
Proof.
  intros [Hlen Hrows] HR HC. unfold getTextRepresentation.
  rewrite length_join, length_map, Hlen.
  change (String.length newline) with 1.
  assert (String.length (if spaces this then " " else "")
          = if spaces this then 1 else 0) as Hsep
    by by destruct (spaces this).
  assert (H : sum_list_with String.length
                (map (join (if spaces this then " " else ""))
                     (matrix this))
              = ink (matrix this)
                + length (matrix this) * (columns this - 1)
                  * (if spaces this then 1 else 0)); [|rewrite H, Hlen; lia].
  unfold ink, weight. clear Hlen.
  induction Hrows as [|row m Hrow _ IH]; [done|].
  cbn [map sum_list_with concat length]. rewrite sum_list_with_app.
  rewrite IH, length_join, Hrow, Hsep. lia.
Qed.

Lemma text_length_witness :
  rect 2 2 mine_2x2
  /\ String.length (getTextRepresentation second_mine) = 51.
Proof.
  assert (Hrect : rect 2 2 mine_2x2)
    by (split; [reflexivity|repeat constructor]).
  split; [exact Hrect|].
  rewrite (text_length second_mine Hrect); vm_compute; lia.
Defined.

(** ** [populate] on a grid with rows missing *)

(** The call returns a value that satisfies [P], or it throws. *)
Definition returns_or_throws {A} (P : A -> Prop) (o : outcome A) : Prop :=
  match o with
  | Returns a => P a
  | Throws => True
  | Sparse | OutOfFuel => False
  end.

Lemma returns_or_throws_bind {A B} (Q : A -> Prop) (P : B -> Prop) c k :
  returns_or_throws Q c ->
  (forall a, Q a -> returns_or_throws P (k a)) ->
  returns_or_throws P (bind c k).
Proof. destruct c; simpl; auto. Qed.

Lemma mine_flag_cases this g x y :
  (exists n, mine_flag this g x y = Returns n)
  \/ mine_flag this g x y = Throws.
Proof.
  unfold mine_flag, cell_is. destruct g; [|eauto].
  destruct (matrix this !! x); simpl; eauto.
Qed.

(** The object [getNumberOfMines] hands on differs in its registry
    only. *)
Definition same_grid (this this' : Minesweeper) : Prop :=
  matrix this' = matrix this /\ rows this' = rows this
  /\ types this' = types this.

Lemma getNumberOfMines_calls x y this :
  returns_or_throws (fun r => same_grid this r.2)
    (getNumberOfMines x y this).
Proof.
  unfold getNumberOfMines. unfold cell_is at 1.
  destruct (matrix this !! x); [|done]. cbn [bind].
  case_bool_decide; [done|]. cbv zeta.
  do 8 (match goal with
        | |- returns_or_throws _ (bind (mine_flag ?t ?g ?a ?b) _) =>
            destruct (mine_flag_cases t g a b) as [[? ->]| ->];
            [cbn [bind]|done]
        end).
  done.
Qed.

(** A cell that holds no mine, in a row below which the configuration
    promises a row that the grid does not have. *)
Lemma getNumberOfMines_bottom x y this :
  matrix this !! S x = None -> x < rows this - 1 ->
  cell_is this x y (mine (types this)) = Returns false ->
  getNumberOfMines x y this = Throws.
Proof.
  intros Hnone Hx Hcell. unfold getNumberOfMines. rewrite Hcell.
  cbn [bind]. cbv zeta.
  do 6 (match goal with
        | |- bind (mine_flag ?t ?g ?a ?b) _ = _ =>
            destruct (mine_flag_cases t g a b) as [[? ->]| ->];
            [cbn [bind]|done]
        end).
  unfold mine_flag at 1. cbn [rows set_safeCells].
  rewrite bool_decide_eq_true_2 by done.
  unfold cell_is. cbn [matrix set_safeCells].
  by rewrite Nat.add_1_r, Hnone.
Qed.

Lemma populate_row_calls x row : forall y this,
  returns_or_throws (fun r => same_grid this r.2)
    (populate_row x y row this).
Proof.
  induction row as [|s row IH]; intros y this; [done|].
  cbn [populate_row].
  eapply returns_or_throws_bind; [apply getNumberOfMines_calls|].
  intros [s1 this1] (Hm & Hr & Ht).
  eapply returns_or_throws_bind; [apply IH|].
  intros [ss this2] (Hm' & Hr' & Ht'). simpl in *.
  unfold same_grid. by rewrite Hm', Hr', Ht'.
Qed.

Lemma populate_row_throws x fullrow row : forall y this,
  matrix this !! x = Some fullrow ->
  (forall j, row !! j = fullrow !! (y + j)) ->
  matrix this !! S x = None -> x < rows this - 1 ->
  (exists j s, row !! j = Some s /\ s <> mine (types this)) ->
  populate_row x y row this = Throws.
Proof.
  induction row as [|s0 row IH];
    intros y this Hfull Hrow Hnone Hx (j & s & Hj & Hs); [done|].
  cbn [populate_row].
  assert (Hcell : cell_is this x y (mine (types this))
                  = Returns (bool_decide (s0 = mine (types this)))).
  { unfold cell_is. rewrite Hfull. f_equal.
    specialize (Hrow 0). rewrite Nat.add_0_r in Hrow. simpl in Hrow.
    rewrite <- Hrow. apply bool_decide_ext. split; congruence. }
  destruct (decide (s0 = mine (types this))) as [Hmine|Hsafe].
  - rewrite bool_decide_eq_true_2 in Hcell by done.
    unfold getNumberOfMines. rewrite Hcell. cbn [bind].
    rewrite (IH (S y) this); [done..| | |done|done|].
    + done.
    + intros i. specialize (Hrow (S i)). simpl in Hrow.
      by rewrite Hrow, Nat.add_succ_r.
    + destruct j as [|j]; [simpl in Hj; congruence|].
      by exists j, s.
  - rewrite bool_decide_eq_false_2 in Hcell by done.
    by rewrite (getNumberOfMines_bottom x y this).
Qed.

Lemma populate_rows_throws m : forall x this last,
  (forall i, m !! i = matrix this !! (x + i)) ->
  x + length m < rows this ->
  m !! (length m - 1) = Some last ->
  (exists j s, last !! j = Some s /\ s <> mine (types this)) ->
  populate_rows x m this = Throws.
Proof.
  induction m as [|row m IH]; intros x this last Hm Hlen Hlast Hsafe;
    [done|].
  cbn [populate_rows].
  assert (Hrow : matrix this !! x = Some row).
  { specialize (Hm 0). by rewrite Nat.add_0_r in Hm. }
  destruct m as [|row' m].
  - simpl in Hlast. injection Hlast as ->.
    rewrite (populate_row_throws x last last 0 this); try done.
    + specialize (Hm 1). by rewrite Nat.add_1_r in Hm.
    + simpl in Hlen. lia.
  - pose proof (populate_row_calls x row 0 this) as Hcalls.
    destruct (populate_row x 0 row this) as [[r this1]| | |]; try done.
    destruct Hcalls as (Hm1 & Hr1 & Ht1). simpl in Hm1, Hr1, Ht1.
    cbn [bind].
    rewrite (IH (S x) this1 last); [done| | | |].
    + intros i. specialize (Hm (S i)).
      by rewrite Hm1, Nat.add_succ_l, <- Nat.add_succ_r.
    + rewrite Hr1. simpl in *. lia.
    + simpl in *. by rewrite Nat.sub_0_r.
    + by rewrite Ht1.
Qed.

(** X16.  [populate] reads the row below a cell whenever the
    configuration says there is one.  On a grid that has fewer rows than
    [rows], and whose last row holds a cell that is no mine, it throws:
    the row below that cell does not exist. *)
Theorem populate_short_grid this last :
  length (matrix this) < rows this ->
  matrix this !! (length (matrix this) - 1) = Some last ->
  (exists s, s ∈ last /\ s <> mine (types this)) ->
  populate this = Throws.
Proof.
  intros Hlen Hlast (s & [j Hj]%list_elem_of_lookup & Hs).
  unfold populate.
  rewrite (populate_rows_throws (matrix this) 0 this last); try done.
  by exists j, s.
Qed.

(** A generator of two rows whose grid has one. *)
Definition one_row : Minesweeper :=
  set_matrix (constructor (Some (options 2 2 1)))
    [["|| :boom: ||"; "|| :zero: ||"]].

Lemma populate_short_grid_witness : populate one_row = Throws.
Proof.
  apply (populate_short_grid one_row ["|| :boom: ||"; "|| :zero: ||"]).
  - vm_compute. lia.
  - reflexivity.
  - exists "|| :zero: ||". split; [|vm_compute; discriminate].
    apply elem_of_cons. right. apply elem_of_cons. by left.
Defined.

(** ** What a generated board shows *)

Lemma count_cells_one p m x y s s0 :
  p s0 = false -> cell_of m x y = Some s -> p s = true ->
  1 <= count_cells p m.
Proof.
  intros H0 Hs Hp. unfold count_cells.
  pose proof (weight_grid_set (fun s => if p s then 1 else 0)
                m x y s0 s Hs) as E.
  cbv beta in E. rewrite H0, Hp in E. lia.
Qed.

(** X17.  The board a run of [start] on a fresh generator returns
    shows an unmasked cell exactly when reveal-first is enabled: without
    it every cell of the grid is a spoiler, and with it at least one
    cell is not. *)
Theorem start_unmasks_iff_reveal_first opts rng fuel k r this' k' :
  unit_source rng ->
  start fuel rng (constructor opts) k = Returns (r, this', k') ->
  r <> Null ->
  (revealFirstCell (constructor opts) = false ->
   count_cells is_unmasked (matrix this') = 0)
  /\ (revealFirstCell (constructor opts) = true ->
      1 <= count_cells is_unmasked (matrix this')).
Proof.
  intros Hunit Hrun Hr.
  destruct (start_run opts rng fuel k r this' k' Hunit Hrun Hr)
    as (b & n & xy & Hrect & Htypes & Hreg & Hsafe & HF & Hn & Hfirst).
  rewrite <- HF.
  assert (Hshown : forall x y,
    safe_at b x y -> revealed_at b this' x y ->
    1 <= count_cells is_unmasked (matrix this')).
  { intros x y _ Hc.
    apply (count_cells_one is_unmasked _ x y _ "||" eq_refl Hc).
    unfold is_unmasked. by rewrite (count_symbol_revealed b Htypes). }
  destruct (revealFirst_cases b Htypes fuel rng (k + 2 * n) Hreg Hunit
              Hsafe)
    as [[HF' E]|[(HF' & _ & c & Hc & E)|(HF' & _ & c & Hc & Hz & E)]];
    rewrite E in Hfirst; (split; [intros ?|intros ?]; try congruence).
  - injection Hfirst as _ <- _. by apply populated_board_masked.
  - injection Hfirst as _ <- _.
    apply (registry_safe b c Hreg) in Hc.
    apply (Hshown (cell_x c) (cell_y c) Hc).
    unfold revealed_at, unmask_one. cbn [matrix set_matrix].
    eapply cell_of_grid_set_eq. by apply populated_safe.
  - destruct (revealSurroundings fuel c true (unmask_one b c))
      as [th| | |] eqn:Hfill; try done.
    injection Hfirst as _ <- _.
    apply (Hshown (cell_x c) (cell_y c) (proj1 Hz)).
    pose proof (flood_fill_unmasks b Hrect Htypes fuel c (unmask_one b c)
                  (unmask_one_partly b c (proj1 Hz)) Hz) as Hun.
    rewrite Hfill in Hun. simpl in Hun.
    apply (revealed_at_stays b Htypes _ _ _ _ _ Hun).
    unfold revealed_at, unmask_one. cbn [matrix set_matrix].
    eapply cell_of_grid_set_eq. apply populated_safe, Hz.
Qed.

Lemma start_unmasks_iff_reveal_first_witness :
  unit_source late_half_source
  /\ exists r this' k',
      start 9 late_half_source (constructor (Some reveal_4x4)) 0
      = Returns (r, this', k')
      /\ r <> Null
      /\ 1 <= count_cells is_unmasked (matrix this').
Proof.
  split; [exact late_half_source_unit|]. do 3 eexists.
  assert (Hrun : forall A B : Prop, (A -> B) -> A -> A /\ B) by tauto.
  apply Hrun; [|vm_compute; reflexivity]. clear Hrun. intros Hrun.
  split; [discriminate|].
  apply (start_unmasks_iff_reveal_first (Some reveal_4x4)
           late_half_source 9 0 _ _ _ late_half_source_unit Hrun).
  - discriminate.
  - reflexivity.
Defined.
